(** * ScientificCalculator: the evaluator core of [calculator_logic.py]

    A shallow embedding of [CalculatorLogic]: the sanitizer, the function
    library with its domain checks, the formatter, the settings, and
    [evaluate], which hands the sanitized text to Python's [eval] with a
    fixed global environment.  The part of the Python expression language
    that [eval] runs is embedded as a tokenizer, a parser and an evaluator
    over Python values; what lies outside the embedded part is reported as
    [Beyond] and never given a made-up meaning.

    Python [int] is [Z]; Python [float] is the kernel's binary64 [float];
    Python [str] is a list of code points.

    The handlers of the window in [gui.py] are embedded too, over the
    three things they read and write: the evaluator, the text of the
    entry and the label of the mode button. *)

From Stdlib Require Import ZArith NArith List String Ascii Bool Lia.
From Stdlib Require Import Floats DecimalString DecimalZ.
Import ListNotations.

Set Warnings "-register-all".
Local Open Scope Z_scope.

(** ** Python strings *)

Module PyStr.

(** A [str] is its sequence of code points. *)
Definition pystr := list N.

(** The code points of an ASCII literal. *)
Definition py (s : string) : pystr := map N_of_ascii (list_ascii_of_string s).

Definition code (a : ascii) : N := N_of_ascii a.

Fixpoint eqb (s t : pystr) : bool :=
  match s, t with
  | [], [] => true
  | a :: s', b :: t' => N.eqb a b && eqb s' t'
  | _, _ => false
  end.

(** [str.isspace] on one code point (the set [str.strip] and the regular
    expression class [\s] use). *)
Definition isspace (c : N) : bool :=
  ((9 <=? c) && (c <=? 13) || (28 <=? c) && (c <=? 32)
   || (c =? 133) || (c =? 160) || (c =? 5760)
   || (8192 <=? c) && (c <=? 8202)
   || (c =? 8232) || (c =? 8233) || (c =? 8239) || (c =? 8287)
   || (c =? 12288))%N.

Fixpoint lstrip (s : pystr) : pystr :=
  match s with
  | c :: s' => if isspace c then lstrip s' else s
  | [] => []
  end.

Definition rstrip (s : pystr) : pystr := rev (lstrip (rev s)).

(** [s.strip()] *)
Definition strip (s : pystr) : pystr := rstrip (lstrip s).

(** [s.startswith(p)], returning the rest of [s] after [p]. *)
Fixpoint strip_prefix (p s : pystr) : option pystr :=
  match p, s with
  | [], _ => Some s
  | a :: p', b :: s' => if N.eqb a b then strip_prefix p' s' else None
  | _ :: _, [] => None
  end.

(** [s.replace(old, new)] for a non-empty [old]: the occurrences of [old]
    are replaced from the left, without overlap.  The fuel is the length of
    the text, one unit per character consumed. *)
Fixpoint replace_aux (fuel : nat) (old new s : pystr) : pystr :=
  match fuel with
  | O => s
  | S fuel' =>
      match s with
      | [] => []
      | c :: s' =>
          match strip_prefix old s with
          | Some rest => new ++ replace_aux fuel' old new rest
          | None => c :: replace_aux fuel' old new s'
          end
      end
  end.

Definition replace (old new s : pystr) : pystr :=
  replace_aux (List.length s) old new s.

(** [c in chars] *)
Definition mem (c : N) (chars : pystr) : bool := existsb (N.eqb c) chars.

End PyStr.

(** ** Python floats: binary64 *)

Module PyFloat.

Import PyStr.

Definition prec : Z := FloatOps.prec.
Definition emax : Z := FloatOps.emax.

(** The binary64 nearest to [n/d] (ties to even), from the quotient with a
    round and a sticky bit: the quotient is taken with at least 55 bits. *)
Definition SF_of_ratio (neg : bool) (n d : positive) : spec_float :=
  let s := Z.max 0 (55 + Z.log2 (Zpos d) - Z.log2 (Zpos n)) in
  let num := Z.shiftl (Zpos n) s in
  let q := num / Zpos d in
  let r := num mod Zpos d in
  let l := if r =? 0 then loc_Exact else loc_Inexact (2 * r ?= Zpos d) in
  binary_round_aux prec emax neg q (- s) l.

Definition SF_is_finite (x : spec_float) : bool :=
  match x with
  | S754_zero _ | S754_finite _ _ _ => true
  | _ => false
  end.

(** [float(z)] for an [int]: the nearest float, [None] when it overflows
    (Python raises OverflowError). *)
Definition of_Z (z : Z) : option float :=
  let x := binary_normalize prec emax z 0 false in
  if SF_is_finite x then Some (SF2Prim x) else None.

(** [a / b] on two [int]s with [b <> 0]: the correctly rounded quotient,
    [None] when it overflows. *)
Definition of_quotient (a b : Z) : option float :=
  let neg := xorb (a <? 0) (b <? 0) in
  match Z.abs a, Z.abs b with
  | Zpos n, Zpos d =>
      let x := SF_of_ratio neg n d in
      if SF_is_finite x then Some (SF2Prim x) else None
  | _, _ => Some (if neg then neg_zero else zero)
  end.

(** [x.is_integer()] *)
Definition is_integer (x : float) : bool :=
  match Prim2SF x with
  | S754_zero _ => true
  | S754_finite _ m e => (0 <=? e) || (Zpos m mod 2 ^ (- e) =? 0)
  | _ => false
  end.

(** The integer part of the magnitude [m * 2^e]. *)
Definition magnitude_trunc (m : positive) (e : Z) : Z :=
  if 0 <=? e then Zpos m * 2 ^ e else Zpos m / 2 ^ (- e).

Inductive to_int_result :=
| IntOf (z : Z)
| IntOfNaN
| IntOfInfinity.

(** [int(x)]: truncation toward zero; NaN and the infinities have none. *)
Definition to_Z (x : float) : to_int_result :=
  match Prim2SF x with
  | S754_nan => IntOfNaN
  | S754_infinity _ => IntOfInfinity
  | S754_zero _ => IntOf 0
  | S754_finite s m e =>
      let a := magnitude_trunc m e in IntOf (if s then - a else a)
  end.

(** C's [fmod]: the remainder has the sign of [x], and it is exact. *)
Definition fmod (x y : float) : float :=
  match Prim2SF x, Prim2SF y with
  | S754_nan, _ | _, S754_nan => nan
  | S754_infinity _, _ => nan
  | _, S754_zero _ => nan
  | S754_zero _, _ => x
  | S754_finite _ _ _, S754_infinity _ => x
  | S754_finite sx mx ex, S754_finite _ my ey =>
      let e0 := Z.min ex ey in
      let X := Zpos mx * 2 ^ (ex - e0) in
      let Y := Zpos my * 2 ^ (ey - e0) in
      let R := X mod Y in
      SF2Prim (binary_normalize prec emax (if sx then - R else R) e0 sx)
  end.

(** [x % y] on floats ([float_rem]): [None] is ZeroDivisionError. *)
Definition py_mod (vx wx : float) : option float :=
  if (wx =? 0)%float then None
  else
    let m := fmod vx wx in
    Some (if (m =? 0)%float then (if (wx <? 0)%float then neg_zero else zero)
          else if xorb (wx <? 0)%float (m <? 0)%float then (m + wx)%float
          else m).

(** [fmod(fabs(x), 2.0) == 1.0] *)
Definition is_odd_integer (x : float) : bool :=
  (fmod (abs x) 2 =? 1)%float.

End PyFloat.

(** ** Rendering numbers as text *)

Module PyFormat.

Import PyStr.

(** [str(z)] for an [int]: its decimal numeral. *)
Definition str_of_int (z : Z) : pystr := py (NilZero.string_of_int (Z.to_int z)).

Definition digit (d : Z) : N := (48 + Z.to_N d)%N.

(** The code points of the ten digits. *)
Definition digit_code (c : N) : Prop := (48 <= c <= 57)%N.

(** The [k] low decimal digits of [n], most significant first. *)
Fixpoint digits_of (k : nat) (n : Z) (acc : pystr) : pystr :=
  match k with
  | O => acc
  | S k' => digits_of k' (n / 10) (digit (n mod 10) :: acc)
  end.

(** The number of decimal digits of [n > 0]. *)
Fixpoint count_digits (fuel : nat) (n : Z) : Z :=
  match fuel with
  | O => 0
  | S fuel' => if n <? 10 then 1 else 1 + count_digits fuel' (n / 10)
  end.

(** The least [t >= t0] with [n * 10^(t - t0) >= d]. *)
Fixpoint scale_up (fuel : nat) (n d t0 : Z) : Z :=
  match fuel with
  | O => t0
  | S fuel' => if d <=? n then t0 else scale_up fuel' (10 * n) d (t0 + 1)
  end.

(** [floor (log10 (n/d))] for positive [n] and [d]. *)
Definition dec_exponent (n d : Z) : Z :=
  if d <=? n
  then count_digits (S (Z.to_nat (Z.log2 (n / d)))) (n / d) - 1
  else - scale_up (S (Z.to_nat (Z.log2 d))) n d 0.

(** [num/den] rounded to the nearest integer, ties to even. *)
Definition round_half_even (num den : Z) : Z :=
  let q := num / den in
  match 2 * (num mod den) ?= den with
  | Lt => q
  | Gt => q + 1
  | Eq => if Z.even q then q else q + 1
  end.

(** [n/d] to [p] significant decimal digits: the digits as an integer of
    exactly [p] digits, and the decimal exponent of the first one. *)
Definition significand (p n d : Z) : Z * Z :=
  let e := dec_exponent n d in
  let k := p - 1 - e in
  let q := if 0 <=? k then round_half_even (n * 10 ^ k) d
           else round_half_even n (d * 10 ^ (- k)) in
  if q =? 10 ^ p then (10 ^ (p - 1), e + 1) else (q, e).

Definition zero_char : N := 48.
Definition point_char : N := 46.

Fixpoint drop_zeros (s : pystr) : pystr :=
  match s with
  | c :: s' => if N.eqb c zero_char then drop_zeros s' else s
  | [] => []
  end.

(** The fraction digits without their trailing zeros. *)
Definition strip_zeros (frac : pystr) : pystr := rev (drop_zeros (rev frac)).

(** Integer digits, then the point and the fraction when one is left. *)
Definition with_point (int frac : pystr) : pystr :=
  match strip_zeros frac with
  | [] => int
  | f => int ++ point_char :: f
  end.

Definition sign_text (neg : bool) : pystr := if neg then py "-" else [].

(** [e+NN] or [e-NN], with at least two exponent digits. *)
Definition exponent_text (e : Z) : pystr :=
  py "e" ++ (if e <? 0 then py "-" else py "+")
  ++ (if Z.abs e <? 10 then [zero_char] else []) ++ str_of_int (Z.abs e).

(** The exact value [m * 2^e] as a fraction. *)
Definition fraction_of (m : positive) (e : Z) : Z * Z :=
  if 0 <=? e then (Zpos m * 2 ^ e, 1) else (Zpos m, 2 ^ (- e)).

(** Where the point goes.  [ds] are the significant digits and [x10] the
    decimal exponent of the first one: fixed notation when the exponent is
    in [-4, p), scientific notation otherwise; the trailing zeros of the
    fraction are removed either way. *)
Definition layout (p : Z) (ds : pystr) (x10 : Z) : pystr :=
  if (-4 <=? x10) && (x10 <? p)
  then if 0 <=? x10
       then with_point (firstn (Z.to_nat (x10 + 1)) ds)
                       (skipn (Z.to_nat (x10 + 1)) ds)
       else with_point (py "0")
                       (repeat zero_char (Z.to_nat (- x10 - 1)) ++ ds)
  else with_point (firstn 1 ds) (skipn 1 ds) ++ exponent_text x10.

(** [format(x, '.{p}g')] for [p >= 1]: the value rounded to [p]
    significant digits, laid out by [layout]. *)
Definition format_g (p : Z) (x : float) : pystr :=
  match Prim2SF x with
  | S754_nan => py "nan"
  | S754_infinity s => sign_text s ++ py "inf"
  | S754_zero s => sign_text s ++ py "0"
  | S754_finite s m e =>
      let (n, d) := fraction_of m e in
      let (q, x10) := significand p n d in
      sign_text s ++ layout p (digits_of (Z.to_nat p) q []) x10
  end.

(** [10^e <= n/d < 10^(e+1)], on integers. *)
Definition decade (n d e : Z) : Prop :=
  if 0 <=? e then 10 ^ e * d <= n < 10 ^ (e + 1) * d
  else d <= n * 10 ^ (- e) < 10 * d.

(** [q] has exactly [p] digits and [q * 10^(x-(p-1))] is within half a
    unit of its last digit of [n/d]: [q] is [n/d] rounded to [p]
    significant digits, with [x] the decimal exponent of the first. *)
Definition rounds_to (p n d q x : Z) : Prop :=
  10 ^ (p - 1) <= q < 10 ^ p
  /\ (if 0 <=? p - 1 - x
      then Z.abs (2 * (q * d - n * 10 ^ (p - 1 - x))) <= d
      else Z.abs (2 * (q * (d * 10 ^ (x - (p - 1))) - n))
           <= d * 10 ^ (x - (p - 1))).

End PyFormat.

(** ** The expression language of [eval]: tokens *)

Module PyLex.

Import PyStr PyFloat.

Definition is_digit (c : N) : bool := ((48 <=? c) && (c <=? 57))%N.

(** A letter of an ASCII identifier, or the underscore. *)
Definition is_alpha (c : N) : bool :=
  ((65 <=? c) && (c <=? 90) || (97 <=? c) && (c <=? 122) || (c =? 95))%N.

Definition is_alnum (c : N) : bool := is_alpha c || is_digit c.

Fixpoint span (p : N -> bool) (s : pystr) : pystr * pystr :=
  match s with
  | c :: s' => if p c then let (a, b) := span p s' in (c :: a, b) else ([], s)
  | [] => ([], [])
  end.

(** The value of a string of decimal digits. *)
Definition digits_value (ds : pystr) : Z :=
  fold_left (fun acc c => 10 * acc + Z.of_N (c - 48)) ds 0.

(** The float a decimal literal denotes: the binary64 nearest to
    [m * 10^k], ties to even; a literal too large is [inf].  The two
    guards answer at once where the value is beyond every finite float
    ([10^1000 < m * 10^k]) or below the least one ([m * 10^k < 10^-1000]). *)
Definition float_of_decimal (m k : Z) : float :=
  match m with
  | Zpos n =>
      if 1000 <? k then infinity
      else if k + Z.log2 m + 1 <? -1000 then zero
      else if 0 <=? k
           then SF2Prim (binary_normalize prec emax (m * 10 ^ k) 0 false)
           else SF2Prim (SF_of_ratio false n (Z.to_pos (10 ^ (- k))))
  | _ => zero
  end.

Inductive token :=
| TInt (z : Z)
| TFloat (f : float)
| TName (s : pystr)
| TPlus | TMinus | TStar | TPow | TSlash | TFloorDiv | TPercent
| TLParen | TRParen | TComma | TDot.

(** Python's reserved words, and [__debug__], which the compiler replaces
    by a constant: an expression that uses one is outside the embedding. *)
Definition reserved : list string :=
  ["False"; "None"; "True"; "and"; "as"; "assert"; "async"; "await";
   "break"; "class"; "continue"; "def"; "del"; "elif"; "else"; "except";
   "finally"; "for"; "from"; "global"; "if"; "import"; "in"; "is";
   "lambda"; "nonlocal"; "not"; "or"; "pass"; "raise"; "return"; "try";
   "while"; "with"; "yield"; "__debug__"]%string.

Definition is_reserved (name : pystr) : bool :=
  existsb (fun k => PyStr.eqb name (py k)) reserved.

(** The optional exponent of a float literal after its digits: the signed
    exponent and the rest, or [None] when no exponent follows. *)
Definition lex_exponent (s : pystr) : option (Z * pystr) :=
  match s with
  | e :: r =>
      if ((e =? 101) || (e =? 69))%N then
        match r with
        | c :: r' =>
            if is_digit c then
              let (ds, rest) := span is_digit r in Some (digits_value ds, rest)
            else if ((c =? 43) || (c =? 45))%N then
              match r' with
              | d :: _ =>
                  if is_digit d then
                    let (ds, rest) := span is_digit r' in
                    Some ((if (c =? 45)%N then - digits_value ds
                           else digits_value ds), rest)
                  else None
              | [] => None
              end
            else None
        | [] => None
        end
      else None
  | [] => None
  end.

(** A number literal at the head of [s], which starts with a digit or with
    a point followed by a digit.  Decimal integers and decimal floats are
    embedded; [None] stands for the other literals (underscores, a radix
    prefix, an imaginary suffix, a leading zero, a letter glued to the
    number, and an integer of more than 640 digits, which the
    interpreter's limit on integer text may refuse). *)
Definition lex_number (s : pystr) : option (token * pystr) :=
  let (ip, r1) := span is_digit s in
  let '(has_point, fp, r2) :=
    match r1 with
    | c :: r => if (c =? 46)%N
                then let (fp, r') := span is_digit r in (true, fp, r')
                else (false, [], r1)
    | [] => (false, [], r1)
    end in
  let '(ex, r3) :=
    match lex_exponent r2 with
    | Some (e, r) => (Some e, r)
    | None => (None, r2)
    end in
  let glued := match r3 with c :: _ => is_alpha c | [] => false end in
  if glued then None
  else
    match has_point, ex with
    | false, None =>
        match ip with
        | c :: _ :: _ => if (c =? 48)%N || (640 <? List.length ip)%nat
                         then None
                         else Some (TInt (digits_value ip), r3)
        | _ => Some (TInt (digits_value ip), r3)
        end
    | _, _ =>
        let e := match ex with Some e => e | None => 0 end in
        Some (TFloat (float_of_decimal (digits_value (ip ++ fp))
                                       (e - Z.of_nat (List.length fp))), r3)
    end.

Inductive lexed :=
| Tokens (ts : list token)
| LexBeyond.

Definition lex_cons (t : token) (r : lexed) : lexed :=
  match r with
  | Tokens ts => Tokens (t :: ts)
  | LexBeyond => LexBeyond
  end.

(** The tokens of a sanitized expression.  Blanks and tabs separate
    tokens; a line break, another whitespace character or three points in
    a row are outside the embedding. *)
Fixpoint lex (fuel : nat) (s : pystr) : lexed :=
  match fuel with
  | O => LexBeyond
  | S fuel' =>
      match s with
      | [] => Tokens []
      | c :: rest =>
          let next_is (p : N -> bool) :=
            match rest with d :: _ => p d | [] => false end in
          if ((c =? 32) || (c =? 9))%N then lex fuel' rest
          else if is_digit c || (c =? 46)%N && next_is is_digit then
            match lex_number s with
            | Some (t, rest') => lex_cons t (lex fuel' rest')
            | None => LexBeyond
            end
          else if is_alpha c then
            let (name, rest') := span is_alnum s in
            if is_reserved name then LexBeyond
            else lex_cons (TName name) (lex fuel' rest')
          else if (c =? 46)%N then
            if next_is (N.eqb 46) then LexBeyond
            else lex_cons TDot (lex fuel' rest)
          else if (c =? 42)%N then
            match rest with
            | d :: rest' => if (d =? 42)%N then lex_cons TPow (lex fuel' rest')
                            else lex_cons TStar (lex fuel' rest)
            | [] => lex_cons TStar (lex fuel' rest)
            end
          else if (c =? 47)%N then
            match rest with
            | d :: rest' => if (d =? 47)%N
                            then lex_cons TFloorDiv (lex fuel' rest')
                            else lex_cons TSlash (lex fuel' rest)
            | [] => lex_cons TSlash (lex fuel' rest)
            end
          else if (c =? 43)%N then lex_cons TPlus (lex fuel' rest)
          else if (c =? 45)%N then lex_cons TMinus (lex fuel' rest)
          else if (c =? 37)%N then lex_cons TPercent (lex fuel' rest)
          else if (c =? 40)%N then lex_cons TLParen (lex fuel' rest)
          else if (c =? 41)%N then lex_cons TRParen (lex fuel' rest)
          else if (c =? 44)%N then lex_cons TComma (lex fuel' rest)
          else LexBeyond
      end
  end.

Definition tokenize (s : pystr) : lexed := lex (S (List.length s)) s.

End PyLex.

(** ** The expression language of [eval]: syntax trees *)

Module PyParse.

Import PyStr PyLex.

Inductive binop := Add | Sub | Mul | Div | FloorDiv | Mod | Pow.

Inductive unop := Neg | Pos.

Inductive expr :=
| EInt (z : Z)
| EFloat (f : float)
| EName (s : pystr)
| EBin (op : binop) (a b : expr)
| EUn (op : unop) (a : expr)
| ECall (f : expr) (args : list expr)
| EAttr (e : expr) (name : pystr)
| ETuple (items : list expr).

(** What a parser returns: a tree and the tokens left, a SyntaxError, or
    [ParseBeyond] for a construct outside the embedding (a starred
    expression) and for exhausted fuel. *)
Inductive parsed (A : Type) :=
| Parsed (a : A) (rest : list token)
| SyntaxErr
| ParseBeyond.

Arguments Parsed {A} a rest.
Arguments SyntaxErr {A}.
Arguments ParseBeyond {A}.

Definition pbind {A B} (r : parsed A) (k : A -> list token -> parsed B)
  : parsed B :=
  match r with
  | Parsed a rest => k a rest
  | SyntaxErr => SyntaxErr
  | ParseBeyond => ParseBeyond
  end.

(** Python's precedence, loosest first: [+ -], then [* / // %], then the
    unary signs, then [**] (whose right operand is again a signed factor,
    so that [**] groups to the right and binds tighter than a sign on its
    left), then attribute access and calls. *)
Fixpoint parse_sum (fuel : nat) (ts : list token) {struct fuel} : parsed expr :=
  match fuel with
  | O => ParseBeyond
  | S fuel' => pbind (parse_term fuel' ts) (sum_rest fuel')
  end
with sum_rest (fuel : nat) (a : expr) (ts : list token) {struct fuel}
  : parsed expr :=
  match fuel with
  | O => ParseBeyond
  | S fuel' =>
      match ts with
      | TPlus :: r =>
          pbind (parse_term fuel' r) (fun b => sum_rest fuel' (EBin Add a b))
      | TMinus :: r =>
          pbind (parse_term fuel' r) (fun b => sum_rest fuel' (EBin Sub a b))
      | _ => Parsed a ts
      end
  end
with parse_term (fuel : nat) (ts : list token) {struct fuel} : parsed expr :=
  match fuel with
  | O => ParseBeyond
  | S fuel' => pbind (parse_factor fuel' ts) (term_rest fuel')
  end
with term_rest (fuel : nat) (a : expr) (ts : list token) {struct fuel}
  : parsed expr :=
  match fuel with
  | O => ParseBeyond
  | S fuel' =>
      let continue op r :=
        pbind (parse_factor fuel' r) (fun b => term_rest fuel' (EBin op a b)) in
      match ts with
      | TStar :: r => continue Mul r
      | TSlash :: r => continue Div r
      | TFloorDiv :: r => continue FloorDiv r
      | TPercent :: r => continue Mod r
      | _ => Parsed a ts
      end
  end
with parse_factor (fuel : nat) (ts : list token) {struct fuel} : parsed expr :=
  match fuel with
  | O => ParseBeyond
  | S fuel' =>
      match ts with
      | TPlus :: r =>
          pbind (parse_factor fuel' r) (fun a rest => Parsed (EUn Pos a) rest)
      | TMinus :: r =>
          pbind (parse_factor fuel' r) (fun a rest => Parsed (EUn Neg a) rest)
      | _ =>
          pbind (parse_atom fuel' ts) (fun a rest =>
          pbind (trailers fuel' a rest) (fun a rest =>
          match rest with
          | TPow :: r =>
              pbind (parse_factor fuel' r)
                    (fun b rest' => Parsed (EBin Pow a b) rest')
          | _ => Parsed a rest
          end))
      end
  end
with trailers (fuel : nat) (a : expr) (ts : list token) {struct fuel}
  : parsed expr :=
  match fuel with
  | O => ParseBeyond
  | S fuel' =>
      match ts with
      | TDot :: TName n :: r => trailers fuel' (EAttr a n) r
      | TDot :: _ => SyntaxErr
      | TLParen :: r =>
          pbind (parse_items fuel' r)
                (fun args => trailers fuel' (ECall a args))
      | _ => Parsed a ts
      end
  end
with parse_atom (fuel : nat) (ts : list token) {struct fuel} : parsed expr :=
  match fuel with
  | O => ParseBeyond
  | S fuel' =>
      match ts with
      | TInt z :: r => Parsed (EInt z) r
      | TFloat f :: r => Parsed (EFloat f) r
      | TName n :: r => Parsed (EName n) r
      | TLParen :: TRParen :: r => Parsed (ETuple []) r
      | TLParen :: r =>
          pbind (parse_sum fuel' r) (fun a rest =>
          match rest with
          | TRParen :: rest' => Parsed a rest'
          | TComma :: rest' =>
              pbind (parse_items fuel' rest')
                    (fun l rest'' => Parsed (ETuple (a :: l)) rest'')
          | _ => SyntaxErr
          end)
      | TStar :: _ | TPow :: _ => ParseBeyond
      | _ => SyntaxErr
      end
  end
with parse_items (fuel : nat) (ts : list token) {struct fuel}
  : parsed (list expr) :=
  (* expressions separated by commas, an optional comma after the last,
     up to and including the closing parenthesis *)
  match fuel with
  | O => ParseBeyond
  | S fuel' =>
      match ts with
      | TRParen :: r => Parsed [] r
      | _ =>
          pbind (parse_sum fuel' ts) (fun a rest =>
          match rest with
          | TRParen :: rest' => Parsed [a] rest'
          | TComma :: rest' =>
              pbind (parse_items fuel' rest')
                    (fun l rest'' => Parsed (a :: l) rest'')
          | _ => SyntaxErr
          end)
      end
  end.

(** The items of a tuple written without parentheses, to the end of the
    text. *)
Fixpoint top_items (fuel : nat) (ts : list token) : parsed (list expr) :=
  match fuel with
  | O => ParseBeyond
  | S fuel' =>
      match ts with
      | [] => Parsed [] []
      | _ =>
          pbind (parse_sum (8 * S (List.length ts))%nat ts) (fun a rest =>
          match rest with
          | [] => Parsed [a] []
          | TComma :: rest' =>
              pbind (top_items fuel' rest')
                    (fun l rest'' => Parsed (a :: l) rest'')
          | _ => SyntaxErr
          end)
      end
  end.

Inductive parse_result :=
| Tree (e : expr)
| SyntaxError
| Unparsed.

(** [eval]'s parse of the whole text (the grammar's [eval_input]). *)
Definition parse_tokens (ts : list token) : parse_result :=
  let fuel := (8 * S (List.length ts))%nat in
  match parse_sum fuel ts with
  | Parsed a [] => Tree a
  | Parsed a (TComma :: rest) =>
      match top_items fuel rest with
      | Parsed l _ => Tree (ETuple (a :: l))
      | SyntaxErr => SyntaxError
      | ParseBeyond => Unparsed
      end
  | Parsed _ _ => SyntaxError
  | SyntaxErr => SyntaxError
  | ParseBeyond => Unparsed
  end.

Definition parse (s : pystr) : parse_result :=
  match tokenize s with
  | Tokens ts => parse_tokens ts
  | LexBeyond => Unparsed
  end.

End PyParse.

(** ** Python values, exceptions and the evaluator's state *)

Module PyValue.

Import PyStr PyFloat PyFormat.

(** The built-in functions [safe_env] exposes: [abs], [round], [pow] and
    [math.exp]. *)
Inductive builtin := BAbs | BRound | BPow | BExp.

(** The methods of [CalculatorLogic] the embedding runs, as bound methods
    of the one evaluator instance. *)
Inductive method :=
| M_init | M_set_angle_mode | M_clear_history
| M_sin | M_cos | M_tan | M_ln | M_log10 | M_log
| M_sqrt | M_root | M_fact | M_npr | M_ncr.

Inductive pyclass := ClassInt | ClassFloat.

Inductive value :=
| VNone
| VInt (z : Z)
| VFloat (f : float)
| VStr (s : pystr)
| VTuple (items : list value)
| VBuiltin (b : builtin)
| VMethod (m : method)
| VSelf
| VClass (c : pyclass).

(** The exceptions [evaluate] tells apart.  [OtherError] is an [Exception]
    that is none of the four named ones (OverflowError, AttributeError). *)
Inductive exn :=
| ZeroDivisionError
| ValueError (msg : pystr)
| SyntaxError
| TypeError
| OtherError.

(** The fields of a [CalculatorLogic] instance.  [angle_mode] holds
    whatever was assigned to it. *)
Record calc := mk_calc {
  angle_mode : value;
  history : list (pystr * value)
}.

(** [CalculatorLogic(angle_mode)] *)
Definition __init__ (mode : value) : calc :=
  {| angle_mode := mode; history := [] |}.

(** [CalculatorLogic()] *)
Definition new_calc : calc := __init__ (VStr (py "DEG")).

(** The result of a computation that does not touch the instance. *)
Inductive result (A : Type) :=
| Ok (a : A)
| Err (e : exn)
| Unmodelled.

Arguments Ok {A} a.
Arguments Err {A} e.
Arguments Unmodelled {A}.

(** The outcome of running code against the instance: a value or an
    exception, each with the instance as the code left it, or [Beyond] when
    the code leaves the embedded part of Python. *)
Inductive outcome (A : Type) :=
| Return (a : A) (st : calc)
| Raise (e : exn) (st : calc)
| Beyond.

Arguments Return {A} a st.
Arguments Raise {A} e st.
Arguments Beyond {A}.

Definition bind {A B} (r : outcome A) (k : A -> calc -> outcome B)
  : outcome B :=
  match r with
  | Return a st => k a st
  | Raise e st => Raise e st
  | Beyond => Beyond
  end.

Definition lift {A} (r : result A) (st : calc) : outcome A :=
  match r with
  | Ok a => Return a st
  | Err e => Raise e st
  | Unmodelled => Beyond
  end.

Definition rbind {A B} (r : result A) (k : A -> result B) : result B :=
  match r with
  | Ok a => k a
  | Err e => Err e
  | Unmodelled => Unmodelled
  end.

Notation "x <- r ;; k" := (rbind r (fun x => k))
  (at level 61, r at next level, right associativity).

(** [float(v)]: a string argument would be parsed, which is not embedded. *)
Definition to_float (v : value) : result float :=
  match v with
  | VFloat f => Ok f
  | VInt z => match of_Z z with Some f => Ok f | None => Err OtherError end
  | VStr _ => Unmodelled
  | _ => Err TypeError
  end.

Definition nan_to_integer : pystr := py "cannot convert float NaN to integer".

(** [int(v)] *)
Definition to_int (v : value) : result Z :=
  match v with
  | VInt z => Ok z
  | VFloat f =>
      match to_Z f with
      | IntOf z => Ok z
      | IntOfNaN => Err (ValueError nan_to_integer)
      | IntOfInfinity => Err OtherError
      end
  | VStr _ => Unmodelled
  | _ => Err TypeError
  end.

(** The argument of a function of the [math] module: a real number. *)
Definition as_double (v : value) : result float :=
  match v with
  | VFloat f => Ok f
  | VInt z => match of_Z z with Some f => Ok f | None => Err OtherError end
  | _ => Err TypeError
  end.

End PyValue.

(** ** The host: what the platform supplies *)

Module PyHost.

Import PyStr PyFloat PyFormat PyValue.

(** The C library's elementary functions behind the [math] module and the
    float power, the Unicode upper-case mapping of the code points beyond
    ASCII, the default [repr] of the evaluator instance (it embeds the
    instance's address), and the interpreter's limit on the number of
    digits in a conversion between [int] and text
    ([sys.get_int_max_str_digits()]: 4300 by default since Python 3.11,
    0 for no limit). *)
Record host := mk_host {
  libm_sin : float -> float;
  libm_cos : float -> float;
  libm_tan : float -> float;
  libm_log : float -> float;
  libm_log10 : float -> float;
  libm_exp : float -> float;
  libm_pow : float -> float -> float;
  unicode_upper : N -> pystr;
  self_repr : pystr;
  int_max_str_digits : Z
}.

(** [math.pi] and [math.e] *)
Definition math_pi : float := 0x1.921fb54442d18p+1%float.
Definition math_e : float := 0x1.5bf0a8b145769p+1%float.

(** The [math] module's wrapper around a one-argument C function: a NaN
    from a number, or an infinity from a finite number, is an error.  The
    overflow is OverflowError; the text of the domain error differs between
    interpreter versions and is left out of the embedding. *)
Definition math_1 (f : float -> float) (can_overflow : bool) (x : float)
  : result float :=
  let r := f x in
  if is_nan r && negb (is_nan x) then Unmodelled
  else if is_infinity r && is_finite x
       then (if can_overflow then Err OtherError else Unmodelled)
       else Ok r.

(** [math.radians(x)] *)
Definition math_radians (x : float) : float := (x * (math_pi / 180))%float.

(** The logarithm as the [math] module guards it ([m_log]): the C function
    is called on positive finite numbers only. *)
Definition m_log (clog : float -> float) (x : float) : float :=
  if is_finite x then
    if (0 <? x)%float then clog x
    else if (x =? 0)%float then neg_infinity else nan
  else if is_nan x then x
  else if (0 <? x)%float then x else nan.

Section WithHost.

Variable h : host.

Definition math_sin (x : float) : result float := math_1 (libm_sin h) false x.
Definition math_cos (x : float) : result float := math_1 (libm_cos h) false x.
Definition math_tan (x : float) : result float := math_1 (libm_tan h) false x.
Definition math_exp (x : float) : result float := math_1 (libm_exp h) true x.
Definition math_sqrt (x : float) : result float := math_1 sqrt false x.
Definition math_log10 (x : float) : result float :=
  math_1 (m_log (libm_log10 h)) false x.

(** [math.log(x)] *)
Definition math_log (x : float) : result float :=
  math_1 (m_log (libm_log h)) false x.

(** [math.log(x, base)]: the quotient of the two logarithms. *)
Definition math_log_base (x base : float) : result float :=
  num <- math_log x ;;
  den <- math_log base ;;
  if (den =? 0)%float then Err ZeroDivisionError else Ok (num / den)%float.

(** [x ** y] on floats ([float_pow]): the special values first, then the C
    library's [pow] on a positive base; a negative base with a fractional
    exponent gives a complex number, which is not embedded. *)
Definition float_pow (iv iw : float) : result float :=
  if (iw =? 0)%float then Ok 1%float
  else if is_nan iv then Ok iv
  else if is_nan iw then Ok (if (iv =? 1)%float then 1%float else iw)
  else if is_infinity iw then
    let a := abs iv in
    Ok (if (a =? 1)%float then 1%float
        else if Bool.eqb (0 <? iw)%float (1 <? a)%float then abs iw
        else 0%float)
  else if is_infinity iv then
    let odd := is_odd_integer iw in
    Ok (if (0 <? iw)%float then (if odd then iv else abs iv)
        else if odd && (iv <? 0)%float then neg_zero else 0%float)
  else if (iv =? 0)%float then
    if (iw <? 0)%float then Err ZeroDivisionError
    else Ok (if is_odd_integer iw then iv else 0%float)
  else
    let negative := (iv <? 0)%float in
    if negative && negb (is_integer iw) then Unmodelled
    else
      let base := if negative then (- iv)%float else iv in
      let negate := negative && is_odd_integer iw in
      if (base =? 1)%float then Ok (if negate then (-1)%float else 1%float)
      else
        let ix := libm_pow h base iw in
        if is_nan ix then Unmodelled
        else if is_infinity ix then Err OtherError
        else Ok (if negate then (- ix)%float else ix).

End WithHost.

End PyHost.

(** ** Operators and built-in functions on values *)

Module PyOps.

Import PyStr PyFloat PyFormat PyParse PyValue PyHost.

Section WithHost.

Variable h : host.

Definition int_binop (op : binop) (a b : Z) : result value :=
  match op with
  | Add => Ok (VInt (a + b))
  | Sub => Ok (VInt (a - b))
  | Mul => Ok (VInt (a * b))
  | Div =>
      if b =? 0 then Err ZeroDivisionError
      else match of_quotient a b with
           | Some f => Ok (VFloat f)
           | None => Err OtherError
           end
  | FloorDiv => if b =? 0 then Err ZeroDivisionError else Ok (VInt (a / b))
  | Mod => if b =? 0 then Err ZeroDivisionError else Ok (VInt (a mod b))
  | Pow =>
      if 0 <=? b then Ok (VInt (a ^ b))
      else
        x <- to_float (VInt a) ;;
        y <- to_float (VInt b) ;;
        r <- float_pow h x y ;;
        Ok (VFloat r)
  end.

Definition float_binop (op : binop) (a b : float) : result value :=
  match op with
  | Add => Ok (VFloat (a + b))
  | Sub => Ok (VFloat (a - b))
  | Mul => Ok (VFloat (a * b))
  | Div => if (b =? 0)%float then Err ZeroDivisionError
           else Ok (VFloat (a / b))
  | FloorDiv => if (b =? 0)%float then Err ZeroDivisionError else Unmodelled
  | Mod => match py_mod a b with
           | Some r => Ok (VFloat r)
           | None => Err ZeroDivisionError
           end
  | Pow => r <- float_pow h a b ;; Ok (VFloat r)
  end.

(** Strings and tuples have operators of their own (concatenation,
    repetition, formatting), which are not embedded. *)
Definition is_sequence (v : value) : bool :=
  match v with
  | VStr _ | VTuple _ => true
  | _ => false
  end.

(** [a op b]: an [int] operand meets a [float] one as a float; the objects
    that are no numbers have none of these operators. *)
Definition binary (op : binop) (a b : value) : result value :=
  match a, b with
  | VInt x, VInt y => int_binop op x y
  | VFloat x, VFloat y => float_binop op x y
  | VInt x, VFloat y => x' <- to_float (VInt x) ;; float_binop op x' y
  | VFloat x, VInt y => y' <- to_float (VInt y) ;; float_binop op x y'
  | _, _ => if is_sequence a || is_sequence b then Unmodelled
            else Err TypeError
  end.

Definition unary (op : unop) (a : value) : result value :=
  match op, a with
  | Neg, VInt z => Ok (VInt (- z))
  | Neg, VFloat f => Ok (VFloat (- f))
  | Pos, VInt z => Ok a
  | Pos, VFloat f => Ok a
  | _, _ => Err TypeError
  end.

(** [round(x)] on a float: the nearest integer, ties to even. *)
Definition round_float (x : float) : result Z :=
  match Prim2SF x with
  | S754_nan => Err (ValueError nan_to_integer)
  | S754_infinity _ => Err OtherError
  | S754_zero _ => Ok 0
  | S754_finite s m e =>
      let (n, d) := fraction_of m e in
      let r := round_half_even n d in
      Ok (if s then - r else r)
  end.

(** A call of one of the four built-in functions. *)
Definition call_builtin (b : builtin) (args : list value) : result value :=
  match b, args with
  | BAbs, [VInt z] => Ok (VInt (Z.abs z))
  | BAbs, [VFloat f] => Ok (VFloat (abs f))
  | BAbs, _ => Err TypeError
  | BRound, [VInt z] => Ok (VInt z)
  | BRound, [VFloat f] => z <- round_float f ;; Ok (VInt z)
  | BRound, [_; _] => Unmodelled
  | BRound, _ => Err TypeError
  | BPow, [x; y] => binary Pow x y
  | BPow, [_; _; _] => Unmodelled
  | BPow, _ => Err TypeError
  | BExp, [x] => f <- as_double x ;; r <- math_exp h f ;; Ok (VFloat r)
  | BExp, _ => Err TypeError
  end.

Definition builtin_name (b : builtin) : string :=
  match b with
  | BAbs => "abs" | BRound => "round" | BPow => "pow" | BExp => "exp"
  end.

Definition method_name (m : method) : string :=
  match m with
  | M_init => "__init__" | M_set_angle_mode => "set_angle_mode"
  | M_clear_history => "clear_history"
  | M_sin => "_sin" | M_cos => "_cos" | M_tan => "_tan" | M_ln => "_ln"
  | M_log10 => "_log10" | M_log => "_log" | M_sqrt => "_sqrt"
  | M_root => "_root" | M_fact => "_fact" | M_npr => "_npr"
  | M_ncr => "_ncr"
  end.

Definition class_name (c : pyclass) : string :=
  match c with ClassInt => "int" | ClassFloat => "float" end.

(** The number of decimal digits of an [int]. *)
Definition digit_count (z : Z) : Z :=
  if z =? 0 then 1
  else count_digits (S (Z.to_nat (Z.log2 (Z.abs z)))) (Z.abs z).

Definition exceeds_limit_message (limit : Z) : pystr :=
  py "Exceeds the limit (" ++ str_of_int limit
  ++ py " digits) for integer string conversion; use sys.set_int_max_str_digits() to increase the limit".

(** [str(z)] and [repr(z)] for an [int]: the decimal numeral, or a
    ValueError when it has more digits than the interpreter's limit.  The
    interpreter looks at the limit only for numerals of more than 640
    digits. *)
Definition int_text (z : Z) : result pystr :=
  let limit := int_max_str_digits h in
  let digits := digit_count z in
  if (640 <? digits) && (0 <? limit) && (limit <? digits)
  then Err (ValueError (exceeds_limit_message limit))
  else Ok (str_of_int z).

(** [repr(v)]; the shortest-digits [repr] of a float and the quoting of a
    string are not embedded. *)
Fixpoint py_repr (v : value) : result pystr :=
  match v with
  | VNone => Ok (py "None")
  | VInt z => int_text z
  | VFloat _ => Unmodelled
  | VStr _ => Unmodelled
  | VTuple items =>
      let fix all (l : list value) : result (list pystr) :=
        match l with
        | [] => Ok []
        | x :: r => a <- py_repr x ;; b <- all r ;; Ok (a :: b)
        end in
      texts <- all items ;;
      match texts with
      | [one] => Ok (py "(" ++ one ++ py ",)")
      | [] => Ok (py "()")
      | t :: ts =>
          Ok (py "(" ++ List.concat (t :: map (fun x => py ", " ++ x) ts)
              ++ py ")")
      end
  | VBuiltin b => Ok (py "<built-in function " ++ py (builtin_name b) ++ py ">")
  | VMethod m =>
      Ok (py "<bound method CalculatorLogic." ++ py (method_name m)
          ++ py " of " ++ self_repr h ++ py ">")
  | VSelf => Ok (self_repr h)
  | VClass c => Ok (py "<class '" ++ py (class_name c) ++ py "'>")
  end.

(** [str(v)] *)
Definition py_str (v : value) : result pystr :=
  match v with
  | VStr s => Ok s
  | _ => py_repr v
  end.

End WithHost.

End PyOps.

(** ** [class CalculatorLogic] *)

Module CalculatorLogic.

Import PyStr PyFloat PyFormat PyParse PyValue PyHost PyOps.

(** [v == s] for a string literal [s]: a value that is no string is
    different from every string. *)
Definition is_str (v : value) (s : string) : bool :=
  match v with
  | VStr t => PyStr.eqb t (py s)
  | _ => false
  end.

Definition domain_error : exn := ValueError (py "Domain Error").
Definition complex_result : exn := ValueError (py "Complex Result").
Definition invalid_root : exn := ValueError (py "Invalid Root").
Definition angle_mode_error : exn :=
  ValueError (py "Angle mode must be 'DEG' or 'RAD'").
Definition factorial_needs_integer : pystr := py "Factorial needs integer".
Definition npr_needs_integers : pystr := py "nPr needs integers".
Definition ncr_needs_integers : pystr := py "nCr needs integers".

(** The literal [1e-12] of [_tan]. *)
Definition tolerance : float := PyLex.float_of_decimal 1 (-12).

Fixpoint factorial_nat (n : nat) : Z :=
  match n with
  | O => 1
  | S k => Z.of_nat n * factorial_nat k
  end.

(** [math.factorial(n)] for [0 <= n].  An argument beyond a C [long] is
    refused by the interpreter, and one beyond 32 bits is refused on some
    platforms and never returns on the others: it is not embedded. *)
Definition math_factorial (n : Z) : result Z :=
  if 2 ^ 31 <=? n then Unmodelled else Ok (factorial_nat (Z.to_nat n)).

(** [math.comb(n, r)] for [0 <= r <= n]: the binomial coefficient. *)
Definition math_comb (n r : Z) : result Z :=
  if 2 ^ 31 <=? Z.min r (n - r) then Unmodelled
  else
    (* n (n-1) ... (n-k+1) / k!  with k the smaller of r and n - r *)
    let k := Z.to_nat (Z.min r (n - r)) in
    let fix falling (j : nat) (top : Z) : Z :=
      match j with
      | O => 1
      | S j' => top * falling j' (top - 1)
      end in
    Ok (falling k n / factorial_nat k).

(** The characters the sanitizer's regular expression admits:
    [[0-9a-zA-Z_+\-*/%.(),\s]]. *)
Definition allowed_char (c : N) : bool :=
  PyLex.is_digit c || PyLex.is_alpha c
  || mem c (py "+-*/%.(),") || isspace c.

Definition invalid_marker : pystr := py "__INVALID_CHARS__".

Definition times_sign : N := 215.   (* the multiplication sign, U+00D7 *)
Definition division_sign : N := 247. (* the division sign, U+00F7 *)
Definition caret : N := 94.

(** [_preprocess] *)
Definition _preprocess (expr : pystr) : pystr :=
  let expr := strip expr in
  let expr := replace [times_sign] (py "*") expr in
  let expr := replace [division_sign] (py "/") expr in
  let expr := replace [caret] (py "**") expr in
  if negb (forallb allowed_char expr) then invalid_marker
  else expr.

Section WithHost.

Variable h : host.

(** [_format_result] *)
Definition _format_result (result : value) : PyValue.result pystr :=
  match result with
  | VFloat f =>
      if is_integer f then z <- to_int (VFloat f) ;; int_text h z
      else Ok (format_g 12 f)
  | _ => py_str h result
  end.

(** [str.upper] on one code point. *)
Definition upper_char (c : N) : pystr :=
  if ((97 <=? c) && (c <=? 122))%N then [(c - 32)%N]
  else if (c <? 128)%N then [c]
  else unicode_upper h c.

Definition upper (s : pystr) : pystr := flat_map upper_char s.

(** [set_angle_mode] *)
Definition set_angle_mode (mode : pystr) (st : calc) : outcome value :=
  let mode := strip (upper mode) in
  if negb (PyStr.eqb mode (py "DEG") || PyStr.eqb mode (py "RAD"))
  then Raise angle_mode_error st
  else Return VNone {| angle_mode := VStr mode; history := history st |}.

(** [clear_history] *)
Definition clear_history (st : calc) : outcome value :=
  Return VNone {| angle_mode := angle_mode st; history := [] |}.

(** [get_history]: a copy of the list. *)
Definition get_history (st : calc) : list (pystr * value) := history st.

(** [_to_radians] *)
Definition _to_radians (st : calc) (x : float) : float :=
  if is_str (angle_mode st) "DEG" then math_radians x else x.

Definition _sin (st : calc) (x : value) : result value :=
  a <- to_float x ;;
  r <- math_sin h (_to_radians st a) ;;
  Ok (VFloat r).

Definition _cos (st : calc) (x : value) : result value :=
  a <- to_float x ;;
  r <- math_cos h (_to_radians st a) ;;
  Ok (VFloat r).

(** The singularity test of [_tan] in degree mode:
    [abs((angle % 180) - 90) < 1e-12]. *)
Definition near_singularity_deg (angle : float) : bool :=
  match py_mod angle 180 with
  | Some r => (abs (r - 90) <? tolerance)%float
  | None => false
  end.

(** The singularity test of [_tan] in radian mode:
    [abs((angle - (math.pi / 2)) % math.pi) < 1e-12]. *)
Definition near_singularity_rad (angle : float) : bool :=
  match py_mod (angle - math_pi / 2) math_pi with
  | Some r => (abs r <? tolerance)%float
  | None => false
  end.

Definition _tan (st : calc) (x : value) : result value :=
  angle <- to_float x ;;
  if (if is_str (angle_mode st) "DEG" then near_singularity_deg angle
      else near_singularity_rad angle)
  then Err domain_error
  else r <- math_tan h (_to_radians st angle) ;; Ok (VFloat r).

Definition _ln (x : value) : result value :=
  x <- to_float x ;;
  if (x <=? 0)%float then Err domain_error
  else r <- math_log h x ;; Ok (VFloat r).

Definition _log10 (x : value) : result value :=
  x <- to_float x ;;
  if (x <=? 0)%float then Err domain_error
  else r <- math_log10 h x ;; Ok (VFloat r).

Definition _log (x base : value) : result value :=
  x <- to_float x ;;
  base <- to_float base ;;
  if (x <=? 0)%float || (base <=? 0)%float || (base =? 1)%float
  then Err domain_error
  else r <- math_log_base h x base ;; Ok (VFloat r).

Definition _sqrt (x : value) : result value :=
  x <- to_float x ;;
  if (x <? 0)%float then Err complex_result
  else r <- math_sqrt x ;; Ok (VFloat r).

(** [_root]: [x ** (1 / n)], through the operators of the language. *)
Definition _root (x n : value) : result value :=
  x <- to_float x ;;
  n <- to_int n ;;
  if n <=? 0 then Err invalid_root
  else if (x <? 0)%float then
    if n mod 2 =? 0 then Err complex_result
    else
      inv <- int_binop h Div 1 n ;;
      p <- binary h Pow (VFloat (- x)) inv ;;
      unary Neg p
  else
    inv <- int_binop h Div 1 n ;;
    binary h Pow (VFloat x) inv.

Definition _fact (n : value) : result value :=
  n <- to_float n ;;
  if negb (is_integer n) then Err (ValueError factorial_needs_integer)
  else
    n <- to_int (VFloat n) ;;
    if n <? 0 then Err domain_error
    else r <- math_factorial n ;; Ok (VInt r).

Definition _npr (n r : value) : result value :=
  n <- to_float n ;;
  r <- to_float r ;;
  if negb (is_integer n) || negb (is_integer r)
  then Err (ValueError npr_needs_integers)
  else
    n <- to_int (VFloat n) ;;
    r <- to_int (VFloat r) ;;
    if (n <? 0) || (r <? 0) || (n <? r) then Err domain_error
    else
      a <- math_factorial n ;;
      b <- math_factorial (n - r) ;;
      int_binop h FloorDiv a b.

Definition _ncr (n r : value) : result value :=
  n <- to_float n ;;
  r <- to_float r ;;
  if negb (is_integer n) || negb (is_integer r)
  then Err (ValueError ncr_needs_integers)
  else
    n <- to_int (VFloat n) ;;
    r <- to_int (VFloat r) ;;
    if (n <? 0) || (r <? 0) || (n <? r) then Err domain_error
    else c <- math_comb n r ;; Ok (VInt c).

(** A call of a bound method of the instance with positional arguments;
    a wrong number of arguments is a TypeError.  [set_angle_mode] asks its
    argument for [upper], which only a string has. *)
Definition call_method (m : method) (args : list value) (st : calc)
  : outcome value :=
  match m, args with
  | M_init, [] => Return VNone (__init__ (VStr (py "DEG")))
  | M_init, [mode] => Return VNone (__init__ mode)
  | M_set_angle_mode, [VStr mode] => set_angle_mode mode st
  | M_set_angle_mode, [_] => Raise OtherError st
  | M_clear_history, [] => clear_history st
  | M_sin, [x] => lift (_sin st x) st
  | M_cos, [x] => lift (_cos st x) st
  | M_tan, [x] => lift (_tan st x) st
  | M_ln, [x] => lift (_ln x) st
  | M_log10, [x] => lift (_log10 x) st
  | M_log, [x] => lift (_log x (VInt 10)) st
  | M_log, [x; base] => lift (_log x base) st
  | M_sqrt, [x] => lift (_sqrt x) st
  | M_root, [x] => lift (_root x (VInt 2)) st
  | M_root, [x; n] => lift (_root x n) st
  | M_fact, [n] => lift (_fact n) st
  | M_npr, [n; r] => lift (_npr n r) st
  | M_ncr, [n; r] => lift (_ncr n r) st
  | _, _ => Raise TypeError st
  end.

(** [safe_env], the globals [eval] runs the expression in. *)
Definition safe_env : list (string * value) :=
  [("__builtins__", VNone);
   ("pi", VFloat math_pi);
   ("e", VFloat math_e);
   ("abs", VBuiltin BAbs);
   ("round", VBuiltin BRound);
   ("pow", VBuiltin BPow);
   ("sin", VMethod M_sin);
   ("cos", VMethod M_cos);
   ("tan", VMethod M_tan);
   ("ln", VMethod M_ln);
   ("log", VMethod M_log);
   ("log10", VMethod M_log10);
   ("sqrt", VMethod M_sqrt);
   ("root", VMethod M_root);
   ("fact", VMethod M_fact);
   ("nPr", VMethod M_npr);
   ("nCr", VMethod M_ncr);
   ("exp", VBuiltin BExp)]%string.

Fixpoint lookup (name : pystr) (env : list (string * value)) : option value :=
  match env with
  | [] => None
  | (k, v) :: env' => if PyStr.eqb name (py k) then Some v else lookup name env'
  end.

(** The attributes the embedding resolves: a bound method's [__self__],
    the instance's [angle_mode] and its methods, and the class of a
    number.  Every other attribute access is outside the embedding. *)
Definition instance_methods : list (string * method) :=
  [("__init__", M_init); ("set_angle_mode", M_set_angle_mode);
   ("clear_history", M_clear_history);
   ("_sin", M_sin); ("_cos", M_cos); ("_tan", M_tan); ("_ln", M_ln);
   ("_log10", M_log10); ("_log", M_log); ("_sqrt", M_sqrt);
   ("_root", M_root); ("_fact", M_fact); ("_npr", M_npr);
   ("_ncr", M_ncr)]%string.

Fixpoint find_method (name : pystr) (l : list (string * method))
  : option method :=
  match l with
  | [] => None
  | (k, m) :: l' => if PyStr.eqb name (py k) then Some m else find_method name l'
  end.

Definition getattr (v : value) (name : pystr) (st : calc) : outcome value :=
  match v with
  | VMethod _ =>
      if PyStr.eqb name (py "__self__") then Return VSelf st else Beyond
  | VSelf =>
      if PyStr.eqb name (py "angle_mode") then Return (angle_mode st) st
      else match find_method name instance_methods with
           | Some m => Return (VMethod m) st
           | None => Beyond
           end
  | VInt _ =>
      if PyStr.eqb name (py "__class__") then Return (VClass ClassInt) st
      else Beyond
  | VFloat _ =>
      if PyStr.eqb name (py "__class__") then Return (VClass ClassFloat) st
      else Beyond
  | _ => Beyond
  end.

(** A call [f(args)]: the built-in functions and the bound methods run;
    calling a class constructs an object, which is not embedded; nothing
    else among the values is callable. *)
Definition call (f : value) (args : list value) (st : calc) : outcome value :=
  match f with
  | VBuiltin b => lift (call_builtin h b args) st
  | VMethod m => call_method m args st
  | VClass _ => Beyond
  | _ => Raise TypeError st
  end.

(** The evaluation of a syntax tree: operands from left to right, the
    callee before its arguments.  A name that [safe_env] does not bind is
    looked up in the builtins, which are [None]: a TypeError. *)
Fixpoint eval_expr (e : expr) (st : calc) {struct e} : outcome value :=
  match e with
  | EInt z => Return (VInt z) st
  | EFloat f => Return (VFloat f) st
  | EName n =>
      match lookup n safe_env with
      | Some v => Return v st
      | None => Raise TypeError st
      end
  | EBin op a b =>
      bind (eval_expr a st) (fun va st1 =>
      bind (eval_expr b st1) (fun vb st2 =>
      lift (binary h op va vb) st2))
  | EUn op a =>
      bind (eval_expr a st) (fun va st1 => lift (unary op va) st1)
  | ECall f args =>
      bind (eval_expr f st) (fun vf st1 =>
      bind ((fix eval_args (l : list expr) (st : calc)
               : outcome (list value) :=
               match l with
               | [] => Return [] st
               | x :: r =>
                   bind (eval_expr x st) (fun v st' =>
                   bind (eval_args r st') (fun vs st'' =>
                   Return (v :: vs) st''))
               end) args st1) (fun vs st2 =>
      call vf vs st2))
  | EAttr a name =>
      bind (eval_expr a st) (fun v st1 => getattr v name st1)
  | ETuple items =>
      bind ((fix eval_items (l : list expr) (st : calc)
               : outcome (list value) :=
               match l with
               | [] => Return [] st
               | x :: r =>
                   bind (eval_expr x st) (fun v st' =>
                   bind (eval_items r st') (fun vs st'' =>
                   Return (v :: vs) st''))
               end) items st) (fun vs st1 =>
      Return (VTuple vs) st1)
  end.

(** [eval(expr, safe_env, {})] *)
Definition py_eval (expr : pystr) (st : calc) : outcome value :=
  match parse expr with
  | Tree e => eval_expr e st
  | PyParse.SyntaxError => Raise SyntaxError st
  | Unparsed => Beyond
  end.

(** The [except] clauses of [evaluate], in their order. *)
Definition error_text (e : exn) : pystr :=
  match e with
  | ZeroDivisionError => py "Error: Division by Zero"
  | ValueError msg => msg
  | SyntaxError => py "Error: Invalid Expression"
  | TypeError => py "Error: Invalid Expression"
  | OtherError => py "Error: Invalid Expression"
  end.

Definition append_history (entry : pystr * value) (st : calc) : calc :=
  {| angle_mode := angle_mode st; history := history st ++ [entry] |}.

(** [evaluate]: the text shown and the instance afterwards, or [None] when
    the expression leaves the embedded part of Python.  The history entry
    is appended before the result is formatted, and an exception raised by
    the formatting is caught like any other. *)
Definition evaluate (expression : pystr) (st : calc) : option (pystr * calc) :=
  let expr := _preprocess expression in
  if PyStr.eqb expr [] then Some ([], st)
  else if PyStr.eqb expr invalid_marker
  then Some (py "Error: Invalid Characters", st)
  else
    match py_eval expr st with
    | Return result st1 =>
        let st2 := append_history (expression, result) st1 in
        match _format_result result with
        | Ok text => Some (text, st2)
        | Err e => Some (error_text e, st2)
        | Unmodelled => None
        end
    | Raise e st1 => Some (error_text e, st1)
    | Beyond => None
    end.

End WithHost.

End CalculatorLogic.

(** ** A sample host

    The values of one platform's C library (glibc, x86-64) at the points
    the examples below use, and NaN elsewhere; the upper-case mapping at a
    few code points; the default limit of CPython 3.11 on integer text.
    It instantiates the statements that are proved for every host. *)

Module Sample.

Import PyStr PyValue PyHost.

Definition tabulated (t : list (float * float)) (x : float) : float :=
  match find (fun p => (fst p =? x)%float) t with
  | Some p => snd p
  | None => nan
  end.

Definition tabulated2 (t : list (float * float * float)) (x y : float)
  : float :=
  match find (fun p => (fst (fst p) =? x)%float && (snd (fst p) =? y)%float) t
  with
  | Some p => snd p
  | None => nan
  end.

Definition sin_samples : list (float * float) :=
  [(0x1.0c152382d7365p-1, 0x1.fffffffffffffp-2);
   (0x1.921fb54442d11p+1, 0x1.d1a62633145c0p-49)]%float.

Definition cos_samples : list (float * float) :=
  [(0x1.0c152382d7365p+0, 0x1.0000000000001p-1)]%float.

Definition tan_samples : list (float * float) :=
  [(0x1.921fb54442d18p-1, 0x1.fffffffffffffp-1);
   (0x1.921fb54442b65p+0, 0x1.2d1fc18387ea1p+43)]%float.

Definition log_samples : list (float * float) :=
  [(100, 0x1.26bb1bbb55516p+2); (10, 0x1.26bb1bbb55516p+1);
   (8, 0x1.0a2b23f3bab73p+1); (2, 0x1.62e42fefa39efp-1);
   (0x1.5bf0a8b145769p+1, 1)]%float.

Definition log10_samples : list (float * float) := [(1000, 3)]%float.

Definition exp_samples : list (float * float) :=
  [(2, 0x1.d8e64b8d4ddaep+2)]%float.

Definition pow_samples : list (float * float * float) :=
  [(27, 0x1.5555555555555p-2, 3); (8, 0x1.5555555555555p-2, 2);
   (4, 0.5, 2); (2, 0.5, 0x1.6a09e667f3bcdp+0)]%float.

Definition upper_samples (c : N) : pystr :=
  match c with
  | 223%N => py "SS"
  | 233%N => [201%N]
  | 305%N => py "I"
  | 383%N => py "S"
  | _ => [c]
  end.

Definition sample_host : host :=
  {| libm_sin := tabulated sin_samples;
     libm_cos := tabulated cos_samples;
     libm_tan := tabulated tan_samples;
     libm_log := tabulated log_samples;
     libm_log10 := tabulated log10_samples;
     libm_exp := tabulated exp_samples;
     libm_pow := tabulated2 pow_samples;
     unicode_upper := upper_samples;
     self_repr := py "<calculator_logic.CalculatorLogic object at 0x7f3a5c1d2e90>";
     int_max_str_digits := 4300 |}.

End Sample.

Import PyStr PyFloat PyFormat PyLex PyParse PyValue PyHost PyOps.
Import CalculatorLogic Sample.

(** ** Vocabulary of the statements *)

(** The float that the literal [1.5707963267948] denotes: a little below
    [math.pi / 2]. *)
Definition below_half_pi : float := 0x1.921fb54442b65p+0%float.

(** The float that the literal [1.5707963267950966] denotes: as far
    above [math.pi / 2]. *)
Definition above_half_pi : float := 0x1.921fb5444309dp+0%float.




(** An [int] or a [float]. *)
Definition numeric (v : value) : bool :=
  match v with
  | VInt _ | VFloat _ => true
  | _ => false
  end.





(** What the three replacements of [_preprocess] do to one character. *)
Definition translate_char (c : N) : pystr :=
  if N.eqb c times_sign then py "*"
  else if N.eqb c division_sign then py "/"
  else if N.eqb c caret then py "**"
  else [c].

(** The characters of an input that [_preprocess] lets through: the
    whitelisted ones and the three it replaces. *)
Definition accepted_char (c : N) : bool :=
  allowed_char c || N.eqb c times_sign || N.eqb c division_sign
  || N.eqb c caret.

(** A text that does not start with a whitespace character. *)
Definition starts_solid (s : pystr) : Prop :=
  match s with
  | [] => True
  | c :: _ => isspace c = false
  end.

(** A whitelisted character that is no whitespace. *)
Definition solid_char (c : N) : Prop :=
  allowed_char c = true /\ isspace c = false.




(** Pascal's triangle. *)
Fixpoint binomial (n k : nat) : Z :=
  match n, k with
  | _, O => 1
  | O, S _ => 0
  | S n', S k' => binomial n' k' + binomial n' k
  end.

(** An ASCII identifier: a letter or an underscore, then letters, digits
    and underscores. *)
Definition identifier (name : pystr) : bool :=
  match name with
  | c :: _ => is_alpha c && forallb is_alnum name
  | [] => false
  end.




(** Horner's rule on decimal digits, as [digits_value] applies it. *)
Definition horner (acc : Z) (c : N) : Z := 10 * acc + Z.of_N (c - 48).

(** The text of a natural number: decimal digits, the first of which is
    a zero only when it is the only one. *)
Definition numeral (s : pystr) : Prop :=
  Forall digit_code s
  /\ match s with
     | [] => False
     | [_] => True
     | c :: _ => c <> zero_char
     end.

(** [q] is [n/d * 10^k] rounded to the nearest integer, a tie going to
    the even neighbour. *)
Definition nearest_even (n d k q : Z) : Prop :=
  if 0 <=? k
  then Z.abs (2 * (q * d - n * 10 ^ k)) <= d
       /\ (Z.abs (2 * (q * d - n * 10 ^ k)) = d -> Z.even q = true)
  else Z.abs (2 * (q * (d * 10 ^ (- k)) - n)) <= d * 10 ^ (- k)
       /\ (Z.abs (2 * (q * (d * 10 ^ (- k)) - n)) = d * 10 ^ (- k)
           -> Z.even q = true).

(** [ds] are decimal digits that denote [v]. *)
Definition decimal (ds : pystr) (v : Z) : Prop :=
  Forall digit_code ds /\ fold_left horner ds 0 = v.

(** [frac] is [rest] without its trailing zeros. *)
Definition trimmed (frac rest : pystr) : Prop :=
  (exists k : nat, rest = frac ++ repeat 48%N k)
  /\ (frac = [] \/ last frac 0%N <> 48%N).

(** The point and the fraction, when there is a fraction. *)
Definition fraction_text (frac : pystr) : pystr :=
  match frac with
  | [] => []
  | _ => 46%N :: frac
  end.

(** The text of [format(f, '.12g')] for a finite [f] that is not zero
    ([neg] its sign, [n/d] its magnitude), as the format specification
    of Python has it. *)
Definition general_notation (neg : bool) (n d : Z) (text : pystr) : Prop :=
  exists (x0 q0 q x : Z) (ds int rest frac expo : pystr),
    decade n d x0
    /\ nearest_even n d (11 - x0) q0
    /\ (q0 = 10 ^ 12 /\ q = 10 ^ 11 /\ x = x0 + 1
        \/ q0 < 10 ^ 12 /\ q = q0 /\ x = x0)
    /\ rounds_to 12 n d q x
    /\ List.length ds = 12%nat
    /\ decimal ds q
    /\ trimmed frac rest
    /\ text = (if neg then [45%N] else []) ++ int ++ fraction_text frac ++ expo
    /\ (if (-4 <=? x) && (x <? 12)
        then expo = []
             /\ (if 0 <=? x
                 then int ++ rest = ds
                      /\ List.length int = Z.to_nat (x + 1)
                 else int = [48%N]
                      /\ rest = repeat 48%N (Z.to_nat (- x - 1)) ++ ds)
        else int ++ rest = ds
             /\ List.length int = 1%nat
             /\ exists exd : pystr,
                  expo = 101%N :: (if x <? 0 then 45%N else 43%N) :: exd
                  /\ decimal exd (Z.abs x)
                  /\ (List.length exd = 2%nat
                      \/ (2 < List.length exd)%nat /\ hd 0%N exd <> 48%N)).

(** The numbers of positional arguments a value of [safe_env] can be
    called with, as the signatures say ([_log(self, x, base=10)],
    [_root(self, x, n=2)], [round(number, ndigits=None)],
    [pow(base, exp, mod=None)]); a number, [None], a string or a tuple
    cannot be called at all.  A class is left out. *)
Definition accepts (f : value) (n : nat) : bool :=
  match f with
  | VMethod (M_sin | M_cos | M_tan | M_ln | M_log10 | M_sqrt | M_fact) =>
      Nat.eqb n 1
  | VMethod (M_log | M_root) => Nat.eqb n 1 || Nat.eqb n 2
  | VMethod (M_npr | M_ncr) => Nat.eqb n 2
  | VMethod M_init => Nat.eqb n 0 || Nat.eqb n 1
  | VMethod M_set_angle_mode => Nat.eqb n 1
  | VMethod M_clear_history => Nat.eqb n 0
  | VBuiltin (BAbs | BExp) => Nat.eqb n 1
  | VBuiltin BRound => Nat.eqb n 1 || Nat.eqb n 2
  | VBuiltin BPow => Nat.eqb n 2 || Nat.eqb n 3
  | VClass _ => true
  | _ => false
  end.

(** ** [class CalculatorGUI] of [gui.py]: the handlers *)

Module CalculatorGUI.

(** What the handlers read and write: the evaluator [self.logic], the
    text of the entry ([self.expr_var]) and the label of the mode button
    ([self.mode_btn]).  The widgets, their layout and the event loop are
    not embedded. *)
Record gui := mk_gui {
  logic : calc;
  expr_var : pystr;
  mode_btn : pystr
}.

(** [CalculatorGUI(root)] *)
Definition __init__ : gui :=
  {| logic := PyValue.__init__ (VStr (py "DEG"));
     expr_var := [];
     mode_btn := py "Mode: DEG" |}.

(** The label of the backspace button, U+232B. *)
Definition backspace_sign : pystr := [9003%N].

(** The labels of the button grid, row by row; the empty label stands for
    no button. *)
Definition buttons : list (list pystr) :=
  [[py "C"; backspace_sign; py "("; py ")"];
   [py "sin"; py "cos"; py "tan"; py "^"];
   [py "ln"; py "log"; py "sqrt"; py "root"];
   [py "fact"; py "nPr"; py "nCr"; py "exp"];
   [py "pi"; py "e"; py "%"; py "/"];
   [py "7"; py "8"; py "9"; py "*"];
   [py "4"; py "5"; py "6"; py "-"];
   [py "1"; py "2"; py "3"; py "+"];
   [py "0"; py "."; py "="; []]].

(** [append_text] *)
Definition append_text (value : pystr) (g : gui) : gui :=
  {| logic := logic g; expr_var := expr_var g ++ value;
     mode_btn := mode_btn g |}.

(** [clear] *)
Definition clear (g : gui) : gui :=
  {| logic := logic g; expr_var := []; mode_btn := mode_btn g |}.

(** [backspace]: [current[:-1]] *)
Definition backspace (g : gui) : gui :=
  {| logic := logic g; expr_var := removelast (expr_var g);
     mode_btn := mode_btn g |}.

Section WithHost.

Variable h : host.

(** [calculate]; [None] when the expression leaves the embedded part of
    Python. *)
Definition calculate (g : gui) : option gui :=
  match evaluate h (expr_var g) (logic g) with
  | Some (result, st) =>
      Some {| logic := st; expr_var := result; mode_btn := mode_btn g |}
  | None => None
  end.

(** [toggle_mode]: an exception of [set_angle_mode] leaves the handler
    before the label is changed. *)
Definition toggle_mode (g : gui) : gui :=
  if is_str (angle_mode (logic g)) "DEG" then
    match set_angle_mode h (py "RAD") (logic g) with
    | Return _ st =>
        {| logic := st; expr_var := expr_var g; mode_btn := py "Mode: RAD" |}
    | Raise _ st =>
        {| logic := st; expr_var := expr_var g; mode_btn := mode_btn g |}
    | Beyond => g
    end
  else
    match set_angle_mode h (py "DEG") (logic g) with
    | Return _ st =>
        {| logic := st; expr_var := expr_var g; mode_btn := py "Mode: DEG" |}
    | Raise _ st =>
        {| logic := st; expr_var := expr_var g; mode_btn := mode_btn g |}
    | Beyond => g
    end.

(** The labels that [on_button_click] completes with an opening
    parenthesis. *)
Definition function_buttons : list pystr :=
  map py ["sin"; "cos"; "tan"; "ln"; "log"; "sqrt"; "fact"; "nPr"; "nCr";
          "exp"]%string.

(** [on_button_click] *)
Definition on_button_click (text : pystr) (g : gui) : option gui :=
  if PyStr.eqb text (py "C") then Some (clear g)
  else if PyStr.eqb text backspace_sign then Some (backspace g)
  else if PyStr.eqb text (py "=") then calculate g
  else if existsb (PyStr.eqb text) function_buttons
       then Some (append_text (text ++ py "(") g)
  else if PyStr.eqb text (py "root") then Some (append_text (py "root(") g)
  else if PyStr.eqb text (py "pi") then Some (append_text (py "pi") g)
  else if PyStr.eqb text (py "e") then Some (append_text (py "e") g)
  else Some (append_text text g).

End WithHost.

End CalculatorGUI.

(** A button that types: every button of the grid but [C], the backspace
    and [=]. *)
Definition typing_button (text : pystr) : bool :=
  existsb (PyStr.eqb text) (List.concat CalculatorGUI.buttons)
  && negb (PyStr.eqb text [])
  && negb (PyStr.eqb text (py "C"))
  && negb (PyStr.eqb text CalculatorGUI.backspace_sign)
  && negb (PyStr.eqb text (py "=")).

(** What a typing button adds to the entry. *)
Definition typed (text : pystr) : pystr :=
  if existsb (PyStr.eqb text) CalculatorGUI.function_buttons
     || PyStr.eqb text (py "root")
  then text ++ py "("
  else text.

(** A series of clicks. *)
Fixpoint click_all (h : host) (texts : list pystr) (g : CalculatorGUI.gui)
  : option CalculatorGUI.gui :=
  match texts with
  | [] => Some g
  | t :: rest =>
      match CalculatorGUI.on_button_click h t g with
      | Some g' => click_all h rest g'
      | None => None
      end
  end.

(** What the grid can type: accepted characters, and no underscore. *)
Definition typeable_char (c : N) : bool :=
  accepted_char c && negb (N.eqb c 95).

(** * Properties *)

(** ** The expectations of [test_logic.py], on the sample host *)

Example test_logic_arithmetic :
  evaluate sample_host (py "2+3*5") new_calc
  = Some (py "17", append_history (py "2+3*5", VInt 17) new_calc).
Proof. vm_compute. reflexivity. Qed.

Example test_logic_sqrt :
  option_map fst (evaluate sample_host (py "sqrt(64)") new_calc) = Some (py "8").
Proof. vm_compute. reflexivity. Qed.

Example test_logic_sin :
  option_map fst (evaluate sample_host (py "sin(30)") new_calc) = Some (py "0.5").
Proof. vm_compute. reflexivity. Qed.

Example test_logic_log :
  option_map fst (evaluate sample_host (py "log(100)") new_calc) = Some (py "2")
  /\ option_map fst (evaluate sample_host (py "log(8,2)") new_calc) = Some (py "3")
  /\ option_map fst (evaluate sample_host (py "ln(e)") new_calc) = Some (py "1").
Proof. vm_compute. repeat split; reflexivity. Qed.

Example test_logic_errors :
  evaluate sample_host (py "1/0") new_calc
  = Some (py "Error: Division by Zero", new_calc)
  /\ evaluate sample_host (py "tan(90)") new_calc
     = Some (py "Domain Error", new_calc).
Proof. vm_compute. split; reflexivity. Qed.

Example test_logic_combinatorics :
  option_map fst (evaluate sample_host (py "fact(5)") new_calc) = Some (py "120")
  /\ option_map fst (evaluate sample_host (py "nPr(5,2)") new_calc) = Some (py "20")
  /\ option_map fst (evaluate sample_host (py "nCr(5,2)") new_calc) = Some (py "10")
  /\ option_map fst (evaluate sample_host (py "exp(2)") new_calc)
     = Some (py "7.38905609893").
Proof. vm_compute. repeat split; reflexivity. Qed.

(** ** The sanitizer's replacements *)

Lemma strip_prefix_char (c x : N) (s : pystr) :
  strip_prefix [c] (x :: s) = if N.eqb c x then Some s else None.
Proof. simpl. destruct (N.eqb c x); reflexivity. Qed.

Lemma replace_aux_char (c : N) (new : pystr) :
  forall (fuel : nat) (s : pystr),
    (List.length s <= fuel)%nat ->
    replace_aux fuel [c] new s
    = flat_map (fun x => if N.eqb c x then new else [x]) s.
Proof.
  induction fuel as [|fuel IH]; intros s Hlen.
  - destruct s; [reflexivity | simpl in Hlen; lia].
  - destruct s as [|x s]; [reflexivity|].
    cbn [replace_aux]. rewrite strip_prefix_char.
    simpl in Hlen. cbn [flat_map].
    destruct (N.eqb c x); rewrite IH by lia; reflexivity.
Qed.

(** Replacing a single character rewrites the text character by
    character. *)
Lemma replace_char (c : N) (new s : pystr) :
  replace [c] new s = flat_map (fun x => if N.eqb c x then new else [x]) s.
Proof. unfold replace. apply replace_aux_char. lia. Qed.

Lemma replace_char_absent (c : N) (new s : pystr) :
  ~ In c new -> ~ In c (replace [c] new s).
Proof.
  intros Hnew. rewrite replace_char. intros Hin.
  apply in_flat_map in Hin. destruct Hin as [x [_ Hx]].
  destruct (N.eqb c x) eqn:E.
  - auto.
  - destruct Hx as [Hx | []]. subst x. rewrite N.eqb_refl in E. discriminate.
Qed.

(** C9. The sanitizer turns every caret into the power operator [**]
    (character by character, leaving no caret behind); the power operator
    groups to the right and binds tighter than a minus sign on its left;
    [evaluate("2^8")] is ["256"], [evaluate("2^3^2")] is ["512"], that is
    [2^(3^2)], and [evaluate("-2^2")] is ["-4"]. *)
Theorem caret_is_right_associative_power :
  (forall s : pystr,
      replace [caret] (py "**") s
      = flat_map (fun c => if N.eqb caret c then py "**" else [c]) s)
  /\ (forall s : pystr, ~ In caret (replace [caret] (py "**") s))
  /\ (forall a b c : Z,
         parse_tokens [TInt a; TPow; TInt b; TPow; TInt c]
         = Tree (EBin Pow (EInt a) (EBin Pow (EInt b) (EInt c))))
  /\ (forall a b : Z,
         parse_tokens [TMinus; TInt a; TPow; TInt b]
         = Tree (EUn Neg (EBin Pow (EInt a) (EInt b))))
  /\ (forall (h : host) (st : calc),
         evaluate h (py "2^8") st
         = Some (py "256", append_history (py "2^8", VInt 256) st))
  /\ (forall (h : host) (st : calc),
         evaluate h (py "2^3^2") st
         = Some (py "512", append_history (py "2^3^2", VInt 512) st))
  /\ (forall (h : host) (st : calc),
         evaluate h (py "-2^2") st
         = Some (py "-4", append_history (py "-2^2", VInt (-4)) st)).
Proof.
  split; [intros s; apply replace_char|].
  split.
  { intros s. apply replace_char_absent. vm_compute.
    intros [H | [H | []]]; discriminate. }
  split; [intros a b c; reflexivity|].
  split; [intros a b; reflexivity|].
  split; [intros h st; vm_compute; reflexivity|].
  split; intros h st; vm_compute; reflexivity.
Qed.

(** ** The formatter *)

Lemma py_cons (a : ascii) (s : string) : py (String a s) = N_of_ascii a :: py s.
Proof. reflexivity. Qed.

Lemma uint_text_digits (d : Decimal.uint) :
  Forall digit_code (py (NilEmpty.string_of_uint d)).
Proof.
  induction d; cbn [NilEmpty.string_of_uint];
    [constructor | rewrite py_cons; constructor;
                   [unfold digit_code; cbn; lia | assumption] ..].
Qed.

Lemma uint_text_digits_zero (d : Decimal.uint) :
  Forall digit_code (py (NilZero.string_of_uint d)).
Proof.
  destruct d; try apply (uint_text_digits (_ _)).
  cbn. constructor; [unfold digit_code; lia | constructor].
Qed.

(** The text of an [int] is made of digits, after a minus sign when the
    number is negative. *)
Lemma str_of_int_chars (z : Z) :
  Forall (fun c => c = 45%N \/ digit_code c) (str_of_int z).
Proof.
  unfold str_of_int.
  assert (Hd : forall d, Forall (fun c => c = 45%N \/ digit_code c)
                                (py (NilZero.string_of_uint d))).
  { intros d. eapply Forall_impl; [|apply uint_text_digits_zero]. auto. }
  destruct (Z.to_int z) as [d|d]; cbn [NilZero.string_of_int].
  - apply Hd.
  - rewrite py_cons. constructor; [left; reflexivity | apply Hd].
Qed.

Lemma str_of_int_no_point (z : Z) : ~ In point_char (str_of_int z).
Proof.
  intros Hin. pose proof (str_of_int_chars z) as H.
  rewrite Forall_forall in H. apply H in Hin.
  unfold point_char, digit_code in Hin. lia.
Qed.

(** Reading the text of an [int] back gives the same number. *)
Lemma str_of_int_exact (z : Z) :
  exists s : string,
    str_of_int z = py s
    /\ option_map Z.of_int (NilZero.int_of_string s) = Some z.
Proof.
  exists (NilZero.string_of_int (Z.to_int z)). split; [reflexivity|].
  rewrite NilZero.isi.
  - cbn. f_equal. apply DecimalZ.of_to.
  - destruct z; cbn; intros [= E]; try discriminate;
      exact (DecimalPos.Unsigned.to_uint_nonnil _ E).
  - destruct z; cbn; intros [= E]; try discriminate;
      exact (DecimalPos.Unsigned.to_uint_nonnil _ E).
Qed.

Lemma is_integer_to_Z (f : float) :
  is_integer f = true -> exists z, to_Z f = IntOf z.
Proof.
  unfold is_integer, to_Z. destruct (Prim2SF f); intros H; try discriminate; eauto.
Qed.

(** The integer [int(f)] of a whole-valued float is the float's exact
    value [(-1)^s * m * 2^e]. *)
Lemma to_Z_exact (f : float) (z : Z) (s : bool) (m : positive) (e : Z) :
  is_integer f = true -> to_Z f = IntOf z -> Prim2SF f = S754_finite s m e ->
  Z.abs z * 2 ^ Z.max 0 (- e) = Zpos m * 2 ^ Z.max 0 e
  /\ (z < 0 <-> s = true).
Proof.
  unfold is_integer, to_Z. intros Hi Hz Hf. rewrite Hf in Hi, Hz.
  injection Hz as Hz. unfold magnitude_trunc in Hz.
  destruct (Z.leb_spec 0 e) as [He|He].
  - rewrite (Z.max_l 0 (- e)) by lia. rewrite (Z.max_r 0 e) by lia.
    assert (Hp : 0 < Zpos m * 2 ^ e).
    { apply Z.mul_pos_pos; [lia | apply Z.pow_pos_nonneg; lia]. }
    rewrite Z.pow_0_r.
    destruct s; subst z; (split; [lia | split; [auto; lia | intros; try discriminate; lia]]).
  - cbn [orb] in Hi. apply Z.eqb_eq in Hi.
    rewrite (Z.max_r 0 (- e)) by lia. rewrite (Z.max_l 0 e) by lia.
    assert (Hq : 0 < 2 ^ (- e)) by (apply Z.pow_pos_nonneg; lia).
    pose proof (Z.div_mod (Zpos m) (2 ^ (- e)) ltac:(lia)) as Hdm.
    rewrite Hi in Hdm. rewrite Z.pow_0_r.
    assert (Hpos : 0 < Zpos m / 2 ^ (- e)).
    { apply Z.div_str_pos. split; [lia|].
      apply Z.divide_pos_le; [lia|]. apply Z.mod_divide; lia. }
    destruct s; subst z; (split; [nia | split; [auto; lia | intros; try discriminate; lia]]).
Qed.

Lemma drop_zeros_head (s : pystr) :
  match drop_zeros s with
  | [] => True
  | c :: _ => c <> zero_char
  end.
Proof.
  induction s as [|c s IH]; cbn [drop_zeros]; [exact I|].
  destruct (N.eqb_spec c zero_char); [exact IH | assumption].
Qed.

(** What [strip_zeros] keeps does not end in a zero. *)
Lemma strip_zeros_last (frac body : pystr) (c : N) :
  strip_zeros frac = body ++ [c] -> c <> zero_char.
Proof.
  unfold strip_zeros. intros H.
  apply (f_equal (@rev N)) in H. rewrite rev_involutive, rev_app_distr in H.
  cbn in H. pose proof (drop_zeros_head (rev frac)) as Hh.
  rewrite H in Hh. exact Hh.
Qed.

(** ** Twelve significant digits

    [significand] rounds correctly: the digits it returns are the value
    rounded to [p] significant digits, to the nearest, ties to even. *)

Lemma count_digits_spec :
  forall (fuel : nat) (n : Z),
    0 < n -> n < 2 ^ Z.of_nat fuel ->
    0 < count_digits fuel n
    /\ 10 ^ (count_digits fuel n - 1) <= n < 10 ^ count_digits fuel n.
Proof.
  induction fuel as [|fuel IH]; intros n Hn Hlt.
  - cbn in Hlt. lia.
  - cbn [count_digits]. destruct (Z.ltb_spec n 10) as [H10|H10].
    + cbn. lia.
    + assert (Hq : 0 < n / 10) by (apply Z.div_str_pos; lia).
      assert (Hq2 : n / 10 < 2 ^ Z.of_nat fuel).
      { rewrite Nat2Z.inj_succ, Z.pow_succ_r in Hlt by lia.
        apply Z.div_lt_upper_bound; lia. }
      destruct (IH (n / 10) Hq Hq2) as [Hc [Hlo Hhi]].
      set (c := count_digits fuel (n / 10)) in *.
      pose proof (Z.mul_div_le n 10 ltac:(lia)) as Hle.
      pose proof (Z.mod_pos_bound n 10 ltac:(lia)) as Hmod.
      pose proof (Z.div_mod n 10 ltac:(lia)) as Hdm.
      replace (1 + c - 1) with (Z.succ (c - 1)) by lia.
      replace (1 + c) with (Z.succ c) by lia.
      rewrite !Z.pow_succ_r by lia. lia.
Qed.

Lemma scale_up_spec :
  forall (fuel : nat) (n d t0 : Z),
    0 < n -> 0 < d -> d <= n * 10 ^ Z.of_nat fuel ->
    let t := scale_up fuel n d t0 in
    t0 <= t /\ d <= n * 10 ^ (t - t0)
    /\ (t = t0 \/ n * 10 ^ (t - t0 - 1) < d).
Proof.
  induction fuel as [|fuel IH]; intros n d t0 Hn Hd Hle; cbn [scale_up].
  - cbn in Hle. rewrite Z.sub_diag. cbn. lia.
  - destruct (Z.leb_spec d n) as [H|H].
    + rewrite Z.sub_diag. cbn. lia.
    + rewrite Nat2Z.inj_succ, Z.pow_succ_r in Hle by lia.
      destruct (IH (10 * n) d (t0 + 1) ltac:(lia) Hd ltac:(lia)) as [H1 [H2 H3]].
      set (t := scale_up fuel (10 * n) d (t0 + 1)) in *.
      cbv zeta. split; [lia|]. split.
      * replace (t - t0) with (Z.succ (t - (t0 + 1))) by lia.
        rewrite Z.pow_succ_r by lia. lia.
      * right. destruct H3 as [H3|H3].
        -- rewrite H3. replace (t0 + 1 - t0 - 1) with 0 by lia. cbn. lia.
        -- destruct (Z.eq_dec t (t0 + 1)) as [E|E].
           ++ rewrite E. replace (t0 + 1 - t0 - 1) with 0 by lia. cbn. lia.
           ++ replace (t - t0 - 1) with (Z.succ (t - (t0 + 1) - 1)) by lia.
              rewrite Z.pow_succ_r by lia. lia.
Qed.

Lemma dec_exponent_spec (n d : Z) :
  0 < n -> 0 < d -> decade n d (dec_exponent n d).
Proof.
  intros Hn Hd. unfold dec_exponent, decade.
  destruct (Z.leb_spec d n) as [H|H].
  - assert (Hq : 0 < n / d) by (apply Z.div_str_pos; lia).
    destruct (count_digits_spec (S (Z.to_nat (Z.log2 (n / d)))) (n / d) Hq)
      as [Hc [Hlo Hhi]].
    { rewrite Nat2Z.inj_succ, Z2Nat.id by apply Z.log2_nonneg.
      apply Z.log2_spec. exact Hq. }
    set (c := count_digits _ _) in *.
    destruct (Z.leb_spec 0 (c - 1)); [|lia].
    replace (c - 1 + 1) with c by lia.
    pose proof (Z.mul_div_le n d Hd). pose proof (Z.mod_pos_bound n d Hd).
    pose proof (Z.div_mod n d ltac:(lia)).
    split; nia.
  - destruct (scale_up_spec (S (Z.to_nat (Z.log2 d))) n d 0 Hn Hd) as [H1 [H2 H3]].
    { rewrite Nat2Z.inj_succ, Z2Nat.id by apply Z.log2_nonneg.
      pose proof (Z.log2_spec d Hd) as [_ Hl].
      assert (2 ^ Z.succ (Z.log2 d) <= 10 ^ Z.succ (Z.log2 d)).
      { apply Z.pow_le_mono_l. lia. }
      nia. }
    set (t := scale_up _ _ _ _) in *.
    rewrite Z.sub_0_r in *.
    destruct H3 as [H3|H3].
    { rewrite H3 in H2. cbn in H2. lia. }
    assert (0 < t) by (destruct (Z.eq_dec t 0) as [E|E]; [rewrite E in H2; cbn in H2|]; lia).
    destruct (Z.leb_spec 0 (- t)); [lia|].
    rewrite Z.opp_involutive. split; [exact H2|].
    replace t with (Z.succ (t - 1)) at 1 by lia.
    rewrite Z.pow_succ_r by lia. lia.
Qed.

Lemma round_half_even_spec (num den : Z) :
  0 < den -> 0 <= num ->
  let r := round_half_even num den in
  num / den <= r <= num / den + 1 /\ Z.abs (2 * (r * den - num)) <= den.
Proof.
  intros Hd Hn. unfold round_half_even.
  pose proof (Z.div_mod num den ltac:(lia)) as Hdm.
  pose proof (Z.mod_pos_bound num den Hd) as Hm.
  destruct (Z.compare_spec (2 * (num mod den)) den) as [E|E|E].
  - destruct (Z.even (num / den)); cbv zeta; split; nia.
  - cbv zeta; split; nia.
  - cbv zeta; split; nia.
Qed.

Lemma pow10_pos (k : Z) : 0 <= k -> 0 < 10 ^ k.
Proof. intros. apply Z.pow_pos_nonneg; lia. Qed.

Lemma pow10_succ (k : Z) : 0 <= k -> 10 ^ (k + 1) = 10 * 10 ^ k.
Proof. intros. rewrite Z.pow_add_r, Z.pow_1_r by lia. lia. Qed.

Lemma scaled_bounds (p n d : Z) :
  1 <= p -> 0 < n -> 0 < d ->
  let e := dec_exponent n d in
  let k := p - 1 - e in
  let num := if 0 <=? k then n * 10 ^ k else n in
  let den := if 0 <=? k then d else d * 10 ^ (- k) in
  0 < den /\ 10 ^ (p - 1) * den <= num < 10 ^ p * den.
Proof.
  intros Hp Hn Hd e k num den.
  pose proof (dec_exponent_spec n d Hn Hd) as He. fold e in He.
  unfold decade in He. subst num den.
  assert (HA : 0 < 10 ^ (p - 1)) by (apply pow10_pos; lia).
  assert (Hpp : 10 ^ p = 10 * 10 ^ (p - 1)).
  { replace p with ((p - 1) + 1) at 1 by lia. apply pow10_succ. lia. }
  destruct (Z.leb_spec 0 k) as [Hk|Hk].
  - split; [exact Hd|].
    destruct (Z.leb_spec 0 e) as [He0|He0].
    + assert (HK : 0 < 10 ^ k) by (apply pow10_pos; lia).
      assert (E1 : 10 ^ (p - 1) = 10 ^ e * 10 ^ k).
      { rewrite <- Z.pow_add_r by lia. f_equal; lia. }
      rewrite (pow10_succ e He0) in He. rewrite Hpp, E1. nia.
    + assert (HE : 0 < 10 ^ (- e)) by (apply pow10_pos; lia).
      assert (E1 : 10 ^ k = 10 ^ (p - 1) * 10 ^ (- e)).
      { rewrite <- Z.pow_add_r by lia. f_equal; lia. }
      rewrite Hpp, E1. nia.
  - assert (HK : 0 < 10 ^ (- k)) by (apply pow10_pos; lia).
    split; [nia|].
    destruct (Z.leb_spec 0 e) as [He0|He0]; [|lia].
    assert (E1 : 10 ^ e = 10 ^ (p - 1) * 10 ^ (- k)).
    { rewrite <- Z.pow_add_r by lia. f_equal; lia. }
    rewrite (pow10_succ e He0), E1 in He. rewrite Hpp. nia.
Qed.

Lemma significand_spec (p n d : Z) :
  1 <= p -> 0 < n -> 0 < d ->
  rounds_to p n d (fst (significand p n d)) (snd (significand p n d)).
Proof.
  intros Hp Hn Hd.
  pose proof (scaled_bounds p n d Hp Hn Hd) as Hb. cbv zeta in Hb.
  unfold significand.
  set (e := dec_exponent n d) in *. set (k := p - 1 - e) in *.
  assert (HA : 0 < 10 ^ (p - 1)) by (apply pow10_pos; lia).
  assert (Hpp : 10 ^ p = 10 * 10 ^ (p - 1)).
  { replace p with ((p - 1) + 1) at 1 by lia. apply pow10_succ. lia. }
  destruct (Z.leb_spec 0 k) as [Hk|Hk].
  - destruct Hb as [_ Hb].
    assert (HK : 0 < 10 ^ k) by (apply pow10_pos; lia).
    destruct (round_half_even_spec (n * 10 ^ k) d Hd ltac:(nia)) as [Hr Hn'].
    set (r := round_half_even (n * 10 ^ k) d) in *.
    assert (Hq : 10 ^ (p - 1) <= (n * 10 ^ k) / d < 10 ^ p).
    { split; [apply Z.div_le_lower_bound | apply Z.div_lt_upper_bound]; lia. }
    destruct (Z.eqb_spec r (10 ^ p)) as [E|E]; cbn [fst snd]; unfold rounds_to.
    + split; [lia|].
      destruct (Z.leb_spec 0 (p - 1 - (e + 1))) as [Hk'|Hk'].
      * assert (E2 : 10 ^ k = 10 * 10 ^ (p - 1 - (e + 1))).
        { replace k with ((p - 1 - (e + 1)) + 1) by (unfold k; lia).
          apply pow10_succ. lia. }
        rewrite E, E2 in Hn'. nia.
      * assert (k = 0) by (unfold k in *; lia).
        replace (e + 1 - (p - 1)) with 1 by (unfold k in *; lia).
        rewrite Z.pow_1_r. replace (10 ^ k) with 1 in Hn' by (rewrite H; reflexivity).
        rewrite E in Hn'. nia.
    + split; [lia|]. fold k.
      destruct (Z.leb_spec 0 k); [exact Hn' | lia].
  - destruct Hb as [Hden Hb].
    assert (HK : 0 < 10 ^ (- k)) by (apply pow10_pos; lia).
    destruct (round_half_even_spec n (d * 10 ^ (- k)) Hden ltac:(lia)) as [Hr Hn'].
    set (r := round_half_even n (d * 10 ^ (- k))) in *.
    assert (Hq : 10 ^ (p - 1) <= n / (d * 10 ^ (- k)) < 10 ^ p).
    { split; [apply Z.div_le_lower_bound | apply Z.div_lt_upper_bound]; lia. }
    destruct (Z.eqb_spec r (10 ^ p)) as [E|E]; cbn [fst snd]; unfold rounds_to.
    + split; [lia|].
      destruct (Z.leb_spec 0 (p - 1 - (e + 1))) as [Hk'|Hk']; [unfold k in *; lia|].
      assert (E2 : 10 ^ (e + 1 - (p - 1)) = 10 * 10 ^ (- k)).
      { replace (e + 1 - (p - 1)) with (- k + 1) by (unfold k; lia).
        apply pow10_succ. lia. }
      rewrite E2. rewrite E in Hn'. nia.
    + split; [lia|]. fold k.
      destruct (Z.leb_spec 0 k); [lia|].
      replace (e - (p - 1)) with (- k) by (unfold k; lia). exact Hn'.
Qed.

Lemma digits_of_length (k : nat) :
  forall (n : Z) (acc : pystr),
    List.length (digits_of k n acc) = (k + List.length acc)%nat.
Proof.
  induction k as [|k IH]; intros n acc; cbn [digits_of]; [reflexivity|].
  rewrite IH. cbn [List.length]. lia.
Qed.

Lemma digits_of_value (k : nat) :
  forall (n : Z) (acc : pystr) (v : Z),
    0 <= n ->
    fold_left (fun a c => 10 * a + Z.of_N (c - 48)) (digits_of k n acc) v
    = fold_left (fun a c => 10 * a + Z.of_N (c - 48)) acc
                (v * 10 ^ Z.of_nat k + n mod 10 ^ Z.of_nat k).
Proof.
  induction k as [|k IH]; intros n acc v Hn; cbn [digits_of].
  - cbn [Z.of_nat]. rewrite Z.pow_0_r, Z.mod_1_r. f_equal. lia.
  - rewrite IH by (apply Z.div_pos; lia). cbn [fold_left]. f_equal.
    assert (Hd : Z.of_N (digit (n mod 10) - 48) = n mod 10).
    { unfold digit. pose proof (Z.mod_pos_bound n 10 ltac:(lia)). lia. }
    rewrite Hd, Nat2Z.inj_succ, Z.pow_succ_r by lia.
    assert (Hp : 0 < 10 ^ Z.of_nat k) by (apply Z.pow_pos_nonneg; lia).
    rewrite (Z.rem_mul_r n 10 (10 ^ Z.of_nat k)) by lia. lia.
Qed.

(** The [k] digits of a number below [10^k] denote that number. *)
Lemma digits_of_denote (k : nat) (q : Z) :
  0 <= q < 10 ^ Z.of_nat k -> digits_value (digits_of k q []) = q.
Proof.
  intros Hq. unfold digits_value. rewrite digits_of_value by lia.
  cbn [fold_left]. rewrite Z.mod_small by lia. lia.
Qed.

Lemma fraction_of_pos (m : positive) (e : Z) :
  0 < fst (fraction_of m e) /\ 0 < snd (fraction_of m e).
Proof.
  unfold fraction_of. destruct (Z.leb_spec 0 e); cbn [fst snd].
  - split; [|lia]. apply Z.mul_pos_pos; [lia | apply Z.pow_pos_nonneg; lia].
  - split; [lia | apply Z.pow_pos_nonneg; lia].
Qed.

(** *** The interpreter's limit on integer text *)

Lemma digit_count_spec (z : Z) :
  z <> 0 ->
  0 < digit_count z
  /\ 10 ^ (digit_count z - 1) <= Z.abs z < 10 ^ digit_count z.
Proof.
  intros Hz. unfold digit_count.
  destruct (Z.eqb_spec z 0); [contradiction|].
  apply count_digits_spec; [lia|].
  rewrite Nat2Z.inj_succ, Z2Nat.id by apply Z.log2_nonneg.
  apply Z.log2_spec. lia.
Qed.

Lemma digit_count_small (z bound : Z) :
  0 <= bound -> Z.abs z < 10 ^ bound -> digit_count z <= Z.max 1 bound.
Proof.
  intros Hb Hz. destruct (Z.eq_dec z 0) as [->|Hnz]; [cbn; lia|].
  destruct (digit_count_spec z Hnz) as [Hc [Hlo _]].
  destruct (Z.le_gt_cases (digit_count z) bound) as [H|H]; [lia|].
  assert (10 ^ bound <= 10 ^ (digit_count z - 1))
    by (apply Z.pow_le_mono_r; lia).
  lia.
Qed.

(** A number of at least [10^k] has more than [k] digits. *)
Lemma digit_count_lower (z k : Z) :
  10 ^ k <= Z.abs z -> 0 < 10 ^ k -> k < digit_count z.
Proof.
  intros Hle Hpos.
  assert (Hz : z <> 0) by lia.
  destruct (digit_count_spec z Hz) as [_ Hhi].
  destruct (Z.lt_ge_cases k (digit_count z)) as [Hlt|Hge]; [exact Hlt|].
  assert (10 ^ digit_count z <= 10 ^ k) by (apply Z.pow_le_mono_r; lia).
  lia.
Qed.

Lemma int_text_beyond_limit (h : host) (z : Z) :
  640 < digit_count z -> 0 < int_max_str_digits h < digit_count z ->
  int_text h z
  = Err (ValueError (exceeds_limit_message (int_max_str_digits h))).
Proof.
  intros H1 [H2 H3]. unfold int_text.
  destruct (Z.ltb_spec 640 (digit_count z)); [|lia].
  destruct (Z.ltb_spec 0 (int_max_str_digits h)); [|lia].
  destruct (Z.ltb_spec (int_max_str_digits h) (digit_count z));
    [reflexivity | lia].
Qed.

Lemma digits2_pos_size (m : positive) : digits2_pos m = Pos.size m.
Proof. induction m; cbn; congruence. Qed.

(** A finite binary64 is below [2^1024] in magnitude. *)
Lemma finite_float_magnitude (f : float) (s : bool) (m : positive) (e : Z) :
  Prim2SF f = S754_finite s m e -> magnitude_trunc m e < 2 ^ 1024.
Proof.
  intros Hf. pose proof (Prim2SF_valid f) as Hv. rewrite Hf in Hv.
  cbn [valid_binary] in Hv. unfold bounded, canonical_mantissa in Hv.
  apply andb_prop in Hv. destruct Hv as [Hc He].
  apply Z.eqb_eq in Hc. apply Z.leb_le in He.
  unfold fexp, SpecFloat.emin in Hc. rewrite digits2_pos_size in Hc.
  change FloatOps.prec with 53 in *. change FloatOps.emax with 1024 in *.
  assert (Hs : Zpos (Pos.size m) <= 53) by lia.
  assert (Hm : Zpos m < 2 ^ 53).
  { pose proof (Pos.size_gt m) as Hgt.
    apply Pos2Z.pos_lt_pos in Hgt. rewrite Pos2Z.inj_pow in Hgt.
    eapply Z.lt_le_trans; [exact Hgt|].
    apply Z.pow_le_mono_r; lia. }
  assert (E : 2 ^ 1024 = 2 ^ 53 * 2 ^ 971).
  { rewrite <- Z.pow_add_r by lia. reflexivity. }
  assert (H53 : 0 < 2 ^ 53) by (apply Z.pow_pos_nonneg; lia).
  assert (H971 : 1 <= 2 ^ 971).
  { change 1 with (2 ^ 0). apply Z.pow_le_mono_r; lia. }
  rewrite E. remember (2 ^ 53) as A. remember (2 ^ 971) as B.
  unfold magnitude_trunc. destruct (Z.leb_spec 0 e) as [H0|H0].
  - assert (2 ^ e <= B) by (subst B; apply Z.pow_le_mono_r; lia).
    assert (0 < 2 ^ e) by (apply Z.pow_pos_nonneg; lia).
    nia.
  - assert (0 < 2 ^ (- e)) by (apply Z.pow_pos_nonneg; lia).
    assert (Zpos m / 2 ^ (- e) <= Zpos m).
    { apply Z.div_le_upper_bound; nia. }
    nia.
Qed.

(** The integer part of a float has at most 309 digits: its text is
    never refused. *)
Lemma float_int_text (h : host) (f : float) (z : Z) :
  to_Z f = IntOf z -> int_text h z = Ok (str_of_int z).
Proof.
  intros Hz. unfold int_text.
  assert (Hc : digit_count z <= Z.max 1 309).
  { apply digit_count_small; [lia|].
    assert (Hlt : 2 ^ 1024 < 10 ^ 309).
    { apply Z.ltb_lt. vm_compute. reflexivity. }
    assert (Hpos : 0 < 2 ^ 1024) by (apply Z.pow_pos_nonneg; lia).
    remember (2 ^ 1024) as A. remember (10 ^ 309) as B.
    unfold to_Z in Hz. destruct (Prim2SF f) as [| | |s m e] eqn:Hf;
      try discriminate; injection Hz as <-.
    - rewrite Z.abs_0. lia.
    - pose proof (finite_float_magnitude f s m e Hf) as Hm.
      rewrite <- HeqA in Hm.
      assert (0 <= magnitude_trunc m e).
      { unfold magnitude_trunc. destruct (Z.leb_spec 0 e).
        - apply Z.mul_nonneg_nonneg; [lia | apply Z.pow_nonneg; lia].
        - apply Z.div_pos; [lia | apply Z.pow_pos_nonneg; lia]. }
      destruct s; lia. }
  rewrite Z.max_r in Hc by lia.
  destruct (Z.ltb_spec 640 (digit_count z)); [lia | reflexivity].
Qed.

(** *** A factorial beyond the limit *)

Lemma factorial_nat_pos (n : nat) : 0 < factorial_nat n.
Proof.
  induction n as [|n IH]; [reflexivity|].
  change (factorial_nat (S n)) with (Z.of_nat (S n) * factorial_nat n).
  apply Z.mul_pos_pos; [lia | exact IH].
Qed.

(** [m^k <= (m + k)!]: the last [k] factors are all above [m]. *)
Lemma factorial_nat_lower (m k : nat) :
  Z.of_nat m ^ Z.of_nat k <= factorial_nat (m + k).
Proof.
  induction k as [|k IH].
  - rewrite Nat.add_0_r, Z.pow_0_r. pose proof (factorial_nat_pos m). lia.
  - rewrite Nat.add_succ_r, Nat2Z.inj_succ, Z.pow_succ_r by lia.
    change (factorial_nat (S (m + k)))
      with (Z.of_nat (S (m + k)) * factorial_nat (m + k)).
    apply Z.mul_le_mono_nonneg; [lia | lia | | exact IH].
    apply Z.pow_nonneg; lia.
Qed.

Lemma pystr_eqb_eq (s t : pystr) : PyStr.eqb s t = true -> s = t.
Proof.
  revert t. induction s as [|a s IH]; intros [|b t] H; try discriminate.
  - reflexivity.
  - cbn in H. apply andb_prop in H. destruct H as [H1 H2].
    apply N.eqb_eq in H1. f_equal; auto.
Qed.

(** [evaluate] on a call that returns: the entry is appended, then the
    value is formatted. *)
Lemma evaluate_call_returns (h : host) (expression name : pystr)
      (m : method) (args : list expr) (vs : list value) (v : value)
      (st st1 st2 : calc) :
  parse (_preprocess expression) = Tree (ECall (EName name) args) ->
  lookup name safe_env = Some (VMethod m) ->
  eval_expr h (ETuple args) st = Return (VTuple vs) st1 ->
  call_method h m vs st1 = Return v st2 ->
  evaluate h expression st
  = match _format_result h v with
    | Ok text => Some (text, append_history (expression, v) st2)
    | Err e => Some (error_text e, append_history (expression, v) st2)
    | Unmodelled => None
    end.
Proof.
  intros Hparse Hname Hargs Hcall. unfold evaluate.
  destruct (PyStr.eqb (_preprocess expression) []) eqn:E1.
  { apply pystr_eqb_eq in E1. rewrite E1 in Hparse. discriminate. }
  destruct (PyStr.eqb (_preprocess expression) invalid_marker) eqn:E2.
  { apply pystr_eqb_eq in E2. rewrite E2 in Hparse. discriminate. }
  unfold py_eval. rewrite Hparse. cbn [eval_expr]. rewrite Hname.
  cbn [bind]. cbn [eval_expr] in Hargs.
  match type of Hargs with
  | bind ?r _ = _ => destruct r as [vs0 st0| |] eqn:Er; try discriminate
  end.
  cbn [bind] in Hargs. injection Hargs as -> ->.
  cbn [bind call]. rewrite Hcall. reflexivity.
Qed.

(** [fact(3000)] is [3000!]. *)
Lemma fact_3000 : _fact (VInt 3000) = Ok (VInt (factorial_nat 3000)).
Proof.
  unfold _fact.
  replace (to_float (VInt 3000)) with (Ok 3000%float)
    by (vm_compute; reflexivity).
  cbn [rbind].
  replace (is_integer 3000) with true by (vm_compute; reflexivity).
  cbn [negb].
  replace (to_int (VFloat 3000)) with (Ok 3000)
    by (vm_compute; reflexivity).
  cbn [rbind].
  replace (3000 <? 0) with false by reflexivity.
  unfold math_factorial.
  replace (2 ^ 31 <=? 3000) with false by (vm_compute; reflexivity).
  cbn [rbind].
  replace (Z.to_nat 3000) with 3000%nat by (vm_compute; reflexivity).
  reflexivity.
Qed.

(** [3000! >= 1000^2000 = 10^6000]: more than 4300 digits. *)
Lemma fact_3000_digits : 4300 < digit_count (factorial_nat 3000).
Proof.
  apply digit_count_lower.
  - rewrite Z.abs_eq by (pose proof (factorial_nat_pos 3000); lia).
    apply Z.le_trans with (Z.of_nat 1000 ^ Z.of_nat 2000);
      [|exact (factorial_nat_lower 1000 2000)].
    replace (Z.of_nat 1000) with (10 ^ 3) by (vm_compute; reflexivity).
    replace (Z.of_nat 2000) with 2000 by (vm_compute; reflexivity).
    rewrite <- Z.pow_mul_r by lia.
    apply Z.pow_le_mono_r; lia.
  - apply Z.pow_pos_nonneg; lia.
Qed.

(** C6 as stated fails where the interpreter limits integer text (4300
    digits by default since Python 3.11): [3000!] has more than 6000
    digits (9131), and [evaluate("fact(3000)")] returns the text of the
    ValueError that [str] raises, after the result has been recorded in
    the history. *)
Lemma large_factorial_is_not_rendered :
  int_max_str_digits sample_host = 4300
  /\ evaluate sample_host (py "fact(3000)") new_calc
     = Some (py "Exceeds the limit (4300 digits) for integer string conversion; use sys.set_int_max_str_digits() to increase the limit",
             append_history (py "fact(3000)", VInt (factorial_nat 3000))
                            new_calc).
Proof.
  split; [reflexivity|].
  rewrite (evaluate_call_returns sample_host (py "fact(3000)") (py "fact")
             M_fact [EInt 3000] [VInt 3000] (VInt (factorial_nat 3000))
             new_calc new_calc new_calc).
  - cbn [_format_result py_str py_repr].
    rewrite int_text_beyond_limit.
    + cbv beta iota.
      replace (error_text
                 (ValueError
                    (exceeds_limit_message (int_max_str_digits sample_host))))
        with (py "Exceeds the limit (4300 digits) for integer string conversion; use sys.set_int_max_str_digits() to increase the limit")
        by (vm_compute; reflexivity).
      reflexivity.
    + pose proof fact_3000_digits. lia.
    + change (int_max_str_digits sample_host) with 4300.
      pose proof fact_3000_digits. lia.
  - vm_compute. reflexivity.
  - vm_compute. reflexivity.
  - vm_compute. reflexivity.
  - cbn [call_method]. rewrite fact_3000. reflexivity.
Qed.

(** ** Roots *)




(** ** Integer-only functions *)








(** ** What [eval] lets through

    The sanitizer admits letters, the underscore, the point, the comma and
    parentheses, and [safe_env] binds bound methods of the instance: the
    expression language that reaches [eval] is larger than the arithmetic
    grammar, and it reaches the instance itself. *)

(** C1 on the code.  A name that [safe_env] does not bind, a parse
    failure and a quote character do end in an error text; but attribute
    access is evaluated: [e.__class__] yields the class [float], floor
    division (no operator of the grammar) is computed, and
    [sin.__self__] is the evaluator instance, whose [__init__] an
    expression can call. *)
Theorem attribute_access_passes_the_whitelist (h : host) (st : calc) :
  evaluate h (py "foo") st = Some (py "Error: Invalid Expression", st)
  /\ evaluate h (py "__import__('os')") st
     = Some (py "Error: Invalid Characters", st)
  /\ evaluate h (py "e.__class__") st
     = Some (py "<class 'float'>",
             append_history (py "e.__class__", VClass ClassFloat) st)
  /\ evaluate h (py "7//2") st
     = Some (py "3", append_history (py "7//2", VInt 3) st)
  /\ evaluate h (py "sin.__self__") st
     = Some (self_repr h, append_history (py "sin.__self__", VSelf) st)
  /\ evaluate h (py "sin.__self__.__init__()") st
     = Some (py "None",
             {| angle_mode := VStr (py "DEG");
                history := [(py "sin.__self__.__init__()", VNone)] |}).
Proof. repeat split; vm_compute; reflexivity. Qed.

(** C2 on the code.  In degree mode the test is two-sided: both
    [89.9999999999999] and [90.0000000000001] raise the Domain Error.  In
    radian mode it is one-sided: [1.5707963267950966], above [pi/2] by
    less than [1e-12], raises it, but [1.5707963267948], below [pi/2] by
    less than [1e-12], does not, and [tan] goes on to the tangent. *)
Theorem tan_radian_test_is_one_sided (h : host)
        (hist : list (pystr * value)) :
  let deg := {| angle_mode := VStr (py "DEG"); history := hist |} in
  let rad := {| angle_mode := VStr (py "RAD"); history := hist |} in
  evaluate h (py "tan(89.9999999999999)") deg = Some (py "Domain Error", deg)
  /\ evaluate h (py "tan(90.0000000000001)") deg
     = Some (py "Domain Error", deg)
  /\ (abs (above_half_pi - math_pi / 2) <? tolerance)%float = true
  /\ evaluate h (py "tan(1.5707963267950966)") rad
     = Some (py "Domain Error", rad)
  /\ (abs (below_half_pi - math_pi / 2) <? tolerance)%float = true
  /\ near_singularity_rad below_half_pi = false
  /\ _tan h rad (VFloat below_half_pi)
     = (r <- math_tan h below_half_pi ;; Ok (VFloat r))
  /\ py_eval h (py "tan(1.5707963267948)") rad
     = lift (r <- math_tan h below_half_pi ;; Ok (VFloat r)) rad.
Proof. repeat split; vm_compute; reflexivity. Qed.

(** On the sample host the tangent below [pi/2] is displayed. *)
Example tan_below_half_pi_on_sample_host :
  option_map fst
    (evaluate sample_host (py "tan(1.5707963267948)")
              {| angle_mode := VStr (py "RAD"); history := [] |})
  = Some (py "1.03465434553e+13").
Proof. vm_compute. reflexivity. Qed.

(** C3 on the code.  After a successful [evaluate("1+1")] the history has
    one entry; [evaluate("sin.__self__.clear_history()+1")] then fails (it
    adds 1 to [None]) and returns the Invalid Expression text, yet the
    history is empty afterwards: a failed evaluation removed an entry. *)
Theorem failed_evaluation_clears_history (h : host) (st : calc) :
  let st1 := append_history (py "1+1", VInt 2) st in
  evaluate h (py "1+1") st = Some (py "2", st1)
  /\ get_history st1 = get_history st ++ [(py "1+1", VInt 2)]
  /\ evaluate h (py "sin.__self__.clear_history()+1") st1
     = Some (py "Error: Invalid Expression",
             {| angle_mode := angle_mode st; history := [] |})
  /\ evaluate h (py "sin.__self__.clear_history()") st1
     = Some (py "None",
             {| angle_mode := angle_mode st;
                history := [(py "sin.__self__.clear_history()", VNone)] |}).
Proof. repeat split; vm_compute; reflexivity. Qed.

(** C4 on the code.  A bare whitelisted name evaluates to the bound
    method, and a parenthesized pair to a tuple: each is returned as text
    and recorded in the history, though it is no number. *)
Theorem non_numeric_results_are_recorded (h : host) (st : calc) :
  evaluate h (py "sin") st
  = Some (py "<bound method CalculatorLogic._sin of " ++ self_repr h ++ py ">",
          append_history (py "sin", VMethod M_sin) st)
  /\ evaluate h (py "(1,2)") st
     = Some (py "(1, 2)",
             append_history (py "(1,2)", VTuple [VInt 1; VInt 2]) st)
  /\ evaluate h (py "abs") st
     = Some (py "<built-in function abs>",
             append_history (py "abs", VBuiltin BAbs) st).
Proof. repeat split; vm_compute; reflexivity. Qed.

(** C10 on the code.  With the angle mode set to ["RAD"],
    [evaluate("sin.__self__.__init__()")] runs the constructor on the
    instance again: the angle mode is ["DEG"] afterwards. *)
Theorem evaluate_can_reset_angle_mode (h : host)
        (hist : list (pystr * value)) :
  evaluate h (py "sin.__self__.__init__()")
           {| angle_mode := VStr (py "RAD"); history := hist |}
  = Some (py "None",
          {| angle_mode := VStr (py "DEG");
             history := [(py "sin.__self__.__init__()", VNone)] |}).
Proof. vm_compute. reflexivity. Qed.

(** ** The angle mode *)

(** [set_angle_mode] stores ["DEG"] or ["RAD"] or raises and leaves the
    instance as it was. *)
Lemma set_angle_mode_outcome (h : host) (mode : pystr) (st : calc) :
  (exists m : pystr,
      (m = py "DEG" \/ m = py "RAD")
      /\ strip (upper h mode) = m
      /\ set_angle_mode h mode st
         = Return VNone {| angle_mode := VStr m; history := history st |})
  \/ (strip (upper h mode) <> py "DEG"
      /\ strip (upper h mode) <> py "RAD"
      /\ set_angle_mode h mode st = Raise angle_mode_error st).
Proof.
  unfold set_angle_mode.
  destruct (PyStr.eqb (strip (upper h mode)) (py "DEG")) eqn:E1.
  { left. exists (py "DEG"). apply pystr_eqb_eq in E1. rewrite E1. auto. }
  destruct (PyStr.eqb (strip (upper h mode)) (py "RAD")) eqn:E2.
  { left. exists (py "RAD"). apply pystr_eqb_eq in E2. rewrite E2. auto. }
  right. cbn [orb negb]. repeat split; intros E; rewrite E in *; discriminate.
Qed.

(** C5 on the code.  [set_angle_mode] itself keeps the angle mode within
    ["DEG"] and ["RAD"]: it stores one of the two, or raises the input
    error and changes nothing; case and surrounding whitespace do not
    matter.  But [evaluate("sin.__self__.__init__(0)")] runs the
    constructor, which stores its argument unchecked: the angle mode is
    the integer 0 afterwards, and trigonometry then takes its arguments
    as radians. *)
Theorem evaluate_can_store_any_angle_mode (h : host) (st : calc) :
  (forall mode : pystr,
      (exists m : pystr,
          (m = py "DEG" \/ m = py "RAD")
          /\ set_angle_mode h mode st
             = Return VNone {| angle_mode := VStr m; history := history st |})
      \/ set_angle_mode h mode st = Raise angle_mode_error st)
  /\ set_angle_mode h (py "  rad ") st
     = Return VNone {| angle_mode := VStr (py "RAD"); history := history st |}
  /\ set_angle_mode h (py "Deg") st
     = Return VNone {| angle_mode := VStr (py "DEG"); history := history st |}
  /\ set_angle_mode h (py "GRAD") st = Raise angle_mode_error st
  /\ evaluate h (py "sin.__self__.__init__(0)") st
     = Some (py "None",
             {| angle_mode := VInt 0;
                history := [(py "sin.__self__.__init__(0)", VNone)] |})
  /\ (forall (hist : list (pystr * value)) (x : float),
         _to_radians {| angle_mode := VInt 0; history := hist |} x = x).
Proof.
  split.
  { intros mode.
    destruct (set_angle_mode_outcome h mode st)
      as [[m [Hm [_ Hs]]] | [_ [_ Hs]]]; [left; exists m; auto | right; auto]. }
  repeat split; vm_compute; reflexivity.
Qed.

(** ** Expressions without attribute access *)



































(** ** The sanitizer, character by character *)

Lemma lstrip_solid (s : pystr) : starts_solid s -> lstrip s = s.
Proof. destruct s as [|c s]; cbn; [reflexivity | intros ->; reflexivity]. Qed.

Lemma lstrip_starts_solid (s : pystr) : starts_solid (lstrip s).
Proof.
  induction s as [|c s IH]; cbn; [exact I|].
  destruct (isspace c) eqn:E; [exact IH | exact E].
Qed.

Lemma lstrip_app_solid (a : pystr) (c : N) :
  isspace c = false -> lstrip (a ++ [c]) = lstrip a ++ [c].
Proof.
  intros Hc. induction a as [|x a IH]; cbn.
  - rewrite Hc. reflexivity.
  - destruct (isspace x); [exact IH | reflexivity].
Qed.

Lemma starts_solid_app (a b : pystr) :
  starts_solid a -> a <> [] -> starts_solid (a ++ b).
Proof. destruct a; cbn; [congruence | auto]. Qed.

(** [strip] leaves a text that starts and ends with no whitespace. *)
Lemma strip_starts_solid (s : pystr) : starts_solid (strip s).
Proof.
  unfold strip, rstrip.
  pose proof (lstrip_starts_solid s) as Hs.
  destruct (lstrip s) as [|c t]; [exact I|]. cbn in Hs.
  assert (Hrev : rev (c :: t) = rev t ++ [c]) by reflexivity.
  rewrite Hrev, lstrip_app_solid by exact Hs.
  rewrite rev_app_distr. exact Hs.
Qed.

Lemma strip_ends_solid (s : pystr) : starts_solid (rev (strip s)).
Proof.
  unfold strip, rstrip. rewrite rev_involutive. apply lstrip_starts_solid.
Qed.

Lemma strip_solid (s : pystr) :
  starts_solid s -> starts_solid (rev s) -> strip s = s.
Proof.
  intros H1 H2. unfold strip, rstrip.
  rewrite (lstrip_solid s H1), (lstrip_solid (rev s) H2).
  apply rev_involutive.
Qed.

Lemma forallb_lstrip (P : N -> bool) (s : pystr) :
  (forall c, isspace c = true -> P c = true) ->
  forallb P (lstrip s) = forallb P s.
Proof.
  intros HP. induction s as [|c s IH]; [reflexivity|]. cbn.
  destruct (isspace c) eqn:E; [|reflexivity].
  rewrite IH, (HP c E). reflexivity.
Qed.

Lemma forallb_rev (P : N -> bool) (s : pystr) :
  forallb P (rev s) = forallb P s.
Proof.
  induction s as [|c s IH]; [reflexivity|]. cbn.
  rewrite forallb_app, IH. cbn. rewrite andb_true_r. apply andb_comm.
Qed.

Lemma forallb_strip (P : N -> bool) (s : pystr) :
  (forall c, isspace c = true -> P c = true) ->
  forallb P (strip s) = forallb P s.
Proof.
  intros HP. unfold strip, rstrip.
  rewrite forallb_rev, forallb_lstrip, forallb_rev, forallb_lstrip by exact HP.
  reflexivity.
Qed.

Lemma forallb_pointwise (P Q : N -> bool) (s : pystr) :
  (forall c, P c = Q c) -> forallb P s = forallb Q s.
Proof.
  intros H. induction s as [|c s IH]; [reflexivity|]. cbn.
  rewrite H, IH. reflexivity.
Qed.

Lemma forallb_flat_map (P : N -> bool) (f : N -> pystr) (s : pystr) :
  forallb P (flat_map f s) = forallb (fun c => forallb P (f c)) s.
Proof.
  induction s as [|c s IH]; [reflexivity|]. cbn.
  rewrite forallb_app, IH. reflexivity.
Qed.

Lemma flat_map_flat_map (f g : N -> pystr) (s : pystr) :
  flat_map g (flat_map f s) = flat_map (fun c => flat_map g (f c)) s.
Proof.
  induction s as [|c s IH]; [reflexivity|]. cbn.
  rewrite flat_map_app, IH. reflexivity.
Qed.

(** The three replacements together rewrite the text character by
    character. *)
Lemma replacements_translate (s : pystr) :
  replace [caret] (py "**")
    (replace [division_sign] (py "/") (replace [times_sign] (py "*") s))
  = flat_map translate_char s.
Proof.
  rewrite !replace_char, !flat_map_flat_map.
  apply flat_map_ext. intros c. unfold translate_char.
  rewrite (N.eqb_sym c times_sign), (N.eqb_sym c division_sign),
    (N.eqb_sym c caret).
  destruct (N.eqb times_sign c) eqn:E1; [reflexivity|].
  cbn [flat_map app].
  destruct (N.eqb division_sign c) eqn:E2; [reflexivity|].
  cbn [flat_map app].
  destruct (N.eqb caret c) eqn:E3; reflexivity.
Qed.

Lemma allowed_translate (c : N) :
  forallb allowed_char (translate_char c) = accepted_char c.
Proof.
  unfold translate_char, accepted_char.
  destruct (N.eqb_spec c times_sign) as [->|H1]; [reflexivity|].
  destruct (N.eqb_spec c division_sign) as [->|H2]; [reflexivity|].
  destruct (N.eqb_spec c caret) as [->|H3]; [reflexivity|].
  cbn. rewrite andb_true_r, !orb_false_r. reflexivity.
Qed.

Lemma space_is_allowed (c : N) : isspace c = true -> allowed_char c = true.
Proof. intros H. unfold allowed_char. rewrite H. apply orb_true_r. Qed.

Lemma space_is_accepted (c : N) : isspace c = true -> accepted_char c = true.
Proof.
  intros H. unfold accepted_char. rewrite (space_is_allowed c H). reflexivity.
Qed.

Lemma preprocess_checks_input (s : pystr) :
  forallb allowed_char
    (replace [caret] (py "**")
       (replace [division_sign] (py "/")
          (replace [times_sign] (py "*") (strip s))))
  = forallb accepted_char s.
Proof.
  rewrite replacements_translate, forallb_flat_map.
  rewrite (forallb_pointwise _ accepted_char _ allowed_translate).
  apply (forallb_strip accepted_char s space_is_accepted).
Qed.

(** An input of accepted characters is trimmed and translated. *)
Lemma preprocess_accepted (s : pystr) :
  forallb accepted_char s = true ->
  _preprocess s = flat_map translate_char (strip s).
Proof.
  intros H. unfold _preprocess.
  rewrite preprocess_checks_input, H. apply replacements_translate.
Qed.

(** An input with another character is refused. *)
Lemma preprocess_rejected (s : pystr) :
  forallb accepted_char s = false -> _preprocess s = invalid_marker.
Proof.
  intros H. unfold _preprocess.
  rewrite preprocess_checks_input, H. reflexivity.
Qed.

(** The sanitizer, character by character: when every character of the
    input is whitelisted or one of the three replaced signs, the result is
    the trimmed input with [*] for the multiplication sign, [/] for the
    division sign and [**] for the caret; otherwise it is the marker of
    invalid characters. *)
Theorem preprocess_translates_or_rejects (s : pystr) :
  _preprocess s
  = if forallb accepted_char s then flat_map translate_char (strip s)
    else invalid_marker.
Proof.
  destruct (forallb accepted_char s) eqn:H.
  - apply preprocess_accepted, H.
  - apply preprocess_rejected, H.
Qed.

Lemma rev_flat_map (f : N -> pystr) (s : pystr) :
  rev (flat_map f s) = flat_map (fun c => rev (f c)) (rev s).
Proof.
  induction s as [|c s IH]; [reflexivity|]. cbn.
  rewrite rev_app_distr, IH, flat_map_app. cbn. rewrite app_nil_r.
  reflexivity.
Qed.

Lemma flat_map_starts_solid (f : N -> pystr) (s : pystr) :
  (forall c, isspace c = false -> f c <> [] /\ starts_solid (f c)) ->
  starts_solid s -> starts_solid (flat_map f s).
Proof.
  intros Hf Hs. destruct s as [|c s]; [exact I|]. cbn in Hs |- *.
  destruct (Hf c Hs) as [Hne Hsolid]. apply starts_solid_app; assumption.
Qed.

Lemma translate_solid (c : N) :
  isspace c = false ->
  (translate_char c <> [] /\ starts_solid (translate_char c))
  /\ (rev (translate_char c) <> [] /\ starts_solid (rev (translate_char c))).
Proof.
  intros Hc. unfold translate_char.
  destruct (N.eqb c times_sign); [repeat split; discriminate|].
  destruct (N.eqb c division_sign); [repeat split; discriminate|].
  destruct (N.eqb c caret); [repeat split; discriminate|].
  cbn. repeat split; try discriminate; exact Hc.
Qed.

Lemma translate_allowed (c : N) :
  allowed_char c = true -> translate_char c = [c].
Proof.
  intros Hc. unfold translate_char.
  destruct (N.eqb_spec c times_sign) as [->|H1]; [discriminate|].
  destruct (N.eqb_spec c division_sign) as [->|H2]; [discriminate|].
  destruct (N.eqb_spec c caret) as [->|H3]; [discriminate|].
  reflexivity.
Qed.

Lemma flat_map_singletons (f : N -> pystr) (s : pystr) :
  (forall c, In c s -> f c = [c]) -> flat_map f s = s.
Proof.
  induction s as [|c s IH]; intros H; [reflexivity|]. cbn.
  rewrite (H c (or_introl eq_refl)), IH; [reflexivity|].
  intros x Hx. apply H. right. exact Hx.
Qed.

(** A whitelisted text without whitespace at its ends is left as it is. *)
Lemma preprocess_fixed (s : pystr) :
  forallb allowed_char s = true ->
  starts_solid s -> starts_solid (rev s) ->
  _preprocess s = s.
Proof.
  intros Hall H1 H2.
  assert (Hacc : forallb accepted_char s = true).
  { rewrite forallb_forall in Hall |- *. intros c Hc.
    unfold accepted_char. rewrite (Hall c Hc). reflexivity. }
  rewrite (preprocess_accepted s Hacc), (strip_solid s H1 H2).
  apply flat_map_singletons. intros c Hc. apply translate_allowed.
  rewrite forallb_forall in Hall. exact (Hall c Hc).
Qed.

(** What the sanitizer returns is made of whitelisted characters, holds
    no caret, neither starts nor ends with whitespace, and is left as it
    is by the sanitizer. *)
Theorem preprocess_is_whitelisted_and_idempotent (s : pystr) :
  forallb allowed_char (_preprocess s) = true
  /\ ~ In caret (_preprocess s)
  /\ starts_solid (_preprocess s)
  /\ starts_solid (rev (_preprocess s))
  /\ _preprocess (_preprocess s) = _preprocess s.
Proof.
  assert (H : forallb allowed_char (_preprocess s) = true
              /\ starts_solid (_preprocess s)
              /\ starts_solid (rev (_preprocess s))).
  { destruct (forallb accepted_char s) eqn:Hacc;
      [rewrite (preprocess_accepted s Hacc)
      |rewrite (preprocess_rejected s Hacc); split; [|split]; reflexivity].
    split; [|split].
    - rewrite forallb_flat_map,
        (forallb_pointwise _ accepted_char _ allowed_translate),
        (forallb_strip accepted_char s space_is_accepted).
      exact Hacc.
    - apply flat_map_starts_solid; [|apply strip_starts_solid].
      intros c Hc. apply (translate_solid c Hc).
    - rewrite rev_flat_map.
      apply flat_map_starts_solid; [|apply strip_ends_solid].
      intros c Hc. apply (translate_solid c Hc). }
  destruct H as [Hall [H1 H2]].
  split; [exact Hall|]. split.
  { intros Hin. rewrite forallb_forall in Hall. apply Hall in Hin.
    discriminate. }
  split; [exact H1|]. split; [exact H2|].
  apply preprocess_fixed; assumption.
Qed.

Lemma lstrip_blank (s : pystr) : forallb isspace s = true -> lstrip s = [].
Proof.
  induction s as [|c s IH]; [reflexivity|]. cbn. intros H.
  apply andb_prop in H. destruct H as [-> Hs]. exact (IH Hs).
Qed.

Lemma evaluate_of_marker (h : host) (s : pystr) (st : calc) :
  _preprocess s = invalid_marker ->
  evaluate h s st = Some (py "Error: Invalid Characters", st).
Proof. intros H. unfold evaluate. rewrite H. reflexivity. Qed.

Lemma refused_char (s : pystr) (c : N) :
  In c s -> accepted_char c = false -> forallb accepted_char s = false.
Proof.
  intros Hin Hc. destruct (forallb accepted_char s) eqn:Hacc; [|reflexivity].
  rewrite forallb_forall in Hacc. rewrite (Hacc c Hin) in Hc. discriminate.
Qed.

(** An input that holds a character that is neither whitelisted nor one
    of the three replaced signs is answered by ["Error: Invalid
    Characters"], and the instance is left as it was. *)
Theorem invalid_character_is_rejected (h : host) (s : pystr) (st : calc)
        (c : N) :
  In c s -> accepted_char c = false ->
  _preprocess s = invalid_marker
  /\ evaluate h s st = Some (py "Error: Invalid Characters", st).
Proof.
  intros Hin Hc.
  assert (Hpre : _preprocess s = invalid_marker)
    by exact (preprocess_rejected s (refused_char s c Hin Hc)).
  split; [exact Hpre | exact (evaluate_of_marker h s st Hpre)].
Qed.

(** The theorem at an input with a quote. *)
Lemma invalid_character_is_rejected_witness :
  evaluate sample_host (py "__import__('os')") new_calc
  = Some (py "Error: Invalid Characters", new_calc).
Proof.
  apply (invalid_character_is_rejected sample_host
           (py "__import__('os')") new_calc 39%N).
  - vm_compute. tauto.
  - reflexivity.
Defined.

(** An input of whitespace only (the empty input too) is answered by the
    empty text, and the instance is left as it was. *)
Theorem blank_input_gives_empty_text (h : host) (s : pystr) (st : calc) :
  forallb isspace s = true -> evaluate h s st = Some ([], st).
Proof.
  intros Hs. unfold evaluate.
  assert (Hpre : _preprocess s = []).
  { assert (Hacc : forallb accepted_char s = true).
    { rewrite forallb_forall in Hs |- *. intros c Hc.
      apply space_is_accepted, Hs, Hc. }
    rewrite (preprocess_accepted s Hacc). unfold strip.
    rewrite (lstrip_blank s Hs). reflexivity. }
  rewrite Hpre. reflexivity.
Qed.

(** The theorem at three blanks. *)
Lemma blank_input_gives_empty_text_witness :
  evaluate sample_host (py "   ") new_calc = Some ([], new_calc).
Proof.
  apply (blank_input_gives_empty_text sample_host (py "   ") new_calc).
  reflexivity.
Defined.

Lemma digit_is_solid (c : N) : digit_code c -> solid_char c.
Proof.
  unfold digit_code. intros H.
  assert (Hc : In c [48; 49; 50; 51; 52; 53; 54; 55; 56; 57]%N).
  { cbn. lia. }
  cbn in Hc.
  repeat (destruct Hc as [<-|Hc]; [split; reflexivity|]). destruct Hc.
Qed.

Lemma solid_text (s : string) :
  forallb (fun c => allowed_char c && negb (isspace c)) (py s) = true ->
  Forall solid_char (py s).
Proof.
  intros H. rewrite forallb_forall in H. apply Forall_forall. intros c Hc.
  apply H in Hc. apply andb_prop in Hc. destruct Hc as [Ha Hs].
  split; [exact Ha | destruct (isspace c); [discriminate | reflexivity]].
Qed.

Lemma str_of_int_solid (z : Z) : Forall solid_char (str_of_int z).
Proof.
  eapply Forall_impl; [|apply str_of_int_chars].
  intros c [->|Hc]; [split; reflexivity | apply digit_is_solid, Hc].
Qed.

Lemma digits_of_solid (k : nat) :
  forall (n : Z) (acc : pystr),
    Forall solid_char acc -> Forall solid_char (digits_of k n acc).
Proof.
  induction k as [|k IH]; intros n acc Hacc; cbn [digits_of]; [exact Hacc|].
  apply IH. constructor; [|exact Hacc].
  apply digit_is_solid. unfold digit_code, digit.
  pose proof (Z.mod_pos_bound n 10 ltac:(lia)). lia.
Qed.

Lemma drop_zeros_solid (s : pystr) :
  Forall solid_char s -> Forall solid_char (drop_zeros s).
Proof.
  induction 1 as [|c s Hc Hs IH]; cbn [drop_zeros]; [constructor|].
  destruct (N.eqb c zero_char); [exact IH | constructor; assumption].
Qed.

Lemma firstn_solid (n : nat) (s : pystr) :
  Forall solid_char s -> Forall solid_char (firstn n s).
Proof.
  intros H. revert n. induction H as [|c s Hc Hs IH]; intros [|n]; cbn;
    constructor; auto.
Qed.

Lemma skipn_solid (n : nat) (s : pystr) :
  Forall solid_char s -> Forall solid_char (skipn n s).
Proof.
  intros H. revert n. induction H as [|c s Hc Hs IH]; intros [|n]; cbn;
    auto.
Qed.

Lemma with_point_solid (int frac : pystr) :
  Forall solid_char int -> Forall solid_char frac ->
  Forall solid_char (with_point int frac).
Proof.
  intros Hi Hf. unfold with_point.
  assert (Hs : Forall solid_char (strip_zeros frac)).
  { unfold strip_zeros. apply Forall_rev, drop_zeros_solid, Forall_rev, Hf. }
  destruct (strip_zeros frac) as [|c l]; [exact Hi|].
  apply Forall_app. split; [exact Hi|].
  constructor; [split; reflexivity | exact Hs].
Qed.

Lemma exponent_text_solid (e : Z) : Forall solid_char (exponent_text e).
Proof.
  unfold exponent_text. repeat (apply Forall_app; split).
  - apply solid_text. reflexivity.
  - destruct (e <? 0); apply solid_text; reflexivity.
  - destruct (Z.abs e <? 10); constructor; [split; reflexivity | constructor].
  - apply str_of_int_solid.
Qed.

Lemma layout_solid (p : Z) (ds : pystr) (x : Z) :
  Forall solid_char ds -> Forall solid_char (layout p ds x).
Proof.
  intros Hds. unfold layout.
  destruct ((-4 <=? x) && (x <? p)).
  - destruct (0 <=? x).
    + apply with_point_solid; [apply firstn_solid | apply skipn_solid];
        exact Hds.
    + apply with_point_solid; [apply solid_text; reflexivity|].
      apply Forall_app. split; [|exact Hds].
      apply Forall_forall. intros c Hc. apply repeat_spec in Hc. subst c.
      split; reflexivity.
  - apply Forall_app. split; [|apply exponent_text_solid].
    apply with_point_solid; [apply firstn_solid | apply skipn_solid];
      exact Hds.
Qed.

Lemma sign_text_solid (s : bool) : Forall solid_char (sign_text s).
Proof. destruct s; [apply solid_text; reflexivity | constructor]. Qed.

(** The text of a float is made of whitelisted characters. *)
Lemma format_g_solid (p : Z) (f : float) : Forall solid_char (format_g p f).
Proof.
  unfold format_g. destruct (Prim2SF f) as [s|s| |s m e].
  - apply Forall_app. split; [apply sign_text_solid|].
    apply solid_text; reflexivity.
  - apply Forall_app. split; [apply sign_text_solid|].
    apply solid_text; reflexivity.
  - apply solid_text; reflexivity.
  - destruct (fraction_of m e) as [n d]. destruct (significand p n d) as [q x].
    apply Forall_app. split; [apply sign_text_solid|].
    apply layout_solid, digits_of_solid. constructor.
Qed.

Lemma solid_is_fixed (s : pystr) : Forall solid_char s -> _preprocess s = s.
Proof.
  intros H. apply preprocess_fixed.
  - apply forallb_forall. intros c Hc. rewrite Forall_forall in H.
    apply (H c Hc).
  - destruct H as [|c s [_ Hc] _]; [exact I | exact Hc].
  - apply Forall_rev in H. destruct H as [|c t [_ Hc] _]; [exact I | exact Hc].
Qed.

(** The text of a number is made of whitelisted characters that are no
    whitespace, and the sanitizer leaves it as it is: a result can be
    evaluated again. *)
Theorem formatted_number_passes_the_sanitizer (h : host) (v : value)
        (text : pystr) :
  numeric v = true ->
  _format_result h v = Ok text ->
  Forall solid_char text /\ _preprocess text = text.
Proof.
  intros Hv Hf.
  assert (H : Forall solid_char text).
  { destruct v as [|z|f| | | | | |]; try discriminate.
    - cbn [_format_result py_str py_repr] in Hf. unfold int_text in Hf.
      destruct (_ && _); [discriminate|]. injection Hf as <-.
      apply str_of_int_solid.
    - cbn [_format_result] in Hf. destruct (is_integer f).
      + destruct (to_int (VFloat f)) as [z| |]; try discriminate.
        cbn [rbind] in Hf. unfold int_text in Hf.
        destruct (_ && _); [discriminate|]. injection Hf as <-.
        apply str_of_int_solid.
      + injection Hf as <-. apply format_g_solid. }
  split; [exact H | apply solid_is_fixed, H].
Qed.

(** The theorem at [-2.5e-08]. *)
Lemma formatted_number_passes_the_sanitizer_witness :
  _format_result sample_host (VFloat (- float_of_decimal 25 (-9)))
  = Ok (py "-2.5e-08")
  /\ _preprocess (py "-2.5e-08") = py "-2.5e-08".
Proof.
  split; [vm_compute; reflexivity|].
  apply (formatted_number_passes_the_sanitizer sample_host
           (VFloat (- float_of_decimal 25 (-9))) (py "-2.5e-08")).
  - reflexivity.
  - vm_compute. reflexivity.
Defined.

(** ** A series of evaluations *)











(** ** Permutations and combinations *)

Lemma factorial_nat_succ (n : nat) :
  factorial_nat (S n) = Z.of_nat (S n) * factorial_nat n.
Proof. reflexivity. Qed.

Lemma binomial_above (n : nat) : forall k, (n < k)%nat -> binomial n k = 0.
Proof.
  induction n as [|n IH]; intros [|k] H; try lia; [reflexivity|].
  cbn [binomial]. rewrite !IH by lia. reflexivity.
Qed.

Lemma binomial_diag (n : nat) : binomial n n = 1.
Proof.
  induction n as [|n IH]; [reflexivity|].
  cbn [binomial]. rewrite IH, binomial_above by lia. reflexivity.
Qed.

(** [C(n,k) * k! * (n-k)! = n!] *)
Lemma binomial_factorials (n : nat) :
  forall k, (k <= n)%nat ->
    binomial n k * factorial_nat k * factorial_nat (n - k) = factorial_nat n.
Proof.
  induction n as [|n IH]; intros [|k] Hk; try lia.
  - reflexivity.
  - cbn [binomial]. rewrite Nat.sub_0_r. cbn [factorial_nat]. lia.
  - cbn [binomial Nat.sub].
    destruct (Nat.eq_dec k n) as [->|Hne].
    + rewrite binomial_diag, binomial_above, Nat.sub_diag by lia.
      cbn [factorial_nat]. lia.
    + assert (H1 := IH k ltac:(lia)). assert (H2 := IH (S k) ltac:(lia)).
      replace (n - k)%nat with (S (n - S k)) in H1 |- * by lia.
      rewrite !factorial_nat_succ in *.
      set (a := binomial n k) in *. set (b := binomial n (S k)) in *.
      set (fk := factorial_nat k) in *.
      set (fr := factorial_nat (n - S k)) in *.
      set (fn := factorial_nat n) in *.
      replace (Z.of_nat (S (n - S k))) with (Z.of_nat n - Z.of_nat k) in *
        by lia.
      replace (Z.of_nat (S n)) with (Z.of_nat n + 1) by lia.
      replace (Z.of_nat (S k)) with (Z.of_nat k + 1) in * by lia.
      nia.
Qed.

Lemma binomial_sym (n k : nat) :
  (k <= n)%nat -> binomial n (n - k) = binomial n k.
Proof.
  intros Hk.
  pose proof (binomial_factorials n k Hk) as H1.
  pose proof (binomial_factorials n (n - k) ltac:(lia)) as H2.
  replace (n - (n - k))%nat with k in H2 by lia.
  pose proof (factorial_nat_pos k) as Hpk.
  pose proof (factorial_nat_pos (n - k)) as Hpr.
  apply (Z.mul_reg_r _ _ (factorial_nat k * factorial_nat (n - k))); [nia|].
  rewrite !Z.mul_assoc in *. rewrite H1.
  rewrite <- H2. ring.
Qed.

(** The product [top (top-1) ... (top-j+1)] of [math.comb]. *)
Lemma falling_factorials (j : nat) :
  forall top : Z,
    Z.of_nat j <= top ->
    (fix falling (j : nat) (top : Z) : Z :=
       match j with
       | O => 1
       | S j' => top * falling j' (top - 1)
       end) j top
    * factorial_nat (Z.to_nat (top - Z.of_nat j))
    = factorial_nat (Z.to_nat top).
Proof.
  induction j as [|j IH]; intros top Hj.
  - rewrite Z.sub_0_r. lia.
  - specialize (IH (top - 1) ltac:(lia)).
    replace (top - 1 - Z.of_nat j) with (top - Z.of_nat (S j)) in IH by lia.
    replace (Z.to_nat top) with (S (Z.to_nat (top - 1))) by lia.
    rewrite factorial_nat_succ, <- IH.
    replace (Z.of_nat (S (Z.to_nat (top - 1)))) with top by lia.
    ring.
Qed.

Lemma math_comb_binomial (n k : nat) :
  (k <= n)%nat -> Z.of_nat n < 2 ^ 31 ->
  math_comb (Z.of_nat n) (Z.of_nat k) = Ok (binomial n k).
Proof.
  intros Hk Hn. unfold math_comb.
  change (2 ^ 31) with 2147483648 in *.
  destruct (Z.leb_spec 2147483648 (Z.min (Z.of_nat k) (Z.of_nat n - Z.of_nat k)));
    [lia|].
  f_equal.
  set (m := Z.to_nat (Z.min (Z.of_nat k) (Z.of_nat n - Z.of_nat k))).
  assert (Hm : (m <= n)%nat) by lia.
  pose proof (falling_factorials m (Z.of_nat n) ltac:(lia)) as Hf.
  pose proof (binomial_factorials n m Hm) as Hb.
  replace (Z.to_nat (Z.of_nat n - Z.of_nat m)) with (n - m)%nat in Hf by lia.
  rewrite Nat2Z.id in Hf.
  pose proof (factorial_nat_pos m) as Hpm.
  pose proof (factorial_nat_pos (n - m)) as Hpr.
  assert (Hbm : binomial n m = binomial n k).
  { destruct (Nat.eq_dec m k) as [->|Hne]; [reflexivity|].
    replace m with (n - k)%nat by lia. apply binomial_sym, Hk. }
  rewrite <- Hbm.
  match goal with
  | |- ?F / _ = _ =>
      assert (HF : F = binomial n m * factorial_nat m)
  end.
  { apply (Z.mul_reg_r _ _ (factorial_nat (n - m))); [lia|].
    rewrite Hf, <- Hb. ring. }
  rewrite HF. apply Z.div_mul. lia.
Qed.

Lemma factorial_ratio (n k : nat) :
  (k <= n)%nat ->
  factorial_nat n / factorial_nat (n - k) * factorial_nat (n - k)
  = factorial_nat n
  /\ factorial_nat n / factorial_nat (n - k)
     = binomial n k * factorial_nat k.
Proof.
  intros Hk. pose proof (binomial_factorials n k Hk) as Hb.
  pose proof (factorial_nat_pos (n - k)) as Hp.
  assert (Hq : factorial_nat n / factorial_nat (n - k)
               = binomial n k * factorial_nat k).
  { rewrite <- Hb. apply Z.div_mul. lia. }
  split; [rewrite Hq; exact Hb | exact Hq].
Qed.

(** [nPr] and [nCr] on whole numbers [0 <= r <= n]: [nPr(n,r)] is the
    exact quotient [n!/(n-r)!], [nCr(n,r)] is the binomial coefficient,
    and [nCr(n,r) * r! = nPr(n,r)]; with a negative argument or [r > n]
    both raise Domain Error. *)
Theorem permutations_and_combinations (h : host) (n r : value)
        (fn fr : float) (kn kr : Z) :
  to_float n = Ok fn -> to_float r = Ok fr ->
  is_integer fn = true -> is_integer fr = true ->
  to_Z fn = IntOf kn -> to_Z fr = IntOf kr ->
  (0 <= kr <= kn -> kn < 2 ^ 31 ->
   exists p c : Z,
     _npr h n r = Ok (VInt p)
     /\ _ncr n r = Ok (VInt c)
     /\ p * factorial_nat (Z.to_nat (kn - kr)) = factorial_nat (Z.to_nat kn)
     /\ c * factorial_nat (Z.to_nat kr) = p
     /\ c = binomial (Z.to_nat kn) (Z.to_nat kr))
  /\ (kn < 0 \/ kr < 0 \/ kn < kr ->
      _npr h n r = Err domain_error /\ _ncr n r = Err domain_error).
Proof.
  intros Hn Hr Hin Hir Hkn Hkr.
  assert (Hnpr : _npr h n r
                 = if (kn <? 0) || (kr <? 0) || (kn <? kr)
                   then Err domain_error
                   else a <- math_factorial kn ;;
                        b <- math_factorial (kn - kr) ;;
                        int_binop h FloorDiv a b).
  { unfold _npr. rewrite Hn, Hr. cbn [rbind]. rewrite Hin, Hir.
    cbn [negb orb to_int]. rewrite Hkn, Hkr. reflexivity. }
  assert (Hncr : _ncr n r
                 = if (kn <? 0) || (kr <? 0) || (kn <? kr)
                   then Err domain_error
                   else c <- math_comb kn kr ;; Ok (VInt c)).
  { unfold _ncr. rewrite Hn, Hr. cbn [rbind]. rewrite Hin, Hir.
    cbn [negb orb to_int]. rewrite Hkn, Hkr. reflexivity. }
  rewrite Hnpr, Hncr. split.
  - intros [H0 Hle] Hmax.
    destruct (Z.ltb_spec kn 0); [lia|].
    destruct (Z.ltb_spec kr 0); [lia|].
    destruct (Z.ltb_spec kn kr); [lia|]. cbn [orb].
    pose proof (math_comb_binomial (Z.to_nat kn) (Z.to_nat kr)) as Hc.
    rewrite !Z2Nat.id in Hc by lia. rewrite Hc by lia.
    unfold math_factorial. change (2 ^ 31) with 2147483648 in *.
    destruct (Z.leb_spec 2147483648 kn); [lia|].
    destruct (Z.leb_spec 2147483648 (kn - kr)); [lia|].
    cbn [rbind int_binop].
    pose proof (factorial_nat_pos (Z.to_nat (kn - kr))) as Hp.
    destruct (Z.eqb_spec (factorial_nat (Z.to_nat (kn - kr))) 0); [lia|].
    destruct (factorial_ratio (Z.to_nat kn) (Z.to_nat kr) ltac:(lia))
      as [Hexact Hq].
    replace (Z.to_nat kn - Z.to_nat kr)%nat with (Z.to_nat (kn - kr))
      in Hexact, Hq by lia.
    eexists _, _. split; [reflexivity|]. split; [reflexivity|].
    split; [exact Hexact|]. split; [symmetry; exact Hq | reflexivity].
  - intros Hbad.
    assert (Hc : (kn <? 0) || (kr <? 0) || (kn <? kr) = true).
    { destruct (Z.ltb_spec kn 0); [reflexivity|].
      destruct (Z.ltb_spec kr 0); [reflexivity|].
      destruct (Z.ltb_spec kn kr); [reflexivity | lia]. }
    rewrite Hc. split; reflexivity.
Qed.

(** The theorem at [n = 5], [r = 2.0]. *)
Lemma permutations_and_combinations_witness :
  exists p c : Z,
    _npr sample_host (VInt 5) (VFloat 2) = Ok (VInt p)
    /\ _ncr (VInt 5) (VFloat 2) = Ok (VInt c)
    /\ p * factorial_nat (Z.to_nat (5 - 2)) = factorial_nat (Z.to_nat 5)
    /\ c * factorial_nat (Z.to_nat 2) = p
    /\ c = binomial (Z.to_nat 5) (Z.to_nat 2).
Proof.
  apply (permutations_and_combinations sample_host (VInt 5) (VFloat 2)
           5%float 2%float 5 2);
    try (vm_compute; reflexivity); try lia.
Defined.

(** ** Unbound names and divisions by zero *)

Lemma alpha_code (c : N) :
  is_alpha c = true <-> (65 <= c <= 90 \/ 97 <= c <= 122 \/ c = 95)%N.
Proof.
  unfold is_alpha.
  rewrite !orb_true_iff, !andb_true_iff, !N.leb_le, N.eqb_eq. tauto.
Qed.

Lemma digit_code_iff (c : N) : is_digit c = true <-> (48 <= c <= 57)%N.
Proof. unfold is_digit. rewrite andb_true_iff, !N.leb_le. tauto. Qed.

Lemma space_code (c : N) : isspace c = true -> (c < 48 \/ 122 < c)%N.
Proof.
  unfold isspace.
  rewrite !orb_true_iff, !andb_true_iff, !N.leb_le, !N.eqb_eq. lia.
Qed.

Lemma alnum_is_solid (c : N) : is_alnum c = true -> solid_char c.
Proof.
  intros H. split.
  - unfold allowed_char. unfold is_alnum in H.
    destruct (is_digit c), (is_alpha c); try discriminate; reflexivity.
  - destruct (isspace c) eqn:E; [|reflexivity].
    apply space_code in E. unfold is_alnum in H.
    apply orb_true_iff in H. rewrite alpha_code, digit_code_iff in H. lia.
Qed.

Lemma span_all (p : N -> bool) (s : pystr) :
  forallb p s = true -> span p s = (s, []).
Proof.
  induction s as [|c s IH]; [reflexivity|]. cbn. intros H.
  apply andb_prop in H. destruct H as [-> Hs]. rewrite (IH Hs). reflexivity.
Qed.

Lemma pystr_eqb_refl (s : pystr) : PyStr.eqb s s = true.
Proof.
  induction s as [|c s IH]; [reflexivity|]. cbn.
  rewrite N.eqb_refl, IH. reflexivity.
Qed.

Lemma pystr_eqb_neq (s t : pystr) : s <> t -> PyStr.eqb s t = false.
Proof.
  intros H. destruct (PyStr.eqb s t) eqn:E; [|reflexivity].
  apply pystr_eqb_eq in E. contradiction.
Qed.

(** An identifier is one token. *)
Lemma tokenize_identifier (name : pystr) :
  identifier name = true -> is_reserved name = false ->
  tokenize name = Tokens [TName name].
Proof.
  intros Hid Hres. destruct name as [|c rest]; [discriminate|].
  cbn [identifier] in Hid. apply andb_prop in Hid. destruct Hid as [Hc Hall].
  unfold tokenize. cbn [List.length lex].
  pose proof (proj1 (alpha_code c) Hc) as Hcode.
  assert (H1 : ((c =? 32) || (c =? 9))%N = false).
  { destruct (N.eqb_spec c 32), (N.eqb_spec c 9); try lia; reflexivity. }
  assert (H2 : is_digit c = false).
  { destruct (is_digit c) eqn:E; [|reflexivity].
    apply digit_code_iff in E. lia. }
  assert (H3 : (c =? 46)%N = false).
  { destruct (N.eqb_spec c 46); [lia | reflexivity]. }
  rewrite H1, H2, H3, Hc. cbn [orb andb].
  rewrite (span_all is_alnum (c :: rest) Hall), Hres.
  reflexivity.
Qed.

(** A name that [safe_env] does not bind (and that is no reserved word)
    is answered by ["Error: Invalid Expression"], and the instance is left
    as it was. *)
Theorem unbound_name_is_invalid (h : host) (name : pystr) (st : calc) :
  identifier name = true ->
  is_reserved name = false ->
  lookup name safe_env = None ->
  name <> invalid_marker ->
  evaluate h name st = Some (py "Error: Invalid Expression", st).
Proof.
  intros Hid Hres Hlook Hmark.
  assert (Hsolid : Forall solid_char name).
  { destruct name as [|c rest]; [discriminate|].
    cbn [identifier] in Hid. apply andb_prop in Hid. destruct Hid as [_ Hall].
    rewrite forallb_forall in Hall. apply Forall_forall.
    intros x Hx. apply alnum_is_solid, Hall, Hx. }
  unfold evaluate. rewrite (solid_is_fixed name Hsolid).
  assert (Hne : name <> []) by (destruct name; [discriminate | congruence]).
  rewrite (pystr_eqb_neq _ _ Hne), (pystr_eqb_neq _ _ Hmark).
  unfold py_eval, parse. rewrite (tokenize_identifier name Hid Hres).
  change (parse_tokens [TName name]) with (Tree (EName name)).
  cbn [eval_expr]. rewrite Hlook. reflexivity.
Qed.

(** The theorem at [__import__]. *)
Lemma unbound_name_is_invalid_witness :
  evaluate sample_host (py "__import__") new_calc
  = Some (py "Error: Invalid Expression", new_calc).
Proof.
  apply (unbound_name_is_invalid sample_host (py "__import__") new_calc);
    try reflexivity.
  discriminate.
Defined.




(** ** The history is not read; the logarithms *)






(** ** Evaluating a result again *)

Lemma digits_value_fold (s : pystr) : digits_value s = fold_left horner s 0.
Proof. reflexivity. Qed.

Lemma of_uint_acc_fold (d : Decimal.uint) :
  forall acc : positive,
    Zpos (Pos.of_uint_acc d acc)
    = fold_left horner (py (NilEmpty.string_of_uint d)) (Zpos acc).
Proof.
  induction d; intros acc; cbn [Pos.of_uint_acc NilEmpty.string_of_uint];
    [reflexivity | rewrite py_cons, IHd; cbn [fold_left]; f_equal;
                   unfold horner;
                   match goal with
                   | |- context [Z.of_N ?x] =>
                       let k := fresh "k" in
                       set (k := Z.of_N x); vm_compute in k; subst k
                   end; lia ..].
Qed.

Lemma of_uint_fold (d : Decimal.uint) :
  Z.of_N (Pos.of_uint d)
  = fold_left horner (py (NilEmpty.string_of_uint d)) 0.
Proof.
  induction d; cbn [Pos.of_uint NilEmpty.string_of_uint];
    [reflexivity | rewrite py_cons; cbn [fold_left] ..].
  - exact IHd.
  - cbn [Z.of_N]. rewrite of_uint_acc_fold. reflexivity.
  - cbn [Z.of_N]. rewrite of_uint_acc_fold. reflexivity.
  - cbn [Z.of_N]. rewrite of_uint_acc_fold. reflexivity.
  - cbn [Z.of_N]. rewrite of_uint_acc_fold. reflexivity.
  - cbn [Z.of_N]. rewrite of_uint_acc_fold. reflexivity.
  - cbn [Z.of_N]. rewrite of_uint_acc_fold. reflexivity.
  - cbn [Z.of_N]. rewrite of_uint_acc_fold. reflexivity.
  - cbn [Z.of_N]. rewrite of_uint_acc_fold. reflexivity.
  - cbn [Z.of_N]. rewrite of_uint_acc_fold. reflexivity.
Qed.

(** The decimal digits of a positive number do not start with a zero. *)
Lemma to_uint_head (p : positive) :
  match Pos.to_uint p with
  | Decimal.Nil | Decimal.D0 _ => False
  | _ => True
  end.
Proof.
  pose proof (DecimalPos.Unsigned.to_of (Pos.to_uint p)) as H.
  rewrite DecimalPos.Unsigned.of_to in H. cbn [N.to_uint] in H.
  pose proof (DecimalPos.Unsigned.to_uint_nonzero p) as Hnz.
  pose proof (DecimalFacts.nzhead_nonzero (Pos.to_uint p)) as Hh.
  unfold Decimal.unorm in H.
  destruct (Decimal.nzhead (Pos.to_uint p)) eqn:E;
    try (rewrite H; exact I).
  - congruence.
  - exfalso. exact (Hh _ eq_refl).
Qed.

Lemma str_of_int_pos (p : positive) :
  str_of_int (Zpos p) = py (NilEmpty.string_of_uint (Pos.to_uint p)).
Proof.
  unfold str_of_int. cbn [Z.to_int NilZero.string_of_int].
  pose proof (to_uint_head p) as H.
  destruct (Pos.to_uint p); try contradiction; reflexivity.
Qed.

Lemma str_of_int_neg (p : positive) :
  str_of_int (Zneg p) = 45%N :: str_of_int (Zpos p).
Proof.
  rewrite str_of_int_pos. unfold str_of_int.
  cbn [Z.to_int NilZero.string_of_int].
  pose proof (to_uint_head p) as H.
  destruct (Pos.to_uint p); try contradiction; reflexivity.
Qed.

(** The text of a natural number is a numeral that denotes it. *)
Lemma str_of_int_numeral (z : Z) :
  0 <= z -> numeral (str_of_int z) /\ digits_value (str_of_int z) = z.
Proof.
  intros Hz. destruct z as [|p|p]; [| |lia].
  - split; [split|]; [|exact I|reflexivity].
    constructor; [unfold digit_code; cbn; lia | constructor].
  - rewrite str_of_int_pos. split; [split|].
    + apply uint_text_digits.
    + pose proof (to_uint_head p) as H.
      destruct (Pos.to_uint p) as [|d|d|d|d|d|d|d|d|d|d]; try contradiction;
        cbn [NilEmpty.string_of_uint]; rewrite py_cons;
        (destruct (py (NilEmpty.string_of_uint d)); [exact I|discriminate]).
    + rewrite digits_value_fold, <- of_uint_fold, DecimalPos.Unsigned.of_to.
      reflexivity.
Qed.

Lemma horner_bounds (s : pystr) :
  Forall digit_code s ->
  forall acc : Z,
    0 <= acc ->
    acc * 10 ^ Z.of_nat (List.length s) <= fold_left horner s acc
    /\ fold_left horner s acc < (acc + 1) * 10 ^ Z.of_nat (List.length s).
Proof.
  induction 1 as [|c s Hc Hs IH]; intros acc Hacc.
  - cbn. lia.
  - cbn [fold_left List.length]. rewrite Nat2Z.inj_succ, Z.pow_succ_r by lia.
    assert (Hd : 0 <= Z.of_N (c - 48) <= 9) by (unfold digit_code in Hc; lia).
    destruct (IH (horner acc c) ltac:(unfold horner; lia)) as [Hlo Hhi].
    assert (Hp : 0 < 10 ^ Z.of_nat (List.length s))
      by (apply Z.pow_pos_nonneg; lia).
    unfold horner in *. split; nia.
Qed.

(** A numeral has as many digits as [digit_count] says. *)
Lemma numeral_length (s : pystr) :
  numeral s -> Z.of_nat (List.length s) = digit_count (digits_value s).
Proof.
  intros [Hd Hh]. destruct s as [|c rest]; [contradiction|].
  inversion Hd as [|? ? Hc Hrest]; subst.
  destruct rest as [|c' rest'].
  { assert (Hcases : In c [48; 49; 50; 51; 52; 53; 54; 55; 56; 57]%N)
      by (unfold digit_code in Hc; cbn; lia).
    cbn in Hcases.
    repeat (destruct Hcases as [<-|Hcases]; [reflexivity|]).
    destruct Hcases. }
  rewrite digits_value_fold.
  change (fold_left horner (c :: c' :: rest') 0)
    with (fold_left horner (c' :: rest') (horner 0 c)).
  assert (Hv : horner 0 c = Z.of_N (c - 48)) by (unfold horner; lia).
  rewrite Hv.
  assert (Hc1 : 1 <= Z.of_N (c - 48) <= 9).
  { unfold zero_char in Hh. unfold digit_code in Hc. lia. }
  destruct (horner_bounds (c' :: rest') Hrest (Z.of_N (c - 48)) ltac:(lia))
    as [Hlo Hhi].
  change (List.length (c :: c' :: rest'))
    with (S (List.length (c' :: rest'))).
  set (v := fold_left horner (c' :: rest') (Z.of_N (c - 48))) in *.
  set (n := Z.of_nat (List.length (c' :: rest'))) in *.
  assert (Hn : 0 <= n) by lia.
  assert (Hp : 0 < 10 ^ n) by (apply Z.pow_pos_nonneg; lia).
  rewrite Nat2Z.inj_succ. fold n.
  assert (Hvpos : v <> 0) by nia.
  destruct (digit_count_spec v Hvpos) as [Hdpos [Hdlo Hdhi]].
  rewrite Z.abs_eq in Hdlo, Hdhi by nia.
  assert (H1 : 10 ^ n <= v) by nia.
  assert (H2 : v < 10 ^ (Z.succ n)) by (rewrite Z.pow_succ_r by lia; nia).
  set (d := digit_count v) in *.
  destruct (Z.lt_trichotomy (Z.succ n) d) as [Hlt|[Heq|Hgt]];
    [|exact Heq|].
  - assert (10 ^ Z.succ n <= 10 ^ (d - 1))
      by (apply Z.pow_le_mono_r; lia). lia.
  - assert (10 ^ d <= 10 ^ n) by (apply Z.pow_le_mono_r; lia). lia.
Qed.

Lemma digits_are_digits (s : pystr) :
  Forall digit_code s -> forallb is_digit s = true.
Proof.
  intros H. apply forallb_forall. intros c Hc. rewrite Forall_forall in H.
  apply digit_code_iff. exact (H c Hc).
Qed.

Lemma lex_number_numeral (s : pystr) :
  numeral s -> (List.length s <= 640)%nat ->
  lex_number s = Some (TInt (digits_value s), []).
Proof.
  intros [Hd Hh] Hlen. unfold lex_number.
  rewrite (span_all is_digit s (digits_are_digits s Hd)).
  cbv beta iota zeta. cbn [lex_exponent].
  destruct s as [|c [|c2 rest]]; [contradiction | reflexivity|].
  destruct (N.eqb_spec c 48) as [->|_]; [contradiction Hh; reflexivity|].
  destruct (Nat.ltb_spec 640 (List.length (c :: c2 :: rest))); [lia|].
  reflexivity.
Qed.

Lemma lex_numeral (s : pystr) (fuel : nat) :
  numeral s -> (List.length s <= 640)%nat -> (List.length s < fuel)%nat ->
  lex fuel s = Tokens [TInt (digits_value s)].
Proof.
  intros Hn Hlen Hfuel. pose proof Hn as [Hd Hh].
  destruct fuel as [|fuel]; [lia|].
  destruct s as [|c rest]; [contradiction|].
  inversion Hd as [|? ? Hc Hrest]; subst.
  cbn [lex].
  assert (H1 : ((c =? 32) || (c =? 9))%N = false).
  { unfold digit_code in Hc.
    destruct (N.eqb_spec c 32), (N.eqb_spec c 9); try lia; reflexivity. }
  assert (H2 : is_digit c = true) by (apply digit_code_iff; exact Hc).
  rewrite H1, H2. cbn [orb].
  rewrite (lex_number_numeral (c :: rest) Hn Hlen).
  cbn [List.length] in Hfuel.
  destruct fuel as [|fuel]; [lia | reflexivity].
Qed.

Lemma str_of_int_not_marker (z : Z) : str_of_int z <> invalid_marker.
Proof.
  intros H. pose proof (str_of_int_chars z) as Hc. rewrite H in Hc.
  inversion Hc as [|? ? Hx _]; subst. unfold digit_code in Hx. lia.
Qed.

Lemma str_of_int_not_empty (z : Z) : str_of_int z <> [].
Proof.
  destruct z as [|p|p].
  - discriminate.
  - destruct (str_of_int_numeral (Zpos p) ltac:(lia)) as [[_ H] _].
    intros E. rewrite E in H. exact H.
  - rewrite str_of_int_neg. discriminate.
Qed.

Lemma parse_of_natural (z : Z) :
  0 <= z -> digit_count z <= 640 ->
  forall fuel, (List.length (str_of_int z) < fuel)%nat ->
    lex fuel (str_of_int z) = Tokens [TInt z].
Proof.
  intros Hz Hd fuel Hfuel.
  destruct (str_of_int_numeral z Hz) as [Hn Hv].
  pose proof (numeral_length _ Hn) as Hl. rewrite Hv in Hl.
  rewrite (lex_numeral _ fuel Hn ltac:(lia) Hfuel), Hv. reflexivity.
Qed.

(** The text of an integer of at most 640 digits evaluates to that
    integer and is answered by the same text. *)
Theorem integer_text_evaluates_to_itself (h : host) (z : Z) (st : calc) :
  digit_count z <= 640 ->
  evaluate h (str_of_int z) st
  = Some (str_of_int z, append_history (str_of_int z, VInt z) st).
Proof.
  intros Hd. unfold evaluate.
  rewrite (solid_is_fixed _ (str_of_int_solid z)).
  rewrite (pystr_eqb_neq _ _ (str_of_int_not_empty z)),
    (pystr_eqb_neq _ _ (str_of_int_not_marker z)).
  assert (Hfmt : _format_result h (VInt z) = Ok (str_of_int z)).
  { cbn [_format_result py_str py_repr]. unfold int_text.
    destruct (Z.ltb_spec 640 (digit_count z)); [lia | reflexivity]. }
  assert (Hev : py_eval h (str_of_int z) st = Return (VInt z) st).
  { unfold py_eval, parse, tokenize. destruct z as [|p|p].
    - reflexivity.
    - rewrite (parse_of_natural (Zpos p) ltac:(lia) Hd) by lia.
      reflexivity.
    - rewrite str_of_int_neg.
      change (digit_count (Zneg p)) with (digit_count (Zpos p)) in Hd.
      change (lex (S (List.length (45%N :: str_of_int (Zpos p))))
                  (45%N :: str_of_int (Zpos p)))
        with (lex_cons TMinus
                (lex (S (List.length (str_of_int (Zpos p))))
                     (str_of_int (Zpos p)))).
      rewrite (parse_of_natural (Zpos p) ltac:(lia) Hd) by lia.
      reflexivity. }
  rewrite Hev, Hfmt. reflexivity.
Qed.

(** The theorem at [-120]. *)
Lemma integer_text_evaluates_to_itself_witness :
  evaluate sample_host (py "-120") new_calc
  = Some (py "-120", append_history (py "-120", VInt (-120)) new_calc).
Proof.
  apply (integer_text_evaluates_to_itself sample_host (-120) new_calc).
  vm_compute. discriminate.
Defined.

(** ** The text of a number

    The text of a finite float in [.12g] notation is determined by its
    value: [general_notation] says what it is, [format_g 12] returns a
    text that [general_notation] accepts, and [general_notation] accepts
    one text only. *)

Lemma round_half_even_tie (num den : Z) :
  0 < den -> 0 <= num ->
  Z.abs (2 * (round_half_even num den * den - num)) = den ->
  Z.even (round_half_even num den) = true.
Proof.
  intros Hd Hn. unfold round_half_even.
  pose proof (Z.div_mod num den ltac:(lia)) as Hdm.
  pose proof (Z.mod_pos_bound num den Hd) as Hm.
  destruct (Z.compare_spec (2 * (num mod den)) den) as [E|E|E].
  - intros _. destruct (Z.even (num / den)) eqn:Ev; [exact Ev|].
    rewrite Z.add_1_r, Z.even_succ, <- Z.negb_even, Ev. reflexivity.
  - intros H. exfalso. nia.
  - intros H. exfalso. nia.
Qed.

(** What [significand] computes: the decade of the value, the value
    scaled to [p] digits and rounded, and the carry when the rounding
    reaches [10^p]. *)
Lemma significand_nearest (p n d : Z) :
  1 <= p -> 0 < n -> 0 < d ->
  exists q0 : Z,
    nearest_even n d (p - 1 - dec_exponent n d) q0
    /\ q0 <= 10 ^ p
    /\ significand p n d
       = if q0 =? 10 ^ p then (10 ^ (p - 1), dec_exponent n d + 1)
         else (q0, dec_exponent n d).
Proof.
  intros Hp Hn Hd.
  pose proof (scaled_bounds p n d Hp Hn Hd) as Hb. cbv zeta in Hb.
  unfold significand, nearest_even.
  set (e := dec_exponent n d) in *. set (k := p - 1 - e) in *.
  destruct (Z.leb_spec 0 k) as [Hk|Hk].
  - destruct Hb as [_ Hb].
    assert (HK : 0 < 10 ^ k) by (apply pow10_pos; lia).
    assert (Hnum : 0 <= n * 10 ^ k) by nia.
    destruct (round_half_even_spec (n * 10 ^ k) d Hd Hnum) as [Hr Hn'].
    pose proof (round_half_even_tie (n * 10 ^ k) d Hd Hnum) as Ht.
    exists (round_half_even (n * 10 ^ k) d).
    split; [split; assumption|]. split; [|reflexivity].
    assert (n * 10 ^ k / d < 10 ^ p)
      by (apply Z.div_lt_upper_bound; lia).
    lia.
  - destruct Hb as [Hden Hb].
    destruct (round_half_even_spec n (d * 10 ^ (- k)) Hden ltac:(lia))
      as [Hr Hn'].
    pose proof (round_half_even_tie n (d * 10 ^ (- k)) Hden ltac:(lia)) as Ht.
    exists (round_half_even n (d * 10 ^ (- k))).
    split; [split; assumption|]. split; [|reflexivity].
    assert (n / (d * 10 ^ (- k)) < 10 ^ p)
      by (apply Z.div_lt_upper_bound; lia).
    lia.
Qed.

Lemma drop_zeros_prefix (s : pystr) :
  exists k : nat, s = repeat 48%N k ++ drop_zeros s.
Proof.
  induction s as [|c s [k IH]]; [exists 0%nat; reflexivity|].
  cbn [drop_zeros]. destruct (N.eqb_spec c zero_char) as [->|Hc].
  - exists (S k). cbn [repeat app]. f_equal. exact IH.
  - exists 0%nat. reflexivity.
Qed.

Lemma rev_zeros (k : nat) : rev (repeat 48%N k) = repeat 48%N k.
Proof.
  induction k as [|k IH]; [reflexivity|].
  cbn [repeat rev]. rewrite IH. symmetry. apply (repeat_cons k 48%N).
Qed.

(** [strip_zeros] removes the trailing zeros, all of them and nothing
    else. *)
Lemma strip_zeros_trimmed (rest : pystr) : trimmed (strip_zeros rest) rest.
Proof.
  split.
  - destruct (drop_zeros_prefix (rev rest)) as [k Hk]. exists k.
    unfold strip_zeros.
    rewrite <- (rev_involutive rest) at 1. rewrite Hk at 1.
    rewrite rev_app_distr, rev_zeros. reflexivity.
  - destruct (strip_zeros rest) as [|a l] eqn:E; [left; reflexivity|right].
    destruct (exists_last (l := a :: l) ltac:(discriminate)) as [body [c Hc]].
    rewrite Hc, last_last.
    apply (strip_zeros_last rest body). congruence.
Qed.

Lemma with_point_text (int rest : pystr) :
  with_point int rest = int ++ fraction_text (strip_zeros rest).
Proof.
  unfold with_point, fraction_text.
  destruct (strip_zeros rest); [rewrite app_nil_r|]; reflexivity.
Qed.

Lemma digits_of_codes (k : nat) :
  forall (n : Z) (acc : pystr),
    Forall digit_code acc -> Forall digit_code (digits_of k n acc).
Proof.
  induction k as [|k IH]; intros n acc Hacc; cbn [digits_of]; [exact Hacc|].
  apply IH. constructor; [|exact Hacc].
  unfold digit_code, digit.
  pose proof (Z.mod_pos_bound n 10 ltac:(lia)). lia.
Qed.

Lemma digit_count_pos (z : Z) : 0 < digit_count z.
Proof.
  destruct (Z.eq_dec z 0) as [->|Hz]; [reflexivity|].
  apply (digit_count_spec z Hz).
Qed.

(** The exponent of the scientific layout: [e], a sign, and the decimal
    exponent on at least two digits. *)
Lemma exponent_text_digits (x : Z) :
  exists exd : pystr,
    exponent_text x = 101%N :: (if x <? 0 then 45%N else 43%N) :: exd
    /\ decimal exd (Z.abs x)
    /\ (List.length exd = 2%nat
        \/ (2 < List.length exd)%nat /\ hd 0%N exd <> 48%N).
Proof.
  destruct (str_of_int_numeral (Z.abs x) (Z.abs_nonneg x)) as [Hnum Hval].
  pose proof (numeral_length _ Hnum) as Hlen. rewrite Hval in Hlen.
  rewrite digits_value_fold in Hval.
  unfold exponent_text.
  destruct (Z.ltb_spec (Z.abs x) 10) as [Hs|Hs].
  - exists (zero_char :: str_of_int (Z.abs x)).
    split; [destruct (x <? 0); reflexivity|]. split.
    + split; [constructor; [unfold digit_code, zero_char; lia | apply Hnum]|].
      cbn [fold_left]. exact Hval.
    + left. cbn [List.length]. f_equal.
      pose proof (digit_count_small (Z.abs x) 1 ltac:(lia)) as Hle.
      rewrite Z.abs_idemp in Hle. specialize (Hle ltac:(lia)).
      pose proof (digit_count_pos (Z.abs x)). lia.
  - exists (str_of_int (Z.abs x)).
    split; [destruct (x <? 0); reflexivity|]. split.
    + split; [apply Hnum | exact Hval].
    + pose proof (digit_count_lower (Z.abs x) 1) as Hlo.
      rewrite Z.abs_idemp in Hlo.
      specialize (Hlo ltac:(lia) ltac:(lia)).
      destruct (Nat.eq_dec (List.length (str_of_int (Z.abs x))) 2) as [E|E];
        [left; exact E | right].
      split; [lia|].
      destruct Hnum as [_ Hh].
      destruct (str_of_int (Z.abs x)) as [|c [|c' l]];
        [contradiction | cbn [List.length] in *; lia | exact Hh].
Qed.

Lemma fraction_of_value (m : positive) (e : Z) :
  fraction_of m e = (Zpos m * 2 ^ Z.max 0 e, 2 ^ Z.max 0 (- e)).
Proof.
  unfold fraction_of. destruct (Z.leb_spec 0 e).
  - rewrite (Z.max_r 0 e), (Z.max_l 0 (- e)) by lia. reflexivity.
  - rewrite (Z.max_l 0 e), (Z.max_r 0 (- e)) by lia.
    rewrite Z.pow_0_r, Z.mul_1_r. reflexivity.
Qed.

(** [format_g 12] on a finite float gives the general notation of its
    value. *)
Lemma format_g_general (f : float) (s : bool) (m : positive) (e : Z) :
  Prim2SF f = S754_finite s m e ->
  general_notation s (Zpos m * 2 ^ Z.max 0 e) (2 ^ Z.max 0 (- e))
                   (format_g 12 f).
Proof.
  intros Hf. unfold format_g. rewrite Hf.
  pose proof (fraction_of_pos m e) as [Hn Hd].
  rewrite fraction_of_value in *. cbn [fst snd] in Hn, Hd.
  set (n := Zpos m * 2 ^ Z.max 0 e) in *. set (d := 2 ^ Z.max 0 (- e)) in *.
  pose proof (significand_spec 12 n d ltac:(lia) Hn Hd) as Hr.
  destruct (significand_nearest 12 n d ltac:(lia) Hn Hd) as [q0 [Hq0 [Hle Hs]]].
  pose proof (dec_exponent_spec n d Hn Hd) as Hdec.
  destruct (significand 12 n d) as [q x]. cbn [fst snd] in Hr.
  set (ds := digits_of (Z.to_nat 12) q []).
  assert (Hlen : List.length ds = 12%nat) by apply digits_of_length.
  assert (Hds : decimal ds q).
  { split; [apply digits_of_codes; constructor|].
    rewrite <- digits_value_fold. apply digits_of_denote.
    destruct Hr as [[Hlo Hhi] _].
    change (Z.of_nat (Z.to_nat 12)) with 12.
    assert (0 < 10 ^ (12 - 1)) by (apply pow10_pos; lia). lia. }
  assert (Hqx : q0 = 10 ^ 12 /\ q = 10 ^ 11 /\ x = dec_exponent n d + 1
                \/ q0 < 10 ^ 12 /\ q = q0 /\ x = dec_exponent n d).
  { destruct (Z.eqb_spec q0 (10 ^ 12)) as [E|E]; injection Hs as -> ->.
    - left. split; [exact E|]. split; reflexivity.
    - right. split; [lia|]. split; reflexivity. }
  unfold general_notation, layout.
  destruct ((-4 <=? x) && (x <? 12)) eqn:Hfix.
  - destruct (Z.leb_spec 0 x) as [Hx|Hx].
    + exists (dec_exponent n d), q0, q, x, ds,
        (firstn (Z.to_nat (x + 1)) ds), (skipn (Z.to_nat (x + 1)) ds),
        (strip_zeros (skipn (Z.to_nat (x + 1)) ds)), [].
      split; [exact Hdec|]. split; [exact Hq0|]. split; [exact Hqx|].
      split; [exact Hr|]. split; [exact Hlen|]. split; [exact Hds|].
      split; [apply strip_zeros_trimmed|]. split.
      { rewrite with_point_text, app_nil_r. destruct s; reflexivity. }
      rewrite Hfix. split; [reflexivity|].
      destruct (Z.leb_spec 0 x); [|lia].
      split; [apply firstn_skipn|].
      rewrite length_firstn, Hlen.
      apply andb_prop in Hfix. destruct Hfix as [_ Hhi].
      apply Z.ltb_lt in Hhi. lia.
    + exists (dec_exponent n d), q0, q, x, ds, [48%N],
        (repeat zero_char (Z.to_nat (- x - 1)) ++ ds),
        (strip_zeros (repeat zero_char (Z.to_nat (- x - 1)) ++ ds)), [].
      split; [exact Hdec|]. split; [exact Hq0|]. split; [exact Hqx|].
      split; [exact Hr|]. split; [exact Hlen|]. split; [exact Hds|].
      split; [apply strip_zeros_trimmed|]. split.
      { rewrite with_point_text, app_nil_r. destruct s; reflexivity. }
      rewrite Hfix. split; [reflexivity|].
      destruct (Z.leb_spec 0 x); [lia|].
      split; reflexivity.
  - exists (dec_exponent n d), q0, q, x, ds, (firstn 1 ds), (skipn 1 ds),
      (strip_zeros (skipn 1 ds)), (exponent_text x).
    split; [exact Hdec|]. split; [exact Hq0|]. split; [exact Hqx|].
    split; [exact Hr|]. split; [exact Hlen|]. split; [exact Hds|].
    split; [apply strip_zeros_trimmed|]. split.
    { rewrite with_point_text, <- app_assoc. destruct s; reflexivity. }
    rewrite Hfix. split; [apply firstn_skipn|].
    split; [rewrite length_firstn, Hlen; reflexivity|].
    apply exponent_text_digits.
Qed.

(** *** The general notation of a value is one text *)

Lemma decade_unique (n d a b : Z) :
  0 < n -> 0 < d -> decade n d a -> decade n d b -> a = b.
Proof.
  assert (Hlt : forall a b, 0 < n -> 0 < d -> a < b ->
                            decade n d a -> decade n d b -> False).
  { clear a b. intros a b Hn Hd Hab. unfold decade.
    destruct (Z.leb_spec 0 a) as [Ha|Ha]; destruct (Z.leb_spec 0 b) as [Hb|Hb];
      intros [_ H1] [H2 _]; try lia.
    - assert (10 ^ (a + 1) <= 10 ^ b) by (apply Z.pow_le_mono_r; lia).
      assert (0 < 10 ^ (a + 1)) by (apply pow10_pos; lia). nia.
    - assert (10 ^ 1 <= 10 ^ (- a)) by (apply Z.pow_le_mono_r; lia).
      assert (1 <= 10 ^ b) by (pose proof (pow10_pos b Hb); lia).
      rewrite Z.pow_1_r in *. nia.
    - assert (E : 10 ^ (- a) = 10 ^ (- a - - b) * 10 ^ (- b)).
      { rewrite <- Z.pow_add_r by lia. f_equal. lia. }
      assert (10 ^ 1 <= 10 ^ (- a - - b)) by (apply Z.pow_le_mono_r; lia).
      assert (0 < 10 ^ (- b)) by (apply pow10_pos; lia).
      rewrite Z.pow_1_r in *. rewrite E in H1.
      remember (10 ^ (- b)) as B. remember (10 ^ (- a - - b)) as C. nia. }
  intros Hn Hd Ha Hb.
  destruct (Z.lt_trichotomy a b) as [H|[H|H]]; [|exact H|].
  - exfalso. exact (Hlt a b Hn Hd H Ha Hb).
  - exfalso. exact (Hlt b a Hn Hd H Hb Ha).
Qed.

Lemma nearest_unique (num den q q' : Z) :
  0 < den ->
  Z.abs (2 * (q * den - num)) <= den ->
  (Z.abs (2 * (q * den - num)) = den -> Z.even q = true) ->
  Z.abs (2 * (q' * den - num)) <= den ->
  (Z.abs (2 * (q' * den - num)) = den -> Z.even q' = true) ->
  q = q'.
Proof.
  intros Hd H1 E1 H2 E2.
  assert (Hc : q' = q + 1 \/ q = q' + 1 \/ q = q') by nia.
  destruct Hc as [->|[->|Hc]]; [| |exact Hc]; exfalso.
  - specialize (E1 ltac:(nia)). specialize (E2 ltac:(nia)).
    rewrite Z.add_1_r, Z.even_succ, <- Z.negb_even, E1 in E2. discriminate.
  - specialize (E1 ltac:(nia)). specialize (E2 ltac:(nia)).
    rewrite Z.add_1_r, Z.even_succ, <- Z.negb_even, E2 in E1. discriminate.
Qed.

Lemma nearest_even_unique (n d k q q' : Z) :
  0 < d -> nearest_even n d k q -> nearest_even n d k q' -> q = q'.
Proof.
  unfold nearest_even. intros Hd.
  destruct (Z.leb_spec 0 k) as [Hk|Hk]; intros [H1 E1] [H2 E2].
  - exact (nearest_unique (n * 10 ^ k) d q q' Hd H1 E1 H2 E2).
  - assert (0 < 10 ^ (- k)) by (apply pow10_pos; lia).
    apply (nearest_unique n (d * 10 ^ (- k)) q q'); try assumption. nia.
Qed.

(** Two digit strings of one length that denote one number are one
    string. *)
Lemma digits_inj (a : pystr) :
  forall (b : pystr) (acc : Z),
    Forall digit_code a -> Forall digit_code b ->
    List.length a = List.length b -> 0 <= acc ->
    fold_left horner a acc = fold_left horner b acc -> a = b.
Proof.
  induction a as [|c a IH]; intros [|c' b] acc Ha Hb Hl Hacc Hv;
    try discriminate; [reflexivity|].
  inversion Ha as [|? ? Hc Ha']; subst. inversion Hb as [|? ? Hc' Hb']; subst.
  cbn [fold_left] in Hv. cbn [List.length] in Hl.
  assert (Hh : 0 <= horner acc c /\ 0 <= horner acc c')
    by (unfold horner; lia).
  destruct (horner_bounds a Ha' (horner acc c) ltac:(lia)) as [L1 U1].
  destruct (horner_bounds b Hb' (horner acc c') ltac:(lia)) as [L2 U2].
  replace (List.length b) with (List.length a) in L2, U2 by lia.
  assert (Hp : 0 < 10 ^ Z.of_nat (List.length a))
    by (apply Z.pow_pos_nonneg; lia).
  rewrite Hv in *.
  assert (E : horner acc c = horner acc c').
  { remember (horner acc c) as ha. remember (horner acc c') as hb.
    remember (10 ^ Z.of_nat (List.length a)) as P.
    destruct (Z.lt_trichotomy ha hb) as [H|[H|H]]; [|exact H|]; exfalso.
    - assert (H0 : (ha + 1) * P <= hb * P)
        by (apply Z.mul_le_mono_nonneg_r; lia).
      apply (Z.lt_irrefl (fold_left horner b hb)).
      eapply Z.lt_le_trans; [exact U1|].
      eapply Z.le_trans; [exact H0 | exact L2].
    - assert (H0 : (hb + 1) * P <= ha * P)
        by (apply Z.mul_le_mono_nonneg_r; lia).
      apply (Z.lt_irrefl (fold_left horner b hb)).
      eapply Z.lt_le_trans; [exact U2|].
      eapply Z.le_trans; [exact H0 | exact L1]. }
  assert (c = c') by (unfold horner, digit_code in *; lia). subst c'.
  f_equal. apply (IH b (horner acc c)); try assumption; lia.
Qed.

Lemma decimal_unique (a b : pystr) (v : Z) :
  decimal a v -> decimal b v -> List.length a = List.length b -> a = b.
Proof.
  intros [Ha Va] [Hb Vb] Hl.
  apply (digits_inj a b 0); try assumption; [lia | congruence].
Qed.

Lemma app_inj_length (a : pystr) :
  forall a' b b' : pystr,
    List.length a = List.length a' -> a ++ b = a' ++ b' -> a = a' /\ b = b'.
Proof.
  induction a as [|c a IH]; intros [|c' a'] b b' Hl H; try discriminate.
  - split; [reflexivity | exact H].
  - cbn [app] in H. injection H as -> H. injection Hl as Hl.
    destruct (IH a' b b' Hl H) as [-> ->]. split; reflexivity.
Qed.

Lemma drop_zeros_repeat (k : nat) (s : pystr) :
  drop_zeros (repeat 48%N k ++ s) = drop_zeros s.
Proof. induction k as [|k IH]; [reflexivity | exact IH]. Qed.

(** What is left of a text without its trailing zeros is what
    [strip_zeros] keeps. *)
Lemma trimmed_strip (frac rest : pystr) :
  trimmed frac rest -> frac = strip_zeros rest.
Proof.
  intros [[k ->] Hlast]. unfold strip_zeros.
  rewrite rev_app_distr, rev_zeros, drop_zeros_repeat.
  destruct (rev frac) as [|c l] eqn:E.
  - apply (f_equal (@rev N)) in E. rewrite rev_involutive in E. exact E.
  - apply (f_equal (@rev N)) in E. rewrite rev_involutive in E.
    cbn [rev] in E. destruct Hlast as [->|Hlast].
    { destruct (rev l); discriminate. }
    rewrite E, last_last in Hlast. cbn [drop_zeros].
    destruct (N.eqb_spec c zero_char) as [Hc|Hc]; [contradiction|].
    rewrite E. cbn [rev]. reflexivity.
Qed.

Lemma trimmed_unique (frac frac' rest : pystr) :
  trimmed frac rest -> trimmed frac' rest -> frac = frac'.
Proof.
  intros H H'. rewrite (trimmed_strip _ _ H), (trimmed_strip _ _ H').
  reflexivity.
Qed.

(** The digits of the exponent are determined by the exponent. *)
Lemma exponent_digits_unique (a b : pystr) (v : Z) :
  decimal a v ->
  List.length a = 2%nat \/ (2 < List.length a)%nat /\ hd 0%N a <> 48%N ->
  decimal b v ->
  List.length b = 2%nat \/ (2 < List.length b)%nat /\ hd 0%N b <> 48%N ->
  a = b.
Proof.
  assert (Hlong : forall s : pystr,
             decimal s v -> (2 < List.length s)%nat -> hd 0%N s <> 48%N ->
             Z.of_nat (List.length s) = digit_count v /\ 100 <= v).
  { intros s [Hs Vs] Hl Hh.
    assert (Hn : numeral s).
    { split; [exact Hs|]. destruct s as [|c [|c' l]];
        [cbn in Hl; lia | cbn in Hl; lia | exact Hh]. }
    pose proof (numeral_length s Hn) as Hlen.
    rewrite digits_value_fold, Vs in Hlen. split; [exact Hlen|].
    destruct s as [|c l]; [cbn in Hl; lia|].
    inversion Hs as [|? ? Hc Hl']; subst.
    cbn [fold_left]. cbn [hd] in Hh.
    destruct (horner_bounds l Hl' (horner 0 c) ltac:(unfold horner; lia))
      as [Lo _].
    assert (10 ^ 2 <= 10 ^ Z.of_nat (List.length l))
      by (apply Z.pow_le_mono_r; cbn [List.length] in Hl; lia).
    assert (1 <= horner 0 c) by (unfold horner, digit_code in *; lia).
    change (10 ^ 2) with 100 in *. nia. }
  assert (Hshort : forall s : pystr,
             decimal s v -> List.length s = 2%nat -> 0 <= v < 100).
  { intros s [Hs Vs] Hl.
    destruct (horner_bounds s Hs 0 ltac:(lia)) as [Lo Hi].
    rewrite Hl, Vs in *. change (10 ^ Z.of_nat 2) with 100 in *. lia. }
  intros Ha [La|[La Ha']] Hb [Lb|[Lb Hb']].
  - apply (decimal_unique a b v); congruence.
  - pose proof (Hshort a Ha La). pose proof (Hlong b Hb Lb Hb'). lia.
  - pose proof (Hshort b Hb Lb). pose proof (Hlong a Ha La Ha'). lia.
  - apply (decimal_unique a b v); try assumption.
    destruct (Hlong a Ha La Ha') as [E1 _].
    destruct (Hlong b Hb Lb Hb') as [E2 _]. lia.
Qed.

Lemma general_notation_unique (neg : bool) (n d : Z) (t t' : pystr) :
  0 < n -> 0 < d ->
  general_notation neg n d t -> general_notation neg n d t' -> t = t'.
Proof.
  intros Hn Hd
    (x0 & q0 & q & x & ds & int & rest & frac & expo
     & Hdec & Hq0 & Hqx & _ & Hlen & Hds & Htr & -> & Hlay)
    (x0' & q0' & q' & x' & ds' & int' & rest' & frac' & expo'
     & Hdec' & Hq0' & Hqx' & _ & Hlen' & Hds' & Htr' & -> & Hlay').
  assert (x0' = x0) by exact (decade_unique n d x0' x0 Hn Hd Hdec' Hdec).
  subst x0'.
  assert (q0' = q0) by exact (nearest_even_unique n d _ q0' q0 Hd Hq0' Hq0).
  subst q0'.
  assert (q' = q /\ x' = x) by lia. destruct H as [-> ->].
  assert (ds' = ds) by (apply (decimal_unique ds' ds q); congruence).
  subst ds'.
  destruct ((-4 <=? x) && (x <? 12)).
  - destruct Hlay as [-> Hlay]. destruct Hlay' as [-> Hlay'].
    destruct (0 <=? x).
    + destruct Hlay as [E L]. destruct Hlay' as [E' L'].
      destruct (app_inj_length int int' rest rest') as [-> ->];
        [congruence | congruence |].
      rewrite (trimmed_unique frac frac' rest' Htr Htr'). reflexivity.
    + destruct Hlay as [-> ->]. destruct Hlay' as [-> ->].
      rewrite (trimmed_unique frac frac' _ Htr Htr'). reflexivity.
  - destruct Hlay as [E [L [exd [-> [Hexd Hel]]]]].
    destruct Hlay' as [E' [L' [exd' [-> [Hexd' Hel']]]]].
    destruct (app_inj_length int int' rest rest') as [-> ->];
      [congruence | congruence |].
    rewrite (trimmed_unique frac frac' rest' Htr Htr').
    rewrite (exponent_digits_unique exd exd' (Z.abs x) Hexd Hel Hexd' Hel').
    reflexivity.
Qed.

(** The two ends of the fixed layout.  The float nearest to [0.0001] has
    the decimal exponent [-4] and is written without an exponent; the one
    nearest to [0.00001] is written [1e-05] and in no other way; and
    [999999999999.5], whose rounding to twelve digits carries, is
    [1e+12]. *)
Example general_notation_thresholds :
  general_notation false 7378697629483821 (2 ^ 66) (py "0.0001")
  /\ general_notation false 5902958103587057 (2 ^ 69) (py "1e-05")
  /\ ~ general_notation false 5902958103587057 (2 ^ 69) (py "0.00001")
  /\ general_notation false 8191999999995904 (2 ^ 13) (py "1e+12").
Proof.
  pose proof (format_g_general 0x1.a36e2eb1c432dp-14%float false
                7378697629483821%positive (-66) eq_refl) as H1.
  pose proof (format_g_general 0x1.4f8b588e368f1p-17%float false
                5902958103587057%positive (-69) eq_refl) as H2.
  pose proof (format_g_general 999999999999.5%float false
                8191999999995904%positive (-13) eq_refl) as H3.
  split; [exact H1|]. split; [exact H2|]. split; [|exact H3].
  intros H.
  assert (E : py "0.00001" = py "1e-05").
  { apply (general_notation_unique false 5902958103587057 (2 ^ 69));
      [reflexivity | reflexivity | exact H | exact H2]. }
  discriminate E.
Qed.

(** *** What the formatter returns *)

(** A finite float is whole-valued when its magnitude [n/d] is an
    integer. *)
Lemma is_integer_whole (f : float) (s : bool) (m : positive) (e : Z) :
  Prim2SF f = S754_finite s m e ->
  is_integer f = true
  <-> exists z : Z, Zpos m * 2 ^ Z.max 0 e = z * 2 ^ Z.max 0 (- e).
Proof.
  intros Hf. unfold is_integer. rewrite Hf.
  destruct (Z.leb_spec 0 e) as [He|He].
  - split; [intros _|reflexivity].
    exists (Zpos m * 2 ^ e).
    rewrite (Z.max_r 0 e), (Z.max_l 0 (- e)) by lia.
    rewrite Z.pow_0_r. lia.
  - cbn [orb]. rewrite (Z.max_l 0 e), (Z.max_r 0 (- e)) by lia.
    rewrite Z.pow_0_r, Z.mul_1_r.
    assert (Hq : 0 < 2 ^ (- e)) by (apply Z.pow_pos_nonneg; lia).
    rewrite Z.eqb_eq. split.
    + intros H0. exists (Zpos m / 2 ^ (- e)).
      pose proof (Z.div_mod (Zpos m) (2 ^ (- e)) ltac:(lia)) as Hdm. lia.
    + intros [z Hz]. rewrite Hz. apply Z.mod_mul. lia.
Qed.

(** The text of an [int]: a minus sign when it is negative, then the
    numeral of its magnitude. *)
Lemma str_of_int_text (z : Z) :
  exists ds : pystr,
    str_of_int z = (if z <? 0 then [45%N] else []) ++ ds
    /\ numeral ds /\ decimal ds (Z.abs z).
Proof.
  destruct z as [|p|p].
  - exists (str_of_int 0). destruct (str_of_int_numeral 0 ltac:(lia)) as [H V].
    split; [reflexivity|]. split; [exact H|]. split; [apply H | exact V].
  - exists (str_of_int (Zpos p)).
    destruct (str_of_int_numeral (Zpos p) ltac:(lia)) as [H V].
    split; [reflexivity|]. split; [exact H|]. split; [apply H | exact V].
  - exists (str_of_int (Zpos p)).
    destruct (str_of_int_numeral (Zpos p) ltac:(lia)) as [H V].
    split; [apply str_of_int_neg|]. split; [exact H|].
    split; [apply H | exact V].
Qed.

Lemma format_result_special (h : host) (f : float) :
  (Prim2SF f = S754_nan -> _format_result h (VFloat f) = Ok (py "nan"))
  /\ (forall s : bool,
         Prim2SF f = S754_infinity s ->
         _format_result h (VFloat f)
         = Ok (if s then py "-inf" else py "inf"))
  /\ (forall s : bool,
         Prim2SF f = S754_zero s ->
         _format_result h (VFloat f) = Ok (py "0")).
Proof.
  split; [|split].
  - intros Hf. unfold _format_result, is_integer, format_g. rewrite Hf.
    reflexivity.
  - intros s Hf. unfold _format_result, is_integer, format_g. rewrite Hf.
    destruct s; reflexivity.
  - intros s Hf.
    assert (Hz : to_Z f = IntOf 0) by (unfold to_Z; rewrite Hf; reflexivity).
    unfold _format_result, is_integer. rewrite Hf. cbn [to_int]. rewrite Hz.
    cbn [rbind]. exact (float_int_text h f 0 Hz).
Qed.

(** C6, as the code has it.  The formatter renders a whole-valued float
    as the decimal numeral of its exact integer value, with no decimal
    point; every other float in [.12g] notation, which for a finite value
    is its general notation: the sign and the value rounded to twelve
    significant digits (to the nearest, ties to even), in fixed layout
    when the decimal exponent is in [-4, 12) and in scientific layout
    otherwise, the fraction without its trailing zeros; and an [int] as
    its exact decimal numeral, as long as it has no more digits than the
    interpreter's limit on integer text allows: beyond the limit [str]
    raises a ValueError. *)
Theorem format_result_renders_numbers (h : host) :
  (forall f : float,
      is_integer f = true ->
      exists z : Z,
        to_Z f = IntOf z
        /\ _format_result h (VFloat f) = Ok (str_of_int z)
        /\ ~ In point_char (str_of_int z)
        /\ (forall (s : bool) (m : positive) (e : Z),
               Prim2SF f = S754_finite s m e ->
               Z.abs z * 2 ^ Z.max 0 (- e) = Zpos m * 2 ^ Z.max 0 e
               /\ (z < 0 <-> s = true)))
  /\ (forall f : float,
         is_integer f = false ->
         _format_result h (VFloat f) = Ok (format_g 12 f))
  /\ (forall (f : float) (s : bool) (m : positive) (e : Z),
         Prim2SF f = S754_finite s m e ->
         general_notation s (Zpos m * 2 ^ Z.max 0 e) (2 ^ Z.max 0 (- e))
                          (format_g 12 f)
         /\ (forall text : pystr,
                general_notation s (Zpos m * 2 ^ Z.max 0 e)
                                 (2 ^ Z.max 0 (- e)) text ->
                text = format_g 12 f))
  /\ (forall z : Z,
         digit_count z <= 640 \/ int_max_str_digits h <= 0
         \/ digit_count z <= int_max_str_digits h ->
         _format_result h (VInt z) = Ok (str_of_int z))
  /\ (forall z : Z,
         640 < digit_count z -> 0 < int_max_str_digits h < digit_count z ->
         _format_result h (VInt z)
         = Err (ValueError (exceeds_limit_message (int_max_str_digits h))))
  /\ (forall z : Z,
         (z <> 0 ->
          10 ^ (digit_count z - 1) <= Z.abs z < 10 ^ digit_count z)
         /\ ~ In point_char (str_of_int z)
         /\ exists s : string,
              str_of_int z = py s
              /\ option_map Z.of_int (NilZero.int_of_string s) = Some z)
  /\ (forall (f : float) (s : bool) (m : positive) (e : Z),
         Prim2SF f = S754_finite s m e ->
         is_integer f = true
         <-> exists z : Z, Zpos m * 2 ^ Z.max 0 e = z * 2 ^ Z.max 0 (- e))
  /\ (forall f : float,
         (Prim2SF f = S754_nan ->
          _format_result h (VFloat f) = Ok (py "nan"))
         /\ (forall s : bool,
                Prim2SF f = S754_infinity s ->
                _format_result h (VFloat f)
                = Ok (if s then py "-inf" else py "inf"))
         /\ (forall s : bool,
                Prim2SF f = S754_zero s ->
                _format_result h (VFloat f) = Ok (py "0")))
  /\ (forall z : Z,
         exists ds : pystr,
           str_of_int z = (if z <? 0 then [45%N] else []) ++ ds
           /\ numeral ds /\ decimal ds (Z.abs z)).
Proof.
  split; [|split; [|split; [|split; [|split; [|split; [|split; [|split]]]]]]].
  - intros f Hi. destruct (is_integer_to_Z f Hi) as [z Hz].
    exists z. split; [exact Hz|]. split.
    { unfold _format_result. rewrite Hi. cbn [to_int]. rewrite Hz.
      cbn [rbind]. exact (float_int_text h f z Hz). }
    split; [apply str_of_int_no_point|].
    intros s m e Hf. exact (to_Z_exact f z s m e Hi Hz Hf).
  - intros f Hi. unfold _format_result. rewrite Hi. reflexivity.
  - intros f s m e Hf.
    pose proof (format_g_general f s m e Hf) as Hg.
    split; [exact Hg|]. intros text Ht.
    apply (general_notation_unique s (Zpos m * 2 ^ Z.max 0 e)
             (2 ^ Z.max 0 (- e))); try assumption.
    + apply Z.mul_pos_pos; [lia | apply Z.pow_pos_nonneg; lia].
    + apply Z.pow_pos_nonneg; lia.
  - intros z Hz. cbn [_format_result py_str py_repr]. unfold int_text.
    destruct (Z.ltb_spec 640 (digit_count z)); [|reflexivity].
    destruct (Z.ltb_spec 0 (int_max_str_digits h)); [|reflexivity].
    destruct (Z.ltb_spec (int_max_str_digits h) (digit_count z));
      [lia | reflexivity].
  - intros z H1 [H2 H3]. cbn [_format_result py_str py_repr]. unfold int_text.
    destruct (Z.ltb_spec 640 (digit_count z)); [|lia].
    destruct (Z.ltb_spec 0 (int_max_str_digits h)); [|lia].
    destruct (Z.ltb_spec (int_max_str_digits h) (digit_count z));
      [reflexivity | lia].
  - intros z. split; [intros Hz; apply (digit_count_spec z Hz)|].
    split; [apply str_of_int_no_point | apply str_of_int_exact].
  - intros f s m e Hf. exact (is_integer_whole f s m e Hf).
  - intros f. apply format_result_special.
  - intros z. apply str_of_int_text.
Qed.

(** The theorem at the whole-valued float [4.0], the fractional [2.5],
    the integer [120], and the float nearest to [0.00001], whose decimal
    exponent [-5] is below the fixed layout. *)
Lemma format_result_renders_numbers_witness :
  _format_result sample_host (VFloat 4) = Ok (py "4")
  /\ _format_result sample_host (VFloat 2.5) = Ok (py "2.5")
  /\ _format_result sample_host (VInt 120) = Ok (py "120")
  /\ general_notation false 5902958103587057 (2 ^ 69) (py "1e-05").
Proof.
  destruct (format_result_renders_numbers sample_host)
    as [H1 [H2 [H3 [H4 _]]]].
  split; [|split; [|split]].
  - destruct (H1 4%float eq_refl) as [z [Hz [Hf _]]].
    vm_compute in Hz. injection Hz as <-. exact Hf.
  - exact (H2 2.5%float eq_refl).
  - apply (H4 120). left. vm_compute. discriminate.
  - destruct (H3 0x1.4f8b588e368f1p-17%float false 5902958103587057%positive
                 (-69) eq_refl) as [Hg _].
    exact Hg.
Defined.

(** ** Calls that cannot be made *)

Lemma call_with_wrong_arity (h : host) (f : value) (args : list value)
      (st : calc) :
  accepts f (List.length args) = false ->
  call h f args st = Raise TypeError st.
Proof.
  intros H. destruct f as [|z|x|s|items|b|m| |c]; cbn [call];
    try reflexivity; try discriminate.
  - destruct b; destruct args as [|a1 [|a2 [|a3 [|a4 rest]]]];
      try discriminate; try reflexivity;
      destruct a1; reflexivity.
  - destruct m; destruct args as [|a1 [|a2 [|a3 rest]]];
      try discriminate; try reflexivity;
      destruct a1; reflexivity.
Qed.

(** A call that cannot be made (a wrong number of arguments, or a callee
    that is a number, [None], a string or a tuple) is answered by
    ["Error: Invalid Expression"], and nothing is added to the history. *)
Theorem impossible_call_is_invalid (h : host) (expression : pystr)
        (f : expr) (args : list expr) (vf : value) (vs : list value)
        (st st1 st2 : calc) :
  parse (_preprocess expression) = Tree (ECall f args) ->
  eval_expr h f st = Return vf st1 ->
  eval_expr h (ETuple args) st1 = Return (VTuple vs) st2 ->
  accepts vf (List.length vs) = false ->
  evaluate h expression st = Some (py "Error: Invalid Expression", st2).
Proof.
  intros Hparse Hf Hargs Hacc. unfold evaluate.
  destruct (PyStr.eqb (_preprocess expression) []) eqn:E1.
  { apply pystr_eqb_eq in E1. rewrite E1 in Hparse. discriminate. }
  destruct (PyStr.eqb (_preprocess expression) invalid_marker) eqn:E2.
  { apply pystr_eqb_eq in E2. rewrite E2 in Hparse. discriminate. }
  unfold py_eval. rewrite Hparse. cbn [eval_expr]. rewrite Hf.
  cbn [bind]. cbn [eval_expr] in Hargs.
  match type of Hargs with
  | bind ?r _ = _ => destruct r as [vs0 st0| |] eqn:Er; try discriminate
  end.
  cbn [bind] in Hargs. injection Hargs as -> ->.
  cbn [bind]. rewrite (call_with_wrong_arity h vf vs st2 Hacc). reflexivity.
Qed.

(** The theorem at [log(8, 2, 2)]. *)
Lemma impossible_call_is_invalid_witness :
  evaluate sample_host (py "log(8, 2, 2)") new_calc
  = Some (py "Error: Invalid Expression", new_calc).
Proof.
  apply (impossible_call_is_invalid sample_host (py "log(8, 2, 2)")
           (EName (py "log")) [EInt 8; EInt 2; EInt 2] (VMethod M_log)
           [VInt 8; VInt 2; VInt 2] new_calc new_calc new_calc);
    vm_compute; reflexivity.
Defined.

(** ** The handlers of the window *)

Import CalculatorGUI.

Lemma is_str_eq (v : value) (s : string) :
  is_str v s = true -> v = VStr (py s).
Proof.
  destruct v; try discriminate. cbn. intros H. apply pystr_eqb_eq in H.
  congruence.
Qed.

(** The mode button: from ["DEG"] it sets ["RAD"], from anything else
    ["DEG"]; the label of the button then names the mode set; the history
    and the entry are left as they were; and from ["DEG"] or ["RAD"] two
    presses give the mode back. *)
Theorem toggle_mode_flips (h : host) (g : gui) :
  (if is_str (angle_mode (logic g)) "DEG"
   then angle_mode (logic (toggle_mode h g)) = VStr (py "RAD")
        /\ mode_btn (toggle_mode h g) = py "Mode: RAD"
   else angle_mode (logic (toggle_mode h g)) = VStr (py "DEG")
        /\ mode_btn (toggle_mode h g) = py "Mode: DEG")
  /\ history (logic (toggle_mode h g)) = history (logic g)
  /\ expr_var (toggle_mode h g) = expr_var g
  /\ (is_str (angle_mode (logic g)) "DEG"
      || is_str (angle_mode (logic g)) "RAD" = true ->
      angle_mode (logic (toggle_mode h (toggle_mode h g)))
      = angle_mode (logic g)).
Proof.
  assert (Hrad : forall st, set_angle_mode h (py "RAD") st
                 = Return VNone {| angle_mode := VStr (py "RAD");
                                   history := history st |})
    by (intros st; reflexivity).
  assert (Hdeg : forall st, set_angle_mode h (py "DEG") st
                 = Return VNone {| angle_mode := VStr (py "DEG");
                                   history := history st |})
    by (intros st; reflexivity).
  assert (Hstep : forall g0,
             toggle_mode h g0
             = if is_str (angle_mode (logic g0)) "DEG"
               then {| logic := {| angle_mode := VStr (py "RAD");
                                   history := history (logic g0) |};
                       expr_var := expr_var g0;
                       mode_btn := py "Mode: RAD" |}
               else {| logic := {| angle_mode := VStr (py "DEG");
                                   history := history (logic g0) |};
                       expr_var := expr_var g0;
                       mode_btn := py "Mode: DEG" |}).
  { intros g0. unfold toggle_mode. rewrite Hrad, Hdeg. reflexivity. }
  split; [|split; [|split]].
  - rewrite Hstep. destruct (is_str (angle_mode (logic g)) "DEG");
      split; reflexivity.
  - rewrite Hstep. destruct (is_str (angle_mode (logic g)) "DEG");
      reflexivity.
  - rewrite Hstep. destruct (is_str (angle_mode (logic g)) "DEG");
      reflexivity.
  - intros Hmode. rewrite (Hstep (toggle_mode h g)), (Hstep g).
    destruct (is_str (angle_mode (logic g)) "DEG") eqn:E1.
    + apply is_str_eq in E1. rewrite E1. reflexivity.
    + cbn [orb] in Hmode. apply is_str_eq in Hmode. rewrite Hmode.
      reflexivity.
Qed.

(** The theorem at the window as it opens. *)
Lemma toggle_mode_flips_witness :
  angle_mode (logic (toggle_mode sample_host
                       (toggle_mode sample_host CalculatorGUI.__init__)))
  = angle_mode (logic CalculatorGUI.__init__).
Proof.
  apply (toggle_mode_flips sample_host CalculatorGUI.__init__). reflexivity.
Defined.

(** A typing button appends its text. *)
Lemma typing_click (h : host) (t : pystr) (g : gui) :
  PyStr.eqb t (py "C") = false ->
  PyStr.eqb t backspace_sign = false ->
  PyStr.eqb t (py "=") = false ->
  on_button_click h t g = Some (append_text (typed t) g).
Proof.
  intros H1 H2 H3. unfold on_button_click, typed. rewrite H1, H2, H3.
  destruct (existsb (PyStr.eqb t) function_buttons); [reflexivity|].
  cbn [orb].
  destruct (PyStr.eqb t (py "root")) eqn:E4.
  { apply pystr_eqb_eq in E4. subst t. reflexivity. }
  destruct (PyStr.eqb t (py "pi")) eqn:E5.
  { apply pystr_eqb_eq in E5. subst t. reflexivity. }
  destruct (PyStr.eqb t (py "e")) eqn:E6.
  { apply pystr_eqb_eq in E6. subst t. reflexivity. }
  reflexivity.
Qed.

Lemma typing_button_click (h : host) (t : pystr) (g : gui) :
  typing_button t = true ->
  on_button_click h t g = Some (append_text (typed t) g).
Proof.
  unfold typing_button. intros H.
  repeat (apply andb_prop in H; destruct H as [H ?]).
  apply typing_click;
    match goal with
    | H : negb ?b = true |- ?b = false => destruct b; [discriminate | reflexivity]
    end.
Qed.

Lemma typing_clicks (h : host) (texts : list pystr) :
  forallb typing_button texts = true ->
  forall g,
    click_all h texts g
    = Some (append_text (List.concat (map typed texts)) g).
Proof.
  induction texts as [|t rest IH]; intros Hall g.
  - cbn. unfold append_text. rewrite app_nil_r. destruct g; reflexivity.
  - cbn [forallb] in Hall. apply andb_prop in Hall. destruct Hall as [Ht Hr].
    cbn [click_all]. rewrite (typing_button_click h t g Ht), (IH Hr).
    unfold append_text. cbn [logic expr_var mode_btn map List.concat].
    rewrite app_assoc. reflexivity.
Qed.

Lemma typing_button_typeable (t : pystr) :
  typing_button t = true -> forallb typeable_char (typed t) = true.
Proof.
  intros Ht. pose proof Ht as H. unfold typing_button in H.
  repeat (apply andb_prop in H; destruct H as [H _]).
  apply existsb_exists in H. destruct H as [x [Hx Hex]].
  apply pystr_eqb_eq in Hex. subst t.
  assert (Hall : forallb (fun b => implb (typing_button b)
                                         (forallb typeable_char (typed b)))
                         (List.concat buttons) = true)
    by (vm_compute; reflexivity).
  rewrite forallb_forall in Hall. specialize (Hall x Hx).
  rewrite Ht in Hall. exact Hall.
Qed.

Lemma lstrip_incl (s : pystr) (c : N) : In c (lstrip s) -> In c s.
Proof.
  induction s as [|x s IH]; cbn; [tauto|].
  destruct (isspace x); [intros H; right; exact (IH H) | tauto].
Qed.

Lemma strip_incl (s : pystr) (c : N) : In c (strip s) -> In c s.
Proof.
  unfold strip, rstrip. intros H.
  apply in_rev, lstrip_incl in H. apply in_rev in H.
  apply lstrip_incl. exact H.
Qed.

Lemma translate_no_underscore (c : N) :
  In 95%N (translate_char c) -> c = 95%N.
Proof.
  unfold translate_char.
  destruct (N.eqb c times_sign);
    [cbn; intros [H|[]]; discriminate|].
  destruct (N.eqb c division_sign);
    [cbn; intros [H|[]]; discriminate|].
  destruct (N.eqb c caret);
    [cbn; intros [H|[H|[]]]; discriminate|].
  cbn. intros [H|[]]. congruence.
Qed.

Lemma typeable_text_is_accepted (s : pystr) :
  forallb typeable_char s = true ->
  _preprocess s = flat_map translate_char (strip s)
  /\ _preprocess s <> invalid_marker.
Proof.
  intros H.
  assert (Hacc : forallb accepted_char s = true).
  { rewrite forallb_forall in H |- *. intros c Hc. apply H in Hc.
    unfold typeable_char in Hc. apply andb_prop in Hc. tauto. }
  rewrite (preprocess_accepted s Hacc). split; [reflexivity|]. intros Heq.
  assert (Hin : In 95%N (flat_map translate_char (strip s))).
  { rewrite Heq. vm_compute. tauto. }
  apply in_flat_map in Hin. destruct Hin as [c [Hc Ht]].
  apply translate_no_underscore in Ht. subst c. apply strip_incl in Hc.
  rewrite forallb_forall in H. apply H in Hc. discriminate.
Qed.

(** Clicks on typing buttons append their texts to the entry (a
    function's name with an opening parenthesis) and change nothing else;
    what they type from an empty entry is never refused by the sanitizer,
    which only translates it. *)
Theorem buttons_type_accepted_text (h : host) (texts : list pystr)
        (g : gui) :
  forallb typing_button texts = true ->
  click_all h texts g
  = Some (append_text (List.concat (map typed texts)) g)
  /\ _preprocess (List.concat (map typed texts))
     = flat_map translate_char (strip (List.concat (map typed texts)))
  /\ _preprocess (List.concat (map typed texts)) <> invalid_marker.
Proof.
  intros Hall. split; [apply typing_clicks, Hall|].
  apply typeable_text_is_accepted.
  induction texts as [|t rest IH]; [reflexivity|].
  cbn [forallb] in Hall. apply andb_prop in Hall. destruct Hall as [Ht Hr].
  cbn [map List.concat]. rewrite forallb_app, (typing_button_typeable t Ht).
  exact (IH Hr).
Qed.

(** The theorem at the clicks [sqrt], [2], [^], [4], [)]. *)
Lemma buttons_type_accepted_text_witness :
  click_all sample_host [py "sqrt"; py "2"; py "^"; py "4"; py ")"]
    CalculatorGUI.__init__
  = Some (append_text (py "sqrt(2^4)") CalculatorGUI.__init__)
  /\ _preprocess (py "sqrt(2^4)") = py "sqrt(2**4)".
Proof.
  destruct (buttons_type_accepted_text sample_host
              [py "sqrt"; py "2"; py "^"; py "4"; py ")"]
              CalculatorGUI.__init__ eq_refl) as [H1 [H2 _]].
  split; [exact H1 | exact H2].
Defined.

(** An entry that holds a character the sanitizer refuses (the colon of an
    ["Error: ..."] text, say) is answered by ["Error: Invalid Characters"]
    whatever is typed after it, the evaluator is left as it was, and the
    answer holds such a character again. *)
Theorem rejected_text_stays_rejected (h : host) (texts : list pystr)
        (g : gui) (c : N) :
  In c (expr_var g) -> accepted_char c = false ->
  forallb typing_button texts = true ->
  click_all h (texts ++ [py "="]) g
  = Some {| logic := logic g;
            expr_var := py "Error: Invalid Characters";
            mode_btn := mode_btn g |}
  /\ In 58%N (py "Error: Invalid Characters")
  /\ accepted_char 58 = false.
Proof.
  intros Hin Hc Hall. split; [|split; [vm_compute; tauto | reflexivity]].
  assert (Hrun : forall l g0,
             click_all h l g0 = Some (append_text
                                        (List.concat (map typed texts)) g) ->
             click_all h (l ++ [py "="]) g0
             = calculate h (append_text (List.concat (map typed texts)) g)).
  { induction l as [|t l IH]; intros g0 H.
    - cbn in H. injection H as ->. cbn [app click_all].
      change (on_button_click h (py "=")
                (append_text (List.concat (map typed texts)) g))
        with (calculate h (append_text (List.concat (map typed texts)) g)).
      destruct (calculate h _); reflexivity.
    - cbn [click_all app] in H |- *.
      destruct (on_button_click h t g0); [apply IH, H | discriminate]. }
  rewrite (Hrun texts g (typing_clicks h texts Hall g)).
  unfold calculate, append_text. cbn [logic expr_var mode_btn].
  rewrite (evaluate_of_marker h
             (expr_var g ++ List.concat (map typed texts)) (logic g)).
  - reflexivity.
  - apply preprocess_rejected, (refused_char _ c); [|exact Hc].
    apply in_or_app. left. exact Hin.
Qed.

(** The theorem at [2+3] typed after a division by zero. *)
Lemma rejected_text_stays_rejected_witness :
  click_all sample_host [py "2"; py "+"; py "3"; py "="]
    {| logic := new_calc; expr_var := py "Error: Division by Zero";
       mode_btn := py "Mode: DEG" |}
  = Some {| logic := new_calc; expr_var := py "Error: Invalid Characters";
            mode_btn := py "Mode: DEG" |}.
Proof.
  apply (rejected_text_stays_rejected sample_host
           [py "2"; py "+"; py "3"]
           {| logic := new_calc; expr_var := py "Error: Division by Zero";
              mode_btn := py "Mode: DEG" |} 58%N).
  - vm_compute. tauto.
  - reflexivity.
  - reflexivity.
Defined.

(** The backspace removes what typing one character added, does nothing
    on an empty entry, and after a function button removes the
    parenthesis only. *)
Theorem backspace_undoes_one_character (g : gui) :
  (forall c : N, backspace (append_text [c] g) = g)
  /\ backspace (clear g) = clear g
  /\ (forall (h : host) (t : pystr),
         existsb (PyStr.eqb t) function_buttons = true ->
         option_map backspace (on_button_click h t g)
         = Some (append_text t g)).
Proof.
  split; [|split].
  - intros c. destruct g as [l e m]. unfold backspace, append_text.
    cbn [logic expr_var mode_btn]. rewrite removelast_last. reflexivity.
  - reflexivity.
  - intros h t Ht.
    assert (Hb : typing_button t = true).
    { unfold function_buttons in Ht. apply existsb_exists in Ht.
      destruct Ht as [x [Hx Hex]]. apply pystr_eqb_eq in Hex. subst t.
      cbn in Hx.
      repeat (destruct Hx as [<-|Hx]; [reflexivity|]). destruct Hx. }
    rewrite (typing_button_click h t g Hb). unfold typed. rewrite Ht.
    cbn [orb option_map]. unfold backspace, append_text.
    cbn [logic expr_var mode_btn].
    replace (expr_var g ++ t ++ py "(") with ((expr_var g ++ t) ++ py "(")
      by (rewrite app_assoc; reflexivity).
    change (py "(") with [40%N]. rewrite removelast_last. reflexivity.
Qed.

(** The theorem at the button [sin]. *)
Lemma backspace_undoes_one_character_witness :
  option_map backspace
    (on_button_click sample_host (py "sin") CalculatorGUI.__init__)
  = Some (append_text (py "sin") CalculatorGUI.__init__).
Proof.
  apply (backspace_undoes_one_character CalculatorGUI.__init__).
  reflexivity.
Defined.
